(** * bamtools_fasta: FASTA reading and indexing

    A shallow embedding of [src/utils/bamtools_fasta.cpp]
    ([Fasta::FastaPrivate]) together with the part of the C stdio and
    C++ iostream behaviour the code relies on, and the properties of the
    index builder and of the access engine stated over it.

    Conventions of the embedding:
    - file contents and [std::string]s are [list byte];
    - C [int] results ([fgetc], positions, lengths) are [Z]; narrowing
      conversions are written out ([to_int32], [to_size_t]);
    - [char] is a signed 8-bit type (as on x86-64 Linux); a [char] is kept
      as the byte that represents it and [schar] gives its value;
    - a member function returning [bool] with reference out-parameters
      returns its outputs together with the new session state. *)

From Stdlib Require Import String Ascii.
From Stdlib Require Import ZArith List Bool Lia PeanoNat Sorted.
From Stdlib Require Import Init.Byte Strings.Byte.
Import ListNotations.
Open Scope Z_scope.

(** ** Characters *)

Module Char.

Definition b2z (b : byte) : Z := Z.of_N (Byte.to_N b).

(** Value of a [char] holding the byte [b] ([char] is signed). *)
Definition schar (b : byte) : Z :=
  if b2z b <? 128 then b2z b else b2z b - 256.

(** Conversion of an [int] to [char] (modulo 256). *)
Definition char_of_int (c : Z) : byte :=
  match Byte.of_N (Z.to_N (c mod 256)) with
  | Some b => b
  | None => x00
  end.

Definition NUL : byte := x00.
Definition TAB : byte := x09.
Definition LF : byte := x0a.
Definition CR : byte := x0d.
Definition SPACE : byte := x20.
Definition GT : byte := x3e.

(** [isgraph] in the C locale. *)
Definition isgraph (c : Z) : bool := (33 <=? c) && (c <=? 126).

(** [isspace] in the C locale (used by [operator>>]). *)
Definition isspace (b : byte) : bool :=
  let c := b2z b in ((9 <=? c) && (c <=? 13)) || (c =? 32).

Definition isdigit (b : byte) : bool :=
  let c := b2z b in (48 <=? c) && (c <=? 57).

Definition graphic (b : byte) : bool := isgraph (b2z b).

End Char.
Import Char.

(** ** Integer conversions *)

Definition INT_MAX : Z := 2147483647.
Definition INT_MIN : Z := -2147483648.
Definition INT64_MAX : Z := 9223372036854775807.
Definition INT64_MIN : Z := -9223372036854775808.
Definition SIZE_MAX : Z := 18446744073709551615.

Definition in_int32 (z : Z) : bool := (INT_MIN <=? z) && (z <=? INT_MAX).
Definition in_int64 (z : Z) : bool := (INT64_MIN <=? z) && (z <=? INT64_MAX).

(** Conversion to [int32_t]: two's complement wrap-around. *)
Definition to_int32 (z : Z) : Z := (z + 2 ^ 31) mod 2 ^ 32 - 2 ^ 31.

(** Conversion to [std::size_t] (64 bits). *)
Definition to_size_t (z : Z) : Z := z mod 2 ^ 64.

(** ** C stdio streams over regular files *)

Module Stdio.

(** A stream opened for reading: the bytes of the file, the file
    position and the end-of-file indicator. *)
Record FILE : Type := mkFILE {
  content : list byte;
  fpos : nat;
  eofflag : bool
}.

Definition EOF : Z := -1.

Definition remaining (f : FILE) : list byte := skipn (fpos f) (content f).

Definition feof (f : FILE) : bool := eofflag f.

(** [fgetc]: the next byte as an [int] in 0..255, or [EOF] with the
    indicator set when the position is at the end. *)
Definition fgetc (f : FILE) : Z * FILE :=
  match nth_error (content f) (fpos f) with
  | Some b => (b2z b, mkFILE (content f) (S (fpos f)) (eofflag f))
  | None => (EOF, mkFILE (content f) (fpos f) true)
  end.

Definition getc := fgetc.

(** [ungetc (c, stream)]: fails and leaves the stream alone when [c] is
    [EOF]; otherwise the byte [(unsigned char) c] is what the stream
    yields next and the end-of-file indicator is cleared. *)
Definition ungetc (c : Z) (f : FILE) : FILE :=
  if c =? EOF then f
  else mkFILE (firstn (fpos f - 1) (content f)
                 ++ char_of_int c :: skipn (fpos f) (content f))
              (fpos f - 1) false.

(** Bytes stored by [fgets] when at most [k] may be read, and whether the
    end of the file was hit while reading. *)
Fixpoint fgets_bytes (k : nat) (l : list byte) : list byte * bool :=
  match k with
  | O => ([], false)
  | S k' =>
      match l with
      | [] => ([], true)
      | b :: l' =>
          if Byte.eqb b LF then ([b], false)
          else let (r, e) := fgets_bytes k' l' in (b :: r, e)
      end
  end.

(** [fgets (buffer, n, stream)]: [None] is the null result (nothing read
    before the end of the file), otherwise the bytes stored in [buffer]
    before its terminating NUL. *)
Definition fgets (n : nat) (f : FILE) : option (list byte) * FILE :=
  let (line, hit) := fgets_bytes (n - 1) (remaining f) in
  match line with
  | [] => (None, mkFILE (content f) (fpos f) (eofflag f || hit))
  | _ => (Some line,
          mkFILE (content f) (fpos f + length line) (eofflag f || hit))
  end.

(** [fseek64 (stream, offset, SEEK_SET)]: fails on a negative offset,
    otherwise moves (also past the end) and clears the indicator. *)
Definition fseek64 (f : FILE) (offset : Z) : option FILE :=
  if offset <? 0 then None
  else Some (mkFILE (content f) (Z.to_nat offset) false).

Definition ftell64 (f : FILE) : Z := Z.of_nat (fpos f).

(** The value of a buffer read as a C string: up to the first NUL. *)
Fixpoint cstr (buffer : list byte) : list byte :=
  match buffer with
  | [] => []
  | b :: t => if Byte.eqb b NUL then [] else b :: cstr t
  end.

Definition strlen (buffer : list byte) : nat := length (cstr buffer).

End Stdio.
Import Stdio.

(** ** C++ string streams, as far as the index reader and writer use them *)

Module Iostream.

Definition MINUS : byte := x2d.
Definition PLUS : byte := x2b.

Definition digit_char (d : Z) : byte := char_of_int (48 + d).
Definition digit_value (b : byte) : Z := b2z b - 48.

(** Decimal digits of a non-negative number, most significant first. *)
Fixpoint dec_digits (fuel : nat) (n : Z) (acc : list byte) : list byte :=
  match fuel with
  | O => acc
  | S fuel' =>
      let acc' := digit_char (n mod 10) :: acc in
      if n <? 10 then acc' else dec_digits fuel' (n / 10) acc'
  end.

(** [operator<<] of a signed integer of at most 64 bits: at most twenty
    digits, preceded by '-' when negative. *)
Definition print_int (z : Z) : list byte :=
  if z <? 0 then MINUS :: dec_digits 20 (- z) [] else dec_digits 20 z [].

(** The unread characters of a [std::stringstream] and its state bits. *)
Record sstream : Type := mkSS {
  sbuf : list byte;
  failbit : bool;
  eofbit : bool
}.

Definition ss_init : sstream := mkSS [] false false.

Definition good (s : sstream) : bool := negb (failbit s) && negb (eofbit s).

(** [s.str (std::string ())]: empties the buffer, keeps the state bits. *)
Definition ss_clear_str (s : sstream) : sstream :=
  mkSS [] (failbit s) (eofbit s).

(** [s << text]: nothing is inserted unless the stream is good. *)
Definition ss_put (text : list byte) (s : sstream) : sstream :=
  if good s then mkSS (sbuf s ++ text) (failbit s) (eofbit s)
  else mkSS (sbuf s) true (eofbit s).

Fixpoint span (p : byte -> bool) (l : list byte) : list byte * list byte :=
  match l with
  | [] => ([], [])
  | b :: t => if p b then let (a, r) := span p t in (b :: a, r) else ([], l)
  end.

Definition is_nil {A} (l : list A) : bool :=
  match l with [] => true | _ => false end.

(** The sentry of a formatted input function: the stream must be good;
    leading white space is skipped, and running out of characters
    there sets both bits. *)
Definition sentry (s : sstream) : bool * sstream :=
  if good s then
    let rest := snd (span isspace (sbuf s)) in
    if is_nil rest then (false, mkSS [] true true)
    else (true, mkSS rest (failbit s) (eofbit s))
  else (false, mkSS (sbuf s) true (eofbit s)).

(** [s >> str]: [None] when the string is left as it was. *)
Definition get_string (s : sstream) : option (list byte) * sstream :=
  let (ok, s1) := sentry s in
  if ok then
    let (tok, rest) := span (fun b => negb (isspace b)) (sbuf s1) in
    (Some tok, mkSS rest (failbit s1 || is_nil tok) (eofbit s1 || is_nil rest))
  else (None, s1).

Definition digits_value (ds : list byte) : Z :=
  fold_left (fun acc b => 10 * acc + digit_value b) ds 0.

(** [s >> n] for a signed integer type with range [lo..hi]: [None] when
    [n] is left as it was (the sentry failed); a field without digits
    stores 0 and a field out of range stores the nearest bound, both
    setting [failbit]. *)
Definition get_int (lo hi : Z) (s : sstream) : option Z * sstream :=
  let (ok, s1) := sentry s in
  if ok then
    let '(neg, l1) :=
      match sbuf s1 with
      | b :: t =>
          if Byte.eqb b MINUS then (true, t)
          else if Byte.eqb b PLUS then (false, t)
          else (false, sbuf s1)
      | [] => (false, [])
      end in
    let (ds, rest) := span isdigit l1 in
    let e := eofbit s1 || is_nil rest in
    if is_nil ds then (Some 0, mkSS rest true e)
    else
      let v := if neg then - digits_value ds else digits_value ds in
      if v <? lo then (Some lo, mkSS rest true e)
      else if hi <? v then (Some hi, mkSS rest true e)
      else (Some v, mkSS rest (failbit s1) e)
  else (None, s1).

Definition get_int32 := get_int INT_MIN INT_MAX.
Definition get_int64 := get_int INT64_MIN INT64_MAX.

End Iostream.
Import Iostream.

(** ** The file system seen through [fopen] *)

Record filesystem : Type := mkFS {
  files : string -> option (list byte);
  writable : string -> bool
}.

(** [fopen (path, "rb")] *)
Definition fopen_rb (fs : filesystem) (path : string) : option FILE :=
  match files fs path with
  | Some bytes => Some (mkFILE bytes 0 false)
  | None => None
  end.

Definition fs_store (fs : filesystem) (path : string) (bytes : list byte)
  : filesystem :=
  mkFS (fun p => if String.eqb p path then Some bytes else files fs p)
       (writable fs).

(** [fopen (path, "wb")]: creates the file or truncates it. *)
Definition fopen_wb (fs : filesystem) (path : string) : option filesystem :=
  if writable fs path then Some (fs_store fs path []) else None.

(** Bytes appended through a stream opened by [fopen_wb]. *)
Definition fs_append (fs : filesystem) (path : string) (bytes : list byte)
  : filesystem :=
  match files fs path with
  | Some old => fs_store fs path (old ++ bytes)
  | None => fs_store fs path bytes
  end.

(** ** Fasta::FastaPrivate *)

Module Fasta.

Record FastaIndexData : Type := mkData {
  Name : list byte;
  Length : Z;      (* int32_t *)
  Offset : Z;      (* int64_t *)
  LineLength : Z;  (* int32_t *)
  ByteLength : Z   (* int32_t: LineLength + newline character(s) *)
}.

(** What [IndexStream] points to. *)
Inductive index_stream : Type :=
| IdxInvalid                  (* never opened, or closed *)
| IdxRead (f : FILE)          (* opened "rb" by [Open] *)
| IdxWrite (path : string).   (* opened "wb" by [CreateIndex] *)

Record FastaPrivate : Type := mkFasta {
  Stream : FILE;
  IsOpen : bool;
  IndexStream : index_stream;
  HasIndex : bool;
  IsIndexOpen : bool;
  Index : list FastaIndexData
}.

(** The constructor: no file is open, no index is loaded. *)
Definition FastaPrivate_ctor : FastaPrivate :=
  mkFasta (mkFILE [] 0 false) false IdxInvalid false false [].

Definition set_Stream (d : FastaPrivate) (f : FILE) : FastaPrivate :=
  mkFasta f (IsOpen d) (IndexStream d) (HasIndex d) (IsIndexOpen d) (Index d).

Definition set_Index (d : FastaPrivate) (ix : list FastaIndexData)
  : FastaPrivate :=
  mkFasta (Stream d) (IsOpen d) (IndexStream d) (HasIndex d) (IsIndexOpen d) ix.

(** The diagnostics of the [return false] paths. *)
Inductive failure : Type :=
| FileNotOpen          (* "file not open" *)
| CouldNotRewind       (* "could not rewind FASTA file" *)
| CouldNotRead         (* "could not read from file" *)
| EofAfterHeader       (* silent: end of file right after the first line *)
| ExpectedHeader       (* "expected header ('>')" *)
| NoReadName           (* "could not parse read name from FASTA header" *)
| NoNextSequence       (* "could not read in next sequence" *)
| CouldNotOpenFasta    (* "Could not open ... for reading" *)
| CouldNotOpenIndex    (* "Could not open ... for writing/reading" *)
| CouldNotWriteIndex   (* silent: WriteIndexData returned false *)
| CouldNotLoadIndex    (* LoadIndexData returned false *)
| InvalidRefId         (* "invalid refId specified" *)
| InvalidPosition      (* "invalid position specified" *)
| InvalidStartStop     (* "invalid start/stop positions specified" *)
| CouldNotSeek         (* "could not seek in file" *)
| CouldNotRetrieve     (* "could not retrieve sequence from FASTA file" *)
| NoSequence           (* silent: sequential path, "could not get sequence" *)
| NoIndex.             (* "could not read from index file" *)

(** How a call ends. *)
Inductive outcome (A : Type) : Type :=
| Success (a : A)        (* returned true, with the out-parameter *)
| Failure (e : failure)  (* returned false *)
| ThrowsOutOfRange       (* std::out_of_range left the function *)
| Undefined              (* undefined behaviour *)
| OutOfFuel.             (* the model ran out of loop iterations *)
Arguments Success {A} a.
Arguments Failure {A} e.
Arguments ThrowsOutOfRange {A}.
Arguments Undefined {A}.
Arguments OutOfFuel {A}.

(** The error kinds of the specification, and the kind it gives to each
    diagnostic. *)
Inductive ErrorKind : Type :=
| IoError | FormatError | NotIndexedError | OutOfRangeError | NotFoundError.

Definition kind_of (e : failure) : ErrorKind :=
  match e with
  | FileNotOpen | CouldNotRewind | CouldNotRead | CouldNotOpenFasta
  | CouldNotOpenIndex | CouldNotWriteIndex | CouldNotSeek
  | CouldNotRetrieve | NoNextSequence | EofAfterHeader => IoError
  | ExpectedHeader | NoReadName | CouldNotLoadIndex => FormatError
  | InvalidRefId | InvalidPosition | InvalidStartStop => OutOfRangeError
  | NoSequence => NotFoundError
  | NoIndex => NotIndexedError
  end.

(** [std::vector::at] and [std::string::at]: [None] when they throw. *)
Definition at_ {A} (v : list A) (i : Z) : option A :=
  nth_error v (Z.to_nat (to_size_t i)).

(** [std::string::substr (pos, n)]: [None] when it throws. *)
Definition substr (s : list byte) (pos n : Z) : option (list byte) :=
  let p := to_size_t pos in
  let size := Z.of_nat (length s) in
  if size <? p then None
  else Some (firstn (Z.to_nat (Z.min (to_size_t n) (size - p)))
                    (skipn (Z.to_nat p) s)).

(** *** Chomp: remove any trailing newlines *)

Definition is_newline (b : byte) : bool := Byte.eqb b LF || Byte.eqb b CR.

(** The loop of [Chomp]; [n] is [seqLength + 1] and [sequence] the C
    string, which storing a NUL at [seqLength] cuts there. *)
Fixpoint Chomp_loop (n : nat) (sequence : list byte) : list byte :=
  match n with
  | O => sequence
  | S seqLength =>
      match nth_error sequence seqLength with
      | Some c =>
          if is_newline c then Chomp_loop seqLength (firstn seqLength sequence)
          else sequence
      | None => sequence
      end
  end.

Definition Chomp (buffer : list byte) : list byte :=
  let sequence := cstr buffer in
  Chomp_loop (strlen buffer) sequence.

(** *** Close *)

(** [Close] always returns [true]. A stream it closes is dangling
    afterwards: [IsOpen] and [IsIndexOpen] guard every use. The table is
    not cleared. *)
Definition Close (d : FastaPrivate) : bool * FastaPrivate :=
  (* close fasta file *)
  let d :=
    if IsOpen d then
      mkFasta (Stream d) false (IndexStream d) (HasIndex d) (IsIndexOpen d)
              (Index d)
    else d in
  (* close index file *)
  let d :=
    if HasIndex d && IsIndexOpen d then
      mkFasta (Stream d) (IsOpen d) IdxInvalid false false (Index d)
    else d in
  (* return success *)
  (true, d).

(** The destructor closes the session. *)
Definition FastaPrivate_dtor (d : FastaPrivate) : FastaPrivate :=
  snd (Close d).

(** *** GetNameFromHeader *)

Definition is_blank (b : byte) : bool :=
  Byte.eqb b SPACE || Byte.eqb b TAB || Byte.eqb b LF || Byte.eqb b CR.

(** [pName[i]]: the characters of [s], then its terminating NUL. *)
Definition char_at (pName : list byte) (i : nat) : byte := nth i pName NUL.

Fixpoint name_start (fuel : nat) (pName : list byte) (nameLen start : nat)
  : nat :=
  match fuel with
  | O => start
  | S fuel' =>
      if is_blank (char_at pName start) then
        let start := S start in
        if start =? nameLen then start
        else name_start fuel' pName nameLen start
      else start
  end%nat.

Fixpoint name_stop (fuel : nat) (pName : list byte) (nameLen stop : nat)
  : nat :=
  match fuel with
  | O => stop
  | S fuel' =>
      if negb (is_blank (char_at pName stop)) then
        let stop := S stop in
        if stop =? nameLen then stop
        else name_stop fuel' pName nameLen stop
      else stop
  end%nat.

(** [None] is the [false] result; a header is never empty here (it
    starts with '>'), so [header.substr (1)] does not throw. *)
Definition GetNameFromHeader (header : list byte) : option (list byte) :=
  let s := skipn 1 header in
  let nameLen := length s in
  let start := name_start (S nameLen) s nameLen 0 in
  let stop :=
    if (start <? nameLen)%nat then name_stop (S nameLen) s nameLen start
    else start in
  if (start =? stop)%nat then None
  else Some (cstr (firstn (stop - start) (skipn start s))).

(** *** Rewind, GetNextHeader, GetNextSequence *)

Definition Rewind (d : FastaPrivate) : option FastaPrivate :=
  if negb (IsOpen d) then None
  else match fseek64 (Stream d) 0 with
       | Some f => Some (set_Stream d f)
       | None => None
       end.

(** [None] is the [false] result, on which [header] is left alone. *)
Definition GetNextHeader (d : FastaPrivate)
  : option (list byte) * FastaPrivate :=
  if negb (IsOpen d) || feof (Stream d) then (None, d)
  else
    match fgets 1024 (Stream d) with
    | (None, f) => (None, set_Stream d f)
    | (Some buffer, f) =>
        if negb (Byte.eqb (hd NUL buffer) GT) then (None, set_Stream d f)
        else (Some (cstr buffer), set_Stream d f)
    end.

Fixpoint GetNextSequence_loop (fuel : nat) (f : FILE) (sequence : list byte)
    (count : Z) : bool * list byte * FILE :=
  if Z.of_nat (length sequence) <? count then
    match fuel with
    | O => (false, sequence, f)
    | S fuel' =>
        let (c, f1) := fgetc f in
        let ch := char_of_int c in
        let f2 := ungetc (schar ch) f1 in
        if Byte.eqb ch GT || feof f2 then (true, sequence, f2)
        else
          match fgets 1024 f2 with
          | (None, f3) => (false, sequence, f3)
          | (Some buffer, f3) =>
              GetNextSequence_loop fuel' f3 (sequence ++ Chomp buffer) count
          end
    end
  else (true, sequence, f).

(** Every iteration that goes on consumes a byte, so one more
    iteration than there are bytes left is enough. *)
Definition GetNextSequence (count : Z) (d : FastaPrivate)
  : bool * list byte * FastaPrivate :=
  if negb (IsOpen d) || feof (Stream d) then (false, [], d)
  else
    let '(ok, sequence, f) :=
      GetNextSequence_loop (S (length (remaining (Stream d))))
                           (Stream d) [] count in
    (ok, sequence, set_Stream d f).

(** *** WriteIndexData *)

(** One line of the index file, as [WriteIndexData] formats it. *)
Definition index_line (data : FastaIndexData) : list byte :=
  Name data ++ TAB :: print_int (Length data)
    ++ TAB :: print_int (Offset data)
    ++ TAB :: print_int (LineLength data)
    ++ TAB :: print_int (ByteLength data) ++ [LF].

(** [fputs (text, IndexStream) >= 0] *)
Definition fputs_index (text : list byte) (ixs : index_stream)
    (fs : filesystem) : bool * filesystem :=
  match ixs with
  | IdxWrite path => (true, fs_append fs path (cstr text))
  | IdxRead _ => (false, fs)
  | IdxInvalid => (false, fs)
  end.

Fixpoint WriteIndexData_loop (entries : list FastaIndexData)
    (ixs : index_stream) (success : bool) (fs : filesystem)
  : bool * filesystem :=
  match entries with
  | [] => (success, fs)
  | data :: entries' =>
      let (ok, fs') := fputs_index (index_line data) ixs fs in
      WriteIndexData_loop entries' ixs (success && ok) fs'
  end.

Definition WriteIndexData (fs : filesystem) (d : FastaPrivate)
  : bool * filesystem :=
  (* skip if no index file available *)
  if negb (IsIndexOpen d) then (false, fs)
  else WriteIndexData_loop (Index d) (IndexStream d) true fs.

(** *** CreateIndex *)

(** The loop reading the first line of sequence; [c] is the [char] last
    read. *)
Fixpoint first_line_loop (fuel : nat) (c : byte) (f : FILE)
    (byteLength lineLength : Z) : Z * Z * FILE :=
  match fuel with
  | O => (byteLength, lineLength, f)
  | S fuel' =>
      if (0 <=? schar c) && negb (Byte.eqb c LF) then
        let byteLength := byteLength + 1 in
        let lineLength :=
          if isgraph (schar c) then lineLength + 1 else lineLength in
        let (c', f') := fgetc f in
        first_line_loop fuel' (char_of_int c') f' byteLength lineLength
      else (byteLength, lineLength, f)
  end.

(** The loop over the fasta entries. *)
Fixpoint CreateIndex_loop (fuel : nat) (lineLength byteLength : Z)
    (d : FastaPrivate) : outcome unit * FastaPrivate :=
  match fuel with
  | O => (OutOfFuel, d)
  | S fuel' =>
      match GetNextHeader d with
      | (None, d1) => (Success tt, d1)
      | (Some header, d1) =>
          let offset := ftell64 (Stream d1) in
          match GetNameFromHeader header with
          | None => (Failure NoReadName, d1)
          | Some name =>
              let '(ok, sequence, d2) := GetNextSequence SIZE_MAX d1 in
              if negb ok then (Failure NoNextSequence, d2)
              else
                let data :=
                  mkData name (to_int32 (Z.of_nat (length sequence)))
                         offset lineLength byteLength in
                CreateIndex_loop fuel' lineLength byteLength
                  (set_Index d2 (Index d2 ++ [data]))
          end
      end
  end.

(** The first part of [CreateIndex], up to the end of the loop over the
    fasta entries: the line geometry and the table. *)
Definition CreateIndex_scan (d : FastaPrivate)
  : outcome unit * FastaPrivate :=
  (* check that file is open *)
  if negb (IsOpen d) then (Failure FileNotOpen, d)
  else
  (* rewind FASTA file *)
  match Rewind d with
  | None => (Failure CouldNotRewind, d)
  | Some d =>
  (* clear out prior index data *)
  let d := set_Index d [] in
  (* skip over header *)
  match fgets 1024 (Stream d) with
  | (None, f) => (Failure CouldNotRead, set_Stream d f)
  | (Some buffer, f) =>
  let d := set_Stream d f in
  if feof (Stream d) then (Failure EofAfterHeader, d)
  else if negb (Byte.eqb (hd NUL buffer) GT) then (Failure ExpectedHeader, d)
  else
  (* read in first line of sequence *)
  let (c, f) := fgetc (Stream d) in
  let '(byteLength, lineLength, f) :=
    first_line_loop (S (length (remaining f))) (char_of_int c) f 0 0 in
  let byteLength := byteLength + 1 in (* store newline *)
  if negb (in_int32 byteLength) then (Undefined, set_Stream d f)
  else
  let d := set_Stream d f in
  (* rewind FASTA file *)
  match Rewind d with
  | None => (Failure CouldNotRewind, d)
  | Some d =>
  (* iterate through fasta entries *)
  CreateIndex_loop (S (length (content (Stream d)))) lineLength byteLength d
  end
  end
  end.

(** [CreateIndex]: the scan, then the index file. *)
Definition CreateIndex (indexFilename : string) (fs : filesystem)
    (d : FastaPrivate) : outcome unit * filesystem * FastaPrivate :=
  match CreateIndex_scan d with
  | (Success _, d) =>
      (* open index file *)
      let opened :=
        if negb (String.eqb indexFilename EmptyString) then
          match fopen_wb fs indexFilename with
          | Some fs' =>
              Some (fs', mkFasta (Stream d) (IsOpen d)
                                 (IdxWrite indexFilename)
                                 (HasIndex d) true (Index d))
          | None => None
          end
        else Some (fs, d) in
      match opened with
      | None =>
          (* IndexStream is the null pointer fopen returned *)
          (Failure CouldNotOpenIndex, fs,
           mkFasta (Stream d) (IsOpen d) IdxInvalid (HasIndex d)
                   (IsIndexOpen d) (Index d))
      | Some (fs, d) =>
          (* write index data *)
          match WriteIndexData fs d with
          | (false, fs) => (Failure CouldNotWriteIndex, fs, d)
          | (true, fs) =>
              (* HasIndex = true; close index file *)
              (Success tt, fs,
               mkFasta (Stream d) (IsOpen d) IdxInvalid true false (Index d))
          end
      end
  | (r, d) => (r, fs, d)
  end.

(** *** LoadIndexData and Open *)

(** The five extractions from one line; [None] when a numeric field is
    left uninitialised, which makes storing the entry undefined. *)
Definition parse_index_line (ss : sstream)
  : option FastaIndexData * sstream :=
  let (name, ss) := get_string ss in
  let (length, ss) := get_int32 ss in
  let (offset, ss) := get_int64 ss in
  let (lineLength, ss) := get_int32 ss in
  let (byteLength, ss) := get_int32 ss in
  match length, offset, lineLength, byteLength with
  | Some l, Some o, Some ll, Some bl =>
      (Some (mkData (match name with Some n => n | None => [] end) l o ll bl),
       ss)
  | _, _, _, _ => (None, ss)
  end.

(** The reading loop; [f] is the index stream, [ss] is [indexBuffer].
    The result is the outcome of [LoadIndexData], the entries read and
    the stream. *)
Fixpoint LoadIndexData_loop (fuel : nat) (f : FILE) (ss : sstream)
    (index : list FastaIndexData)
  : outcome unit * list FastaIndexData * FILE :=
  match fuel with
  | O => (OutOfFuel, index, f)
  | S fuel' =>
      let (c0, f1) := fgetc f in
      let c := char_of_int c0 in
      if Byte.eqb c LF || feof f1 then (Success tt, index, f1)
      else
        let f2 := ungetc (schar c) f1 in
        (* clear index buffer *)
        let ss := ss_clear_str ss in
        (* read line from index file *)
        match fgets 1024 f2 with
        | (None, f3) => (Failure CouldNotLoadIndex, index, f3)
        | (Some buffer, f3) =>
            (* store line in indexBuffer *)
            let ss := ss_put (cstr buffer) ss in
            (* retrieve fasta index data from line *)
            match parse_index_line ss with
            | (None, _) => (Undefined, index, f3)
            | (Some data, ss) =>
                LoadIndexData_loop fuel' f3 ss (index ++ [data])
            end
        end
  end.

Definition LoadIndexData (d : FastaPrivate) : outcome unit * FastaPrivate :=
  (* skip if no index file available *)
  if negb (IsIndexOpen d) then (Failure CouldNotLoadIndex, d)
  else
    match IndexStream d with
    | IdxRead f =>
        let '(r, index, f') :=
          LoadIndexData_loop (S (length (remaining f))) f ss_init [] in
        (r, mkFasta (Stream d) (IsOpen d) (IdxRead f')
                    (match r with Failure _ => false | _ => HasIndex d end)
                    (IsIndexOpen d) index)
    | _ =>
        (* a stream that cannot be read: fgets fails *)
        (Failure CouldNotLoadIndex,
         mkFasta (Stream d) (IsOpen d) (IndexStream d) false
                 (IsIndexOpen d) [])
    end.

Definition Open (filename indexFilename : string) (fs : filesystem)
    (d : FastaPrivate) : outcome unit * FastaPrivate :=
  (* open FASTA filename *)
  match fopen_rb fs filename with
  | None => (Failure CouldNotOpenFasta, d)
  | Some f =>
      let d := mkFasta f true (IndexStream d) (HasIndex d) (IsIndexOpen d)
                       (Index d) in
      (* open index file if it exists *)
      if negb (String.eqb indexFilename EmptyString) then
        match fopen_rb fs indexFilename with
        | None =>
            (Failure CouldNotOpenIndex,
             mkFasta (Stream d) (IsOpen d) IdxInvalid (HasIndex d)
                     (IsIndexOpen d) (Index d))
        | Some fi =>
            let d := mkFasta (Stream d) (IsOpen d) (IdxRead fi) (HasIndex d)
                             true (Index d) in
            (* attempt to load index data *)
            let (r, d) := LoadIndexData d in
            match r with
            | Success _ =>
                (Success tt,
                 mkFasta (Stream d) (IsOpen d) (IndexStream d) true
                         (IsIndexOpen d) (Index d))
            | Failure e =>
                (Failure e,
                 mkFasta (Stream d) (IsOpen d) (IndexStream d) false
                         (IsIndexOpen d) (Index d))
            | _ => (r, d)
            end
        end
      else (Success tt, d)
  end.

(** *** GetBase, GetSequence, GetLength *)

(** The loop [while (currentId != refId)] of the sequential paths, for
    the [n] iterations it makes when [refId] is [n >= 0]; the results of
    the two calls are ignored, as in the source. *)
Fixpoint skip_entries (n : nat) (sequence : list byte) (d : FastaPrivate)
  : list byte * FastaPrivate :=
  match n with
  | O => (sequence, d)
  | S n' =>
      let (_, d1) := GetNextHeader d in
      let '(_, sequence', d2) := GetNextSequence SIZE_MAX d1 in
      skip_entries n' sequence' d2
  end.

(** Rewind is done by the caller; reads the first entry, then goes on to
    entry [refId]. A negative [refId] is never met by [currentId]
    before it overflows. *)
Definition scan_to (refId : Z) (d : FastaPrivate)
  : option (list byte * FastaPrivate) :=
  let (_, d1) := GetNextHeader d in
  let '(_, sequence, d2) := GetNextSequence SIZE_MAX d1 in
  if refId <? 0 then None
  else Some (skip_entries (Z.to_nat refId) sequence d2).

Definition GetBase (refId position : Z) (d : FastaPrivate)
  : outcome byte * FastaPrivate :=
  (* make sure FASTA file is open *)
  if negb (IsOpen d) then (Failure FileNotOpen, d)
  else if HasIndex d && negb (is_nil (Index d)) then
    (* validate reference id *)
    if (refId <? 0)
       || (to_int32 (Z.of_nat (length (Index d))) <=? refId) then
      (Failure InvalidRefId, d)
    else
      match at_ (Index d) refId with
      | None => (ThrowsOutOfRange, d)
      | Some referenceData =>
          (* validate position *)
          if (position <? 0) || (Length referenceData <? position) then
            (Failure InvalidPosition, d)
          else if LineLength referenceData =? 0 then
            (Undefined, d) (* integer division by zero *)
          else
            (* calculate seek position & attempt jump *)
            let lines := Z.quot position (LineLength referenceData) in
            let lineOffset := Z.rem position (LineLength referenceData) in
            let seekTo1 :=
              Offset referenceData + lines * ByteLength referenceData in
            let seekTo := seekTo1 + lineOffset in
            if negb (in_int64 seekTo1 && in_int64 seekTo) then
              (Undefined, d) (* signed overflow *)
            else
              match fseek64 (Stream d) seekTo with
              | None => (Failure CouldNotSeek, d)
              | Some f =>
                  (* set base & return success *)
                  let (c, f') := getc f in
                  (Success (char_of_int c), set_Stream d f')
              end
      end
  else
    (* else plow through sequentially *)
    match Rewind d with
    | None => (Failure CouldNotRewind, d)
    | Some d =>
        match scan_to refId d with
        | None => (Undefined, d)
        | Some (sequence, d) =>
            (* get desired base from sequence *)
            if to_size_t position <=? Z.of_nat (length sequence) then
              match at_ sequence position with
              | Some base => (Success base, d)
              | None => (ThrowsOutOfRange, d)
              end
            else (Failure NoSequence, d)
        end
    end.

Definition GetSequence (refId start stop : Z) (d : FastaPrivate)
  : outcome (list byte) * FastaPrivate :=
  (* make sure FASTA file is open *)
  if negb (IsOpen d) then (Failure FileNotOpen, d)
  else if HasIndex d && negb (is_nil (Index d)) then
    (* validate reference id *)
    if (refId <? 0)
       || (to_int32 (Z.of_nat (length (Index d))) <=? refId) then
      (Failure InvalidRefId, d)
    else
      match at_ (Index d) refId with
      | None => (ThrowsOutOfRange, d)
      | Some referenceData =>
          (* validate stop position *)
          if (start <? 0) || (stop <? start)
             || (Length referenceData <? stop) then
            (Failure InvalidStartStop, d)
          else
            (* seek to beginning of sequence data *)
            match fseek64 (Stream d) (Offset referenceData) with
            | None => (Failure CouldNotSeek, d)
            | Some f =>
                let d := set_Stream d f in
                (* retrieve full sequence *)
                let seqLength := (stop - start) + 1 in
                if negb (in_int32 seqLength && in_int32 (stop + 1)) then
                  (Undefined, d) (* signed overflow *)
                else
                  match GetNextSequence (to_size_t (stop + 1)) d with
                  | (false, _, d) => (Failure CouldNotRetrieve, d)
                  | (true, fullSequence, d) =>
                      (* set sub-sequence & return success *)
                      match substr fullSequence start seqLength with
                      | Some sequence => (Success sequence, d)
                      | None => (ThrowsOutOfRange, d)
                      end
                  end
            end
      end
  else
    (* else plow through sequentially *)
    match Rewind d with
    | None => (Failure CouldNotRewind, d)
    | Some d =>
        match scan_to refId d with
        | None => (Undefined, d)
        | Some (fullSequence, d) =>
            (* get desired substring from sequence *)
            if to_size_t stop <=? Z.of_nat (length fullSequence) then
              let seqLength := (stop - start) + 1 in
              if negb (in_int32 (stop - start) && in_int32 seqLength) then
                (Undefined, d) (* signed overflow *)
              else
                match substr fullSequence start seqLength with
                | Some sequence => (Success sequence, d)
                | None => (ThrowsOutOfRange, d)
                end
            else (Failure NoSequence, d)
        end
    end.

Definition GetLength (refId : Z) (d : FastaPrivate)
  : outcome Z * FastaPrivate :=
  (* make sure FASTA file is open *)
  if negb (IsOpen d) then (Failure FileNotOpen, d)
  (* make sure index if available *)
  else if negb (HasIndex d) && is_nil (Index d) then (Failure NoIndex, d)
  else
    match at_ (Index d) refId with
    | Some data => (Success (Length data), d)
    | None => (ThrowsOutOfRange, d)
    end.

End Fasta.
Import Fasta.

(** ** Sessions with an index *)


(** The session is open and marked indexed, and the number of entries is
    one an [int] holds. *)
Definition indexed (d : FastaPrivate) : Prop :=
  IsOpen d = true /\ HasIndex d = true /\
  Z.of_nat (length (Index d)) <= INT_MAX.

(** [refId] is a valid record id and [e] is its entry. *)
Definition entry_at (d : FastaPrivate) (refId : Z) (e : FastaIndexData)
  : Prop :=
  0 <= refId /\ nth_error (Index d) (Z.to_nat refId) = Some e.

(** An entry that survives the index file: a non-empty name of visible
    characters, numbers within their types, and a line that fits the
    1024-byte buffer of the reader. *)
Definition portable (e : FastaIndexData) : Prop :=
  Name e <> [] /\ Forall (fun b => graphic b = true) (Name e) /\
  INT_MIN <= Length e <= INT_MAX /\
  INT64_MIN <= Offset e <= INT64_MAX /\
  INT_MIN <= LineLength e <= INT_MAX /\
  INT_MIN <= ByteLength e <= INT_MAX /\
  (length (index_line e) <= 1023)%nat.


(** The fields hold values of their types, and the offset is one of a
    file of at most 2^62 bytes. *)
Definition entry_in_range (e : FastaIndexData) : Prop :=
  INT_MIN <= Length e <= INT_MAX /\
  INT_MIN <= LineLength e <= INT_MAX /\
  INT_MIN <= ByteLength e <= INT_MAX /\
  - 2 ^ 62 <= Offset e <= 2 ^ 62.

(** The seek target of the specification:
    [offset + (position / line_length) * byte_length
            + (position % line_length)]. *)
Definition seek_target (e : FastaIndexData) (position : Z) : Z :=
  Offset e + (position / LineLength e) * ByteLength e
  + position mod LineLength e.

(** The indexed path of [GetBase] from "validate position" on, for the
    entry [e] of the record. *)
Definition GetBase_at (e : FastaIndexData) (position : Z) (d : FastaPrivate)
  : outcome byte * FastaPrivate :=
  if (position <? 0) || (Length e <? position) then (Failure InvalidPosition, d)
  else if LineLength e =? 0 then (Undefined, d)
  else
    let seekTo1 := Offset e + Z.quot position (LineLength e) * ByteLength e in
    let seekTo := seekTo1 + Z.rem position (LineLength e) in
    if negb (in_int64 seekTo1 && in_int64 seekTo) then (Undefined, d)
    else
      match fseek64 (Stream d) seekTo with
      | None => (Failure CouldNotSeek, d)
      | Some f =>
          (Success (char_of_int (fst (getc f))), set_Stream d (snd (getc f)))
      end.


(** ** The data file format

    Records of '>' + name + optional description, newline, lines of
    sequence characters, next record or end of input; the line terminator
    is "\n" or "\r\n" (section 6 of the specification). A file in this
    format is the rendering of a list of records. *)

Module Format.

Inductive terminator : Type := LineFeed | CrLf.

Definition eol_bytes (t : terminator) : list byte :=
  match t with
  | LineFeed => [LF]
  | CrLf => [CR; LF]
  end.

(** What precedes the line feed in a terminator. *)
Definition eol_pre (t : terminator) : list byte :=
  match t with LineFeed => [] | CrLf => [CR] end.

Record record : Type := mkRecord {
  rname : list byte;          (* the identifier *)
  rdesc : list byte;          (* the rest of the header line *)
  rlines : list (list byte)   (* the wrapped lines of the sequence *)
}.

(** The de-wrapped sequence of a record. *)
Definition rseq (r : record) : list byte := concat (rlines r).

Definition render_header (t : terminator) (r : record) : list byte :=
  GT :: rname r ++ rdesc r ++ eol_bytes t.

Definition render_lines (t : terminator) (ls : list (list byte))
  : list byte :=
  concat (map (fun l => l ++ eol_bytes t) ls).

Definition render_record (t : terminator) (r : record) : list byte :=
  render_header t r ++ render_lines t (rlines r).

Definition render (t : terminator) (rs : list record) : list byte :=
  concat (map (render_record t) rs).

(** Characters of a description: printable characters and tabs. *)
Definition textual (b : byte) : bool :=
  Byte.eqb b TAB || ((32 <=? b2z b) && (b2z b <=? 126)).

Definition desc_ok (desc : list byte) : bool :=
  match desc with
  | [] => true
  | b :: _ => (Byte.eqb b SPACE || Byte.eqb b TAB) && forallb textual desc
  end.

(** A header the reader takes in whole: a non-empty name of visible
    characters, and a line that fits the 1024-byte buffer. *)
Definition header_ok (t : terminator) (r : record) : bool :=
  negb (is_nil (rname r)) && forallb graphic (rname r)
  && desc_ok (rdesc r)
  && (length (render_header t r) <=? 1023)%nat.

(** A sequence character: visible, and not the record-start marker. *)
Definition seqchar (b : byte) : bool := graphic b && negb (Byte.eqb b GT).

(** A sequence line, of any length. *)
Definition line_ok (l : list byte) : bool := forallb seqchar l.

Definition record_ok (t : terminator) (r : record) : bool :=
  header_ok t r && forallb line_ok (rlines r).

(** A well-formed data file: at least one record, every record well
    formed, the first with at least one sequence line, and less than
    2 GiB in all. *)
Definition well_formed (t : terminator) (rs : list record) : bool :=
  forallb (record_ok t) rs
  && match rs with
     | r :: _ => negb (is_nil (rlines r))
     | [] => false
     end
  && (Z.of_nat (length (render t rs)) <=? INT_MAX).

(** The first sequence line of the file. *)
Definition first_line (rs : list record) : list byte :=
  match rs with
  | r :: _ => hd [] (rlines r)
  | [] => []
  end.

(** Lines wrapped at width [w]: all of [w] characters but the last,
    which has from 1 to [w]. *)
Fixpoint wrapped (w : nat) (ls : list (list byte)) : bool :=
  match ls with
  | [] => true
  | [l] => (1 <=? length l)%nat && (length l <=? w)%nat
  | l :: ls' => (length l =? w)%nat && wrapped w ls'
  end.

(** Every record is wrapped at the width of the first sequence line of
    the file. *)
Definition uniform (rs : list record) : bool :=
  forallb (fun r => wrapped (length (first_line rs)) (rlines r)) rs.

(** The index table of a rendered file, from the format: one entry per
    record in file order, the offset of each being the position right
    after its header line; [off] is the position of the first record. *)
Fixpoint index_of (t : terminator) (lineLength byteLength : Z) (off : nat)
    (rs : list record) : list FastaIndexData :=
  match rs with
  | [] => []
  | r :: rs' =>
      let o := (off + length (render_header t r))%nat in
      mkData (rname r) (Z.of_nat (length (rseq r))) (Z.of_nat o)
             lineLength byteLength
      :: index_of t lineLength byteLength
           (o + length (render_lines t (rlines r)))%nat rs'
  end.

(** The line geometry of a rendered file: the visible and the raw
    length of its first sequence line. *)
Definition line_length (rs : list record) : Z :=
  Z.of_nat (length (first_line rs)).

Definition byte_length (t : terminator) (rs : list record) : Z :=
  Z.of_nat (length (first_line rs) + length (eol_bytes t)).

Definition index_table (t : terminator) (rs : list record)
  : list FastaIndexData :=
  index_of t (line_length rs) (byte_length t rs) 0 rs.

(** What may follow the lines of a record: the end of the file, or the
    header of the next record. *)
Definition body_end (tail : list byte) : Prop :=
  tail = [] \/ exists tl, tail = GT :: tl.

(** A session on the rendered file that holds the table built from it
    and is marked indexed. *)
Definition indexed_on (t : terminator) (rs : list record)
    (d : FastaPrivate) : Prop :=
  IsOpen d = true /\ HasIndex d = true /\
  content (Stream d) = render t rs /\ Index d = index_table t rs.


(** The loop of [GetNextSequence] from the stream [f] with [acc] already
    read, given the iterations [GetNextSequence] gives it. *)
Definition sequence_from (f : FILE) (acc : list byte) (count : Z)
  : bool * list byte * FILE :=
  GetNextSequence_loop (S (length (remaining f))) f acc count.

(** A session on the data file [data], opened without an index. *)
Definition session (data : list byte) : FastaPrivate :=
  mkFasta (mkFILE data 0 false) true IdxInvalid false false [].

End Format.
Import Format.

(** ** Sample files *)

Module Samples.

Definition nl : string := String (ascii_of_nat 10) EmptyString.

Definition bytes (s : string) : list byte := list_byte_of_string s.

Definition one_file (path : string) (data : list byte) : filesystem :=
  mkFS (fun p => if String.eqb p path then Some data else None)
       (fun _ => true).

(** The same, where no file can be created or written. *)
Definition read_only (path : string) (data : list byte) : filesystem :=
  mkFS (fun p => if String.eqb p path then Some data else None)
       (fun _ => false).

(** A session right after [Open] of a data file alone. *)
Definition opened (data : list byte) : FastaPrivate :=
  snd (Open "ref.fa" "" (one_file "ref.fa" data) FastaPrivate_ctor).

(** Two records: seq1, 60 characters wrapped at 10, and seq2, 5
    characters. *)
Definition two_records : list byte :=
  bytes (">seq1 first" ++ nl ++
         "ACGTACGTAC" ++ nl ++ "GTACGTACGT" ++ nl ++ "TTTTTCCCCC" ++ nl ++
         "GGGGGAAAAA" ++ nl ++ "ACACACACAC" ++ nl ++ "GTGTGTGTGT" ++ nl ++
         ">seq2" ++ nl ++ "ACGTN" ++ nl).

(** The same file as a list of records of the format. *)
Definition seq1 : Format.record :=
  Format.mkRecord (bytes "seq1") (bytes " first")
    (map bytes ["ACGTACGTAC"; "GTACGTACGT"; "TTTTTCCCCC";
                "GGGGGAAAAA"; "ACACACACAC"; "GTGTGTGTGT"]%string).

Definition seq2 : Format.record :=
  Format.mkRecord (bytes "seq2") [] [bytes "ACGTN"].

Definition two_records_format : list Format.record := [seq1; seq2].

(** The two-record file without the line feed that ends it. *)
Definition two_records_open : list byte := removelast two_records.

(** A record with a sequence, then a record with none. *)
Definition bare_last_format : list Format.record :=
  [Format.mkRecord (bytes "a") [] [bytes "AC"];
   Format.mkRecord (bytes "b") [] []].

Definition bare_last : list byte := Format.render Format.LineFeed bare_last_format.

(** Two records wrapped at different widths: "AC" and "GTA". *)
Definition uneven : list byte :=
  bytes (">a" ++ nl ++ "AC" ++ nl ++ ">b" ++ nl ++ "GTA" ++ nl).

Definition indexed_uneven : FastaPrivate :=
  snd (CreateIndex "ref.fai" (one_file "ref.fa" uneven) (opened uneven)).


(** One record, "AC". *)
Definition short : list byte := bytes (">a" ++ nl ++ "AC" ++ nl).

Definition cr : string := String (ascii_of_nat 13) EmptyString.

(** One record of six characters wrapped at four, with "\r\n"
    terminators. *)
Definition crlf : list byte :=
  bytes (">s" ++ cr ++ nl ++ "ACGT" ++ cr ++ nl ++ "AC" ++ cr ++ nl).

Definition crlf_format : list Format.record :=
  [Format.mkRecord (bytes "s") [] [bytes "ACGT"; bytes "AC"]].

(** A file without the record-start marker. *)
Definition no_marker : list byte := bytes ("ACGT" ++ nl).


Definition short_format : list Format.record :=
  [Format.mkRecord (bytes "a") [] [bytes "AC"]].

Definition indexed_two : FastaPrivate :=
  snd (CreateIndex "ref.fai" (one_file "ref.fa" two_records)
                   (opened two_records)).

(** One record with "\r\n" terminators whose lines are longer than the
    buffer of the reader: 1501 characters, then 1022 (with its carriage
    return the second line fills the buffer exactly). *)
Definition unwrapped_format : list Format.record :=
  [Format.mkRecord (bytes "s") []
     [repeat "A"%byte 1500 ++ bytes "C"; repeat "G"%byte 1021 ++ bytes "T"]].

Definition unwrapped : list byte := Format.render Format.CrLf unwrapped_format.

Definition indexed_unwrapped : FastaPrivate :=
  snd (CreateIndex "ref.fai" (one_file "ref.fa" unwrapped)
                   (opened unwrapped)).

(** A file system holding one more data file, "other.fa". *)
Definition with_other (data other : list byte) : filesystem :=
  mkFS (fun p => if String.eqb p "ref.fa" then Some data
                 else if String.eqb p "other.fa" then Some other
                 else None)
       (fun _ => true).

Definition tab : string := String (ascii_of_nat 9) EmptyString.

(** An index file whose only entry has line length 0. *)
Definition zero_width_index : list byte :=
  bytes ("seq2" ++ tab ++ "5" ++ tab ++ "84" ++ tab ++ "0" ++ tab ++ "11"
         ++ nl).

(** The entry of seq2 in the two-record file, and an index file with its
    line, an empty line, and more text. *)
Definition entry_seq2 : FastaIndexData := mkData (bytes "seq2") 5 84 10 11.

Definition index_with_blank_line : list byte :=
  index_line entry_seq2 ++ bytes (nl ++ "seq9" ++ tab ++ "7" ++ nl).

Definition two_files (data index : list byte) : filesystem :=
  mkFS (fun p => if String.eqb p "ref.fa" then Some data
                 else if String.eqb p "ref.fai" then Some index
                 else None)
       (fun _ => true).

(** A session right after [Open] of a data file and an index file. *)
Definition opened_with (data index : list byte) : FastaPrivate :=
  snd (Open "ref.fa" "ref.fai" (two_files data index) FastaPrivate_ctor).

End Samples.

(** * Properties *)

(** ** Integer conversions and containers *)

Lemma to_int32_small (z : Z) : INT_MIN <= z <= INT_MAX -> to_int32 z = z.
Proof.
  unfold to_int32, INT_MIN, INT_MAX. intros H.
  rewrite Z.mod_small; lia.
Qed.

Lemma to_size_t_small (z : Z) : 0 <= z <= SIZE_MAX -> to_size_t z = z.
Proof.
  unfold to_size_t, SIZE_MAX. intros H. apply Z.mod_small. lia.
Qed.

Lemma to_size_t_negative (z : Z) :
  INT_MIN <= z < 0 -> to_size_t z = z + 2 ^ 64.
Proof.
  unfold to_size_t, INT_MIN. intros H.
  symmetry. apply Z.mod_unique with (q := -1); lia.
Qed.

Lemma in_int32_spec (z : Z) : in_int32 z = true <-> INT_MIN <= z <= INT_MAX.
Proof. unfold in_int32. rewrite andb_true_iff, !Z.leb_le. tauto. Qed.

Lemma in_int64_spec (z : Z) :
  in_int64 z = true <-> INT64_MIN <= z <= INT64_MAX.
Proof. unfold in_int64. rewrite andb_true_iff, !Z.leb_le. tauto. Qed.

Lemma at_in_range {A} (v : list A) (i : Z) (x : A) :
  0 <= i <= SIZE_MAX -> nth_error v (Z.to_nat i) = Some x -> at_ v i = Some x.
Proof. intros H E. unfold at_. rewrite to_size_t_small; assumption. Qed.

Lemma at_out_of_range {A} (v : list A) (i : Z) :
  Z.of_nat (length v) <= INT_MAX ->
  INT_MIN <= i <= INT_MAX ->
  i < 0 \/ Z.of_nat (length v) <= i ->
  at_ v i = None.
Proof.
  intros Hv Hi Hout. unfold at_. apply nth_error_None.
  destruct (Z.ltb_spec i 0) as [Hneg | Hpos].
  - rewrite to_size_t_negative by lia. unfold INT_MAX, INT_MIN in *. lia.
  - rewrite to_size_t_small by (unfold SIZE_MAX, INT_MAX in *; lia). lia.
Qed.

Lemma entry_at_bound d refId e :
  entry_at d refId e -> 0 <= refId < Z.of_nat (length (Index d)).
Proof.
  intros [H0 H]. split; [assumption|].
  assert (Hlt : (Z.to_nat refId < length (Index d))%nat).
  { apply nth_error_Some. congruence. }
  lia.
Qed.

Lemma GetBase_indexed d refId position e :
  indexed d -> entry_at d refId e ->
  GetBase refId position d = GetBase_at e position d.
Proof.
  intros (Hopen & Hidx & Hlen) He.
  pose proof (entry_at_bound _ _ _ He) as Hb. destruct He as [H0 He].
  unfold GetBase, GetBase_at. rewrite Hopen, Hidx. simpl.
  destruct (Index d) as [|e0 ix] eqn:Eix.
  { simpl in Hb. lia. }
  cbn [is_nil negb].
  rewrite to_int32_small by (unfold INT_MIN; unfold INT_MAX in *; lia).
  replace (refId <? 0) with false by (symmetry; apply Z.ltb_ge; lia).
  replace (Z.of_nat (length (e0 :: ix)) <=? refId) with false
    by (symmetry; apply Z.leb_gt; lia).
  cbn [orb].
  rewrite (at_in_range _ _ e) by
    (try assumption; unfold SIZE_MAX; unfold INT_MAX in *; lia).
  destruct ((position <? 0) || (Length e <? position)); [reflexivity|].
  destruct (LineLength e =? 0); [reflexivity|].
  cbv zeta.
  destruct (negb _); [reflexivity|].
  destruct (fseek64 _ _); [|reflexivity].
  destruct (getc f); reflexivity.
Qed.

(** ** GetLength *)

Lemma GetLength_with_table d refId :
  IsOpen d = true -> HasIndex d = true \/ Index d <> [] ->
  GetLength refId d =
  (match at_ (Index d) refId with
   | Some data => Success (Length data)
   | None => ThrowsOutOfRange
   end, d).
Proof.
  intros Hopen Hix. unfold GetLength. rewrite Hopen. cbn [negb].
  assert (E : negb (HasIndex d) && is_nil (Index d) = false).
  { destruct Hix as [H | H].
    - rewrite H. reflexivity.
    - destruct (Index d); [congruence|]. apply andb_false_r. }
  rewrite E. destruct (at_ (Index d) refId); reflexivity.
Qed.

(** C2. With an index table in place, [GetLength] returns [entry.length]
    for a record id inside the table; for a record id outside
    [0, table.size ()) the unchecked [Index.at (refId)] throws
    [std::out_of_range] and no [false] result is returned, whereas the
    record-id validation of [GetBase] and [GetSequence] returns [false] for
    the same record id. *)
Theorem GetLength_out_of_range_throws (d : FastaPrivate) (refId : Z) :
  indexed d ->
  INT_MIN <= refId <= INT_MAX ->
  (forall e, entry_at d refId e ->
     GetLength refId d = (Success (Length e), d)) /\
  (refId < 0 \/ Z.of_nat (length (Index d)) <= refId ->
     GetLength refId d = (ThrowsOutOfRange, d) /\
     (Index d <> [] ->
      forall position start stop,
        GetBase refId position d = (Failure InvalidRefId, d) /\
        GetSequence refId start stop d = (Failure InvalidRefId, d))).
Proof.
  intros (Hopen & Hidx & Hlen) Hr. split.
  - intros e He. pose proof (entry_at_bound _ _ _ He) as Hb.
    destruct He as [H0 He].
    rewrite GetLength_with_table by auto.
    rewrite (at_in_range _ _ e); try assumption; try reflexivity.
    unfold SIZE_MAX; unfold INT_MAX in *; lia.
  - intros Hout. split.
    + rewrite GetLength_with_table by auto.
      rewrite at_out_of_range by assumption. reflexivity.
    + intros Hne position start stop.
      unfold GetBase, GetSequence. rewrite Hopen, Hidx. cbn [negb andb].
      destruct (Index d) as [|e0 ix] eqn:Eix; [congruence|].
      cbn [is_nil negb].
      rewrite to_int32_small by (unfold INT_MIN; unfold INT_MAX in *; lia).
      assert (E : (refId <? 0) || (Z.of_nat (length (e0 :: ix)) <=? refId)
                  = true).
      { apply orb_true_iff. rewrite Z.ltb_lt, Z.leb_le. exact Hout. }
      rewrite E. split; reflexivity.
Qed.

Lemma GetLength_out_of_range_throws_witness :
  GetLength 2 Samples.indexed_two
  = (ThrowsOutOfRange, Samples.indexed_two).
Proof.
  refine (proj1 (proj2 (GetLength_out_of_range_throws
                          Samples.indexed_two 2 _ _) _)).
  - unfold indexed. repeat split; vm_compute; congruence.
  - vm_compute. split; congruence.
  - right. vm_compute. congruence.
Defined.

(** Without a table the call returns [false]. *)
Lemma GetLength_no_index d refId :
  IsOpen d = true -> HasIndex d = false -> Index d = [] ->
  GetLength refId d = (Failure NoIndex, d) /\
  kind_of NoIndex = NotIndexedError.
Proof.
  intros H1 H2 H3. unfold GetLength. rewrite H1, H2, H3. split; reflexivity.
Qed.

(** ** GetBase on the indexed path *)

(** No step of the seek computation overflows for an entry in range. *)
Lemma seek_in_range e position :
  entry_in_range e -> 0 <= position <= Length e -> LineLength e <> 0 ->
  in_int64 (Offset e + Z.quot position (LineLength e) * ByteLength e)
  && in_int64 (Offset e + Z.quot position (LineLength e) * ByteLength e
               + Z.rem position (LineLength e)) = true.
Proof.
  intros (HL & HLL & HBL & HO) Hp Hne.
  unfold INT_MIN, INT_MAX in *.
  pose proof (Z.quot_rem' position (LineLength e)) as Hqr.
  pose proof (Z.rem_nonneg position (LineLength e) Hne ltac:(lia)) as Hr0.
  pose proof (Z.rem_bound_abs position (LineLength e) Hne) as Hrb.
  rewrite (Z.abs_eq (Z.rem _ _)) in Hrb by assumption.
  set (q := Z.quot position (LineLength e)) in *.
  set (r := Z.rem position (LineLength e)) in *.
  assert (Hq : - position <= q <= position /\ r <= position).
  { destruct (Z_lt_le_dec (LineLength e) 0).
    - rewrite Z.abs_neq in Hrb by lia.
      assert (q <= 0) by nia. nia.
    - rewrite Z.abs_eq in Hrb by lia.
      assert (0 <= q) by nia. nia. }
  apply andb_true_iff. rewrite !in_int64_spec.
  unfold INT64_MIN, INT64_MAX. nia.
Qed.

Lemma quot_rem_nonneg (a b : Z) :
  0 <= a -> 0 < b -> Z.quot a b = a / b /\ Z.rem a b = a mod b.
Proof.
  intros Ha Hb. split.
  - apply Z.quot_div_nonneg; lia.
  - apply Z.rem_mod_nonneg; lia.
Qed.

Lemma char_of_int_b2z (b : byte) : char_of_int (b2z b) = b.
Proof. destruct b; reflexivity. Qed.

Lemma getc_at (bytes : list byte) (n : nat) (eof : bool) (b : byte) :
  nth_error bytes n = Some b ->
  getc (mkFILE bytes n eof) = (b2z b, mkFILE bytes (S n) eof).
Proof. intros H. unfold getc, fgetc. simpl. rewrite H. reflexivity. Qed.

(** C6. On an indexed session and for a valid record id, [GetBase] rejects
    exactly the positions below 0 and above [entry.length], with the
    out-of-range diagnostic; no position from 0 to [entry.length], the
    boundary [position = entry.length] included, is rejected as out of
    range, and for an entry with a positive line length (and non-negative
    offset and byte length) every such position is served. *)
Theorem GetBase_indexed_accepts (d : FastaPrivate) (refId position : Z)
    (e : FastaIndexData) :
  indexed d -> entry_at d refId e ->
  (position < 0 \/ Length e < position ->
     GetBase refId position d = (Failure InvalidPosition, d)) /\
  kind_of InvalidPosition = OutOfRangeError /\
  (0 <= position <= Length e ->
     forall err, fst (GetBase refId position d) = Failure err ->
                 kind_of err <> OutOfRangeError) /\
  (0 <= position <= Length e ->
     entry_in_range e ->
     0 < LineLength e -> 0 <= ByteLength e -> 0 <= Offset e ->
     exists base d', GetBase refId position d = (Success base, d')).
Proof.
  intros Hd He.
  rewrite (GetBase_indexed _ _ _ _ Hd He). unfold GetBase_at.
  repeat split.
  - intros Hp.
    replace ((position <? 0) || (Length e <? position)) with true;
      [reflexivity|].
    symmetry. apply orb_true_iff. rewrite !Z.ltb_lt. exact Hp.
  - intros Hp err.
    replace ((position <? 0) || (Length e <? position)) with false
      by (symmetry; apply orb_false_iff; rewrite Z.ltb_ge, Z.ltb_ge; lia).
    destruct (LineLength e =? 0); [discriminate|]. cbv zeta.
    destruct (negb _); [discriminate|].
    destruct (fseek64 _ _); [discriminate|].
    cbn [fst]. intros H. injection H as <-. discriminate.
  - intros Hp Hr HLL HBL HO.
    replace ((position <? 0) || (Length e <? position)) with false
      by (symmetry; apply orb_false_iff; rewrite Z.ltb_ge, Z.ltb_ge; lia).
    replace (LineLength e =? 0) with false
      by (symmetry; apply Z.eqb_neq; lia).
    cbv zeta. rewrite seek_in_range by (try assumption; lia). cbn [negb].
    destruct (quot_rem_nonneg position (LineLength e)) as [Eq Er];
      [lia | lia |].
    rewrite Eq, Er.
    pose proof (Z.div_pos position (LineLength e) ltac:(lia) HLL).
    pose proof (Z.mod_pos_bound position (LineLength e) HLL).
    unfold fseek64.
    replace (_ <? 0) with false by (symmetry; apply Z.ltb_ge; nia).
    eauto.
Qed.

Lemma GetBase_indexed_accepts_witness :
  exists base d',
    GetBase 1 5 Samples.indexed_two = (Success base, d').
Proof.
  refine (proj2 (proj2 (proj2
            (GetBase_indexed_accepts Samples.indexed_two 1 5
               (mkData (Samples.bytes "seq2") 5 84 10 11) _ _))) _ _ _ _ _).
  - unfold indexed. repeat split; vm_compute; congruence.
  - unfold entry_at. split; [lia | reflexivity].
  - simpl. lia.
  - unfold entry_in_range. repeat split; vm_compute; congruence.
  - reflexivity.
  - vm_compute; congruence.
  - vm_compute; congruence.
Defined.

(** C7. On an indexed session, for a valid record id whose entry has a
    positive line length and for an accepted position, [GetBase] seeks to
    [offset + (position / line_length) * byte_length
            + (position % line_length)];
    it returns [false] (seek failure) when the seek fails, and otherwise
    its result is the one byte read there by [getc]. *)
Theorem GetBase_indexed_seek (d : FastaPrivate) (refId position : Z)
    (e : FastaIndexData) :
  indexed d -> entry_at d refId e -> entry_in_range e ->
  0 < LineLength e -> 0 <= position <= Length e ->
  (seek_target e position < 0 ->
     fseek64 (Stream d) (seek_target e position) = None /\
     GetBase refId position d = (Failure CouldNotSeek, d) /\
     kind_of CouldNotSeek = IoError) /\
  (0 <= seek_target e position ->
     let f := mkFILE (content (Stream d))
                     (Z.to_nat (seek_target e position)) false in
     fseek64 (Stream d) (seek_target e position) = Some f /\
     GetBase refId position d
     = (Success (char_of_int (fst (getc f))), set_Stream d (snd (getc f))) /\
     forall b,
       nth_error (content (Stream d)) (Z.to_nat (seek_target e position))
       = Some b ->
       GetBase refId position d
       = (Success b,
          set_Stream d (mkFILE (content (Stream d))
                               (S (Z.to_nat (seek_target e position)))
                               false))).
Proof.
  intros Hd He Hr HLL Hp.
  assert (E : GetBase refId position d =
              match fseek64 (Stream d) (seek_target e position) with
              | None => (Failure CouldNotSeek, d)
              | Some f => (Success (char_of_int (fst (getc f))),
                           set_Stream d (snd (getc f)))
              end).
  { rewrite (GetBase_indexed _ _ _ _ Hd He). unfold GetBase_at.
    replace ((position <? 0) || (Length e <? position)) with false
      by (symmetry; apply orb_false_iff; rewrite Z.ltb_ge, Z.ltb_ge; lia).
    replace (LineLength e =? 0) with false
      by (symmetry; apply Z.eqb_neq; lia).
    cbv zeta. rewrite seek_in_range by (try assumption; lia). cbn [negb].
    destruct (quot_rem_nonneg position (LineLength e)) as [Eq Er];
      [lia | lia |].
    rewrite Eq, Er. reflexivity. }
  split.
  - intros Hneg.
    assert (Es : fseek64 (Stream d) (seek_target e position) = None).
    { unfold fseek64. apply Z.ltb_lt in Hneg. rewrite Hneg. reflexivity. }
    rewrite E, Es. repeat split.
  - intros Hpos f.
    assert (Es : fseek64 (Stream d) (seek_target e position) = Some f).
    { unfold fseek64. apply Z.ltb_ge in Hpos. rewrite Hpos. reflexivity. }
    rewrite E, Es. repeat split.
    intros b Hb. unfold f. rewrite (getc_at _ _ _ _ Hb). simpl.
    rewrite char_of_int_b2z. reflexivity.
Qed.

Lemma GetBase_indexed_seek_witness :
  GetBase 0 15 Samples.indexed_two
  = (Success "T"%byte,
     set_Stream Samples.indexed_two
       (mkFILE (content (Stream Samples.indexed_two)) 29 false)).
Proof.
  refine (proj2 (proj2 (proj2
            (GetBase_indexed_seek Samples.indexed_two 0 15
               (mkData (Samples.bytes "seq1") 60 12 10 11) _ _ _ _ _) _))
            "T"%byte _).
  - unfold indexed. repeat split; vm_compute; congruence.
  - unfold entry_at. split; [lia | reflexivity].
  - unfold entry_in_range. repeat split; vm_compute; congruence.
  - reflexivity.
  - simpl. lia.
  - vm_compute. congruence.
  - reflexivity.
Defined.

(** C10. On an indexed session, for a valid record id and an accepted
    position, [GetBase] divides by [entry.LineLength] unchecked: the call
    is undefined (integer division by zero) exactly when that field is 0,
    whatever the other fields in range are. An entry loaded from an index
    file can have it 0, see [loaded_zero_line_length]. *)
Theorem GetBase_zero_line_length_undefined (d : FastaPrivate)
    (refId position : Z) (e : FastaIndexData) :
  indexed d -> entry_at d refId e -> entry_in_range e ->
  0 <= position <= Length e ->
  (fst (GetBase refId position d) = Undefined <-> LineLength e = 0).
Proof.
  intros Hd He Hr Hp.
  rewrite (GetBase_indexed _ _ _ _ Hd He). unfold GetBase_at.
  replace ((position <? 0) || (Length e <? position)) with false
    by (symmetry; apply orb_false_iff; rewrite Z.ltb_ge, Z.ltb_ge; lia).
  destruct (Z.eqb_spec (LineLength e) 0) as [E0 | Hne].
  - simpl. tauto.
  - cbv zeta. rewrite seek_in_range by assumption. cbn [negb].
    destruct (fseek64 _ _); simpl; split; intros; congruence.
Qed.

(** [LoadIndexData] stores the numeric fields as parsed: opening the
    sample data file with an index file whose line carries 0 as line
    length succeeds and gives an entry with [LineLength = 0]. *)
Lemma loaded_zero_line_length :
  Open "ref.fa" "ref.fai"
       (Samples.two_files Samples.two_records Samples.zero_width_index)
       FastaPrivate_ctor
  = (Success tt,
     Samples.opened_with Samples.two_records Samples.zero_width_index) /\
  Index (Samples.opened_with Samples.two_records Samples.zero_width_index)
  = [mkData (Samples.bytes "seq2") 5 84 0 11].
Proof. split; reflexivity. Qed.

Lemma GetBase_zero_line_length_undefined_witness :
  fst (GetBase 0 3
         (Samples.opened_with Samples.two_records Samples.zero_width_index))
  = Undefined.
Proof.
  refine (proj2 (GetBase_zero_line_length_undefined
                   (Samples.opened_with Samples.two_records
                                        Samples.zero_width_index)
                   0 3 (mkData (Samples.bytes "seq2") 5 84 0 11)
                   _ _ _ _) _).
  - unfold indexed. repeat split; vm_compute; congruence.
  - unfold entry_at. split; [lia | reflexivity].
  - unfold entry_in_range. repeat split; vm_compute; congruence.
  - simpl. lia.
  - reflexivity.
Defined.

(** ** Streams *)

Lemma remaining_cons_nth (f : FILE) (b : byte) (rest : list byte) :
  remaining f = b :: rest -> nth_error (content f) (fpos f) = Some b.
Proof.
  unfold remaining. intros H.
  rewrite <- (firstn_skipn (fpos f) (content f)) at 1.
  assert (Hlen : (fpos f < length (content f))%nat).
  { destruct (Nat.lt_ge_cases (fpos f) (length (content f))) as [Hl | Hl];
      [assumption|].
    rewrite skipn_all2 in H by assumption. discriminate. }
  rewrite nth_error_app2; rewrite length_firstn, Nat.min_l by lia; [|lia].
  rewrite Nat.sub_diag, H. reflexivity.
Qed.

Lemma remaining_nil_nth (f : FILE) :
  remaining f = [] -> nth_error (content f) (fpos f) = None.
Proof.
  unfold remaining. intros H. apply nth_error_None.
  destruct (Nat.lt_ge_cases (fpos f) (length (content f))) as [Hl | Hl];
    [|assumption].
  apply (f_equal (@length byte)) in H. rewrite length_skipn in H.
  simpl in H. lia.
Qed.

Lemma remaining_advance (bytes : list byte) (p : nat) (e e' : bool)
    (x rest : list byte) :
  remaining (mkFILE bytes p e) = x ++ rest ->
  remaining (mkFILE bytes (p + length x) e') = rest.
Proof.
  unfold remaining. simpl. intros H.
  rewrite Nat.add_comm, <- skipn_skipn, H.
  rewrite skipn_app, skipn_all, Nat.sub_diag. reflexivity.
Qed.

Lemma remaining_length (f : FILE) :
  (length (remaining f) <= length (content f))%nat.
Proof. unfold remaining. rewrite length_skipn. lia. Qed.

Lemma fgetc_cons (f : FILE) (b : byte) (rest : list byte) :
  remaining f = b :: rest ->
  fgetc f = (b2z b, mkFILE (content f) (S (fpos f)) (eofflag f)).
Proof.
  intros H. unfold fgetc. rewrite (remaining_cons_nth _ _ _ H). reflexivity.
Qed.

Lemma fgetc_nil (f : FILE) :
  remaining f = [] -> fgetc f = (EOF, mkFILE (content f) (fpos f) true).
Proof.
  intros H. unfold fgetc. rewrite (remaining_nil_nth _ H). reflexivity.
Qed.

Lemma schar_not_EOF (b : byte) : b <> xff -> (schar b =? EOF) = false.
Proof. destruct b; intros H; try reflexivity. congruence. Qed.

Lemma char_of_int_schar (b : byte) : char_of_int (schar b) = b.
Proof. destruct b; reflexivity. Qed.

Lemma skipn_S_of_cons {A} (p : nat) (l : list A) (b : A) (rest : list A) :
  skipn p l = b :: rest -> skipn (S p) l = rest.
Proof.
  intros H. change (S p) with (1 + p)%nat.
  rewrite <- skipn_skipn, H. reflexivity.
Qed.

(** Reading a byte other than 0xff and putting it back leaves the stream
    where it was, with the end-of-file indicator cleared. *)
Lemma peek_cons (f : FILE) (b : byte) (rest : list byte) :
  remaining f = b :: rest -> b <> xff ->
  fgetc f = (b2z b, mkFILE (content f) (S (fpos f)) (eofflag f)) /\
  ungetc (schar (char_of_int (b2z b)))
         (mkFILE (content f) (S (fpos f)) (eofflag f))
  = mkFILE (content f) (fpos f) false.
Proof.
  intros H Hb. split; [apply (fgetc_cons _ _ _ H)|].
  rewrite char_of_int_b2z. unfold ungetc.
  rewrite (schar_not_EOF _ Hb). cbn [fpos content].
  replace (S (fpos f) - 1)%nat with (fpos f) by lia.
  rewrite char_of_int_schar. f_equal.
  unfold remaining in H. rewrite (skipn_S_of_cons _ _ _ _ H), <- H.
  apply firstn_skipn.
Qed.

Lemma peek_nil (f : FILE) :
  remaining f = [] ->
  fgetc f = (EOF, mkFILE (content f) (fpos f) true) /\
  ungetc (schar (char_of_int EOF)) (mkFILE (content f) (fpos f) true)
  = mkFILE (content f) (fpos f) true.
Proof. intros H. split; [apply (fgetc_nil _ H) | reflexivity]. Qed.

Lemma fgets_bytes_line (k : nat) (l rest : list byte) :
  Forall (fun b => b <> LF) l -> (length l < k)%nat ->
  fgets_bytes k (l ++ LF :: rest) = (l ++ [LF], false).
Proof.
  revert k. induction l as [|b l IH]; intros k Hl Hk.
  - destruct k; [simpl in Hk; lia|]. reflexivity.
  - destruct k; [simpl in Hk; lia|]. simpl.
    inversion Hl as [|? ? Hb Hl']; subst.
    destruct (Byte.eqb b LF) eqn:E.
    + apply Byte.byte_dec_bl in E. congruence.
    + rewrite IH by (try assumption; simpl in Hk; lia). reflexivity.
Qed.

(** [fgets] on a stream whose next line fits the buffer reads the line
    with its line feed. *)
Lemma fgets_line (f : FILE) (l rest : list byte) :
  remaining f = l ++ LF :: rest ->
  Forall (fun b => b <> LF) l -> (length l + 1 <= 1023)%nat ->
  fgets 1024 f
  = (Some (l ++ [LF]),
     mkFILE (content f) (fpos f + length (l ++ [LF])) (eofflag f)).
Proof.
  intros H Hl Hk. unfold fgets. rewrite H.
  rewrite fgets_bytes_line by (try assumption; lia).
  rewrite orb_false_r.
  destruct (l ++ [LF]) eqn:E; [|reflexivity].
  destruct l; discriminate.
Qed.

Lemma cstr_no_NUL (l : list byte) :
  Forall (fun b => b <> NUL) l -> cstr l = l.
Proof.
  induction 1 as [|b l Hb Hl IH]; [reflexivity|].
  simpl. destruct (Byte.eqb b NUL) eqn:E.
  - apply Byte.byte_dec_bl in E. congruence.
  - rewrite IH. reflexivity.
Qed.

(** Facts that hold on any stream. *)

Lemma remaining_len (f : FILE) :
  length (remaining f) = (length (content f) - fpos f)%nat.
Proof. unfold remaining. apply length_skipn. Qed.

Lemma fgets_bytes_length (k : nat) :
  forall l, (length (fst (fgets_bytes k l)) <= length l)%nat.
Proof.
  induction k as [|k IH]; intros l; [simpl; lia|].
  destruct l as [|b l]; [simpl; lia|]. cbn [fgets_bytes].
  destruct (Byte.eqb b LF); [simpl; lia|].
  specialize (IH l). destruct (fgets_bytes k l) as [r e]. simpl in *. lia.
Qed.

Lemma fgets_some (n : nat) (f f' : FILE) (line : list byte) :
  fgets n f = (Some line, f') ->
  content f' = content f /\ fpos f' = (fpos f + length line)%nat /\
  (1 <= length line <= length (remaining f))%nat.
Proof.
  unfold fgets. pose proof (fgets_bytes_length (n - 1) (remaining f)) as Hl.
  destruct (fgets_bytes (n - 1) (remaining f)) as [l hit]. cbn [fst] in Hl.
  destruct l as [|b l]; [discriminate|].
  intros H. injection H as <- <-. cbn [content fpos]. simpl in *.
  repeat split; lia.
Qed.

Lemma fgets_none (n : nat) (f f' : FILE) :
  fgets n f = (None, f') ->
  content f' = content f /\ fpos f' = fpos f.
Proof.
  unfold fgets. destruct (fgets_bytes (n - 1) (remaining f)) as [l hit].
  destruct l as [|b l]; [|discriminate].
  intros H. injection H as <-. split; reflexivity.
Qed.

(** [fgetc] followed by [ungetc] of the character read never moves the
    stream back and leaves the bytes of the file alone. *)
Lemma peek_general (f : FILE) :
  let f2 := ungetc (schar (char_of_int (fst (fgetc f)))) (snd (fgetc f)) in
  content f2 = content f /\ (fpos f <= fpos f2)%nat /\
  (fpos f2 <= Nat.max (fpos f) (length (content f)))%nat.
Proof.
  unfold fgetc. destruct (nth_error (content f) (fpos f)) as [b|] eqn:E.
  - assert (Hlen : (fpos f < length (content f))%nat)
      by (apply nth_error_Some; congruence).
    cbn [fst snd]. rewrite char_of_int_b2z. unfold ungetc.
    destruct (schar b =? EOF) eqn:Es; cbn [content fpos].
    + split; [reflexivity | lia].
    + replace (S (fpos f) - 1)%nat with (fpos f) by lia.
      rewrite char_of_int_schar. split; [|lia].
      assert (Hs : skipn (fpos f) (content f)
                   = b :: skipn (S (fpos f)) (content f)).
      { rewrite <- (firstn_skipn (fpos f) (content f)) in E.
        assert (Hlt : (fpos f < length (content f))%nat)
          by (apply nth_error_Some; rewrite firstn_skipn in E; congruence).
        rewrite nth_error_app2 in E
          by (rewrite length_firstn; lia).
        rewrite length_firstn, Nat.min_l, Nat.sub_diag in E by lia.
        destruct (skipn (fpos f) (content f)) as [|b' tl] eqn:Etl;
          [discriminate|].
        injection E as ->. f_equal.
        symmetry. apply (skipn_S_of_cons _ _ _ _ Etl). }
      rewrite <- Hs. apply firstn_skipn.
  - cbn [fst snd]. change (schar (char_of_int EOF)) with EOF.
    unfold ungetc. rewrite Z.eqb_refl. cbn [content fpos].
    repeat split; lia.
Qed.

Lemma peek_remaining (f : FILE) :
  (length (remaining
             (ungetc (schar (char_of_int (fst (fgetc f)))) (snd (fgetc f))))
   <= length (remaining f))%nat.
Proof.
  pose proof (peek_general f) as Hp. cbv zeta in Hp.
  destruct Hp as (Hc & Hp & _).
  rewrite !remaining_len, Hc. lia.
Qed.

Lemma fgets_some_remaining (n : nat) (f f' : FILE) (line : list byte) :
  fgets n f = (Some line, f') ->
  (length (remaining f') < length (remaining f))%nat.
Proof.
  intros H. destruct (fgets_some _ _ _ _ H) as (Hc & Hp & Hl).
  rewrite (remaining_len f) in *. rewrite (remaining_len f'), Hc, Hp. lia.
Qed.

(** The result of the loop of [GetNextSequence] is the same for every
    number of iterations above the number of bytes left: the loop ends
    by itself. *)
Lemma GetNextSequence_loop_fuel (fuel1 : nat) :
  forall (fuel2 : nat) (f : FILE) (acc : list byte) (count : Z),
    (length (remaining f) < fuel1)%nat ->
    (length (remaining f) < fuel2)%nat ->
    GetNextSequence_loop fuel1 f acc count
    = GetNextSequence_loop fuel2 f acc count.
Proof.
  induction fuel1 as [|fuel1 IH]; intros fuel2 f acc count H1 H2; [lia|].
  destruct fuel2 as [|fuel2]; [lia|].
  cbn [GetNextSequence_loop].
  destruct (Z.of_nat (length acc) <? count); [|reflexivity].
  pose proof (peek_remaining f) as Hp.
  destruct (fgetc f) as [c f1]. cbn [fst snd] in Hp.
  destruct (Byte.eqb (char_of_int c) GT || feof _); [reflexivity|].
  destruct (fgets 1024 _) as [[buffer|] f3] eqn:Eg; [|reflexivity].
  pose proof (fgets_some_remaining _ _ _ _ Eg).
  apply IH; lia.
Qed.

(** ** Character classes *)

Lemma graphic_facts (b : byte) :
  graphic b = true ->
  b <> NUL /\ b <> LF /\ b <> CR /\ b <> xff /\
  is_blank b = false /\ is_newline b = false /\ isspace b = false /\
  0 <= schar b /\ isgraph (schar b) = true.
Proof.
  destruct b; intros H; try discriminate H;
    repeat split; try reflexivity; try (intro; discriminate);
    vm_compute; congruence.
Qed.

Lemma textual_facts (b : byte) :
  Format.textual b = true -> b <> NUL /\ b <> LF.
Proof.
  destruct b; intros H; try discriminate H; split; intro; discriminate.
Qed.

Lemma byte_eqb_refl (b : byte) : Byte.eqb b b = true.
Proof. apply Byte.byte_dec_lb. reflexivity. Qed.

Lemma byte_eqb_neq (a b : byte) : a <> b -> Byte.eqb a b = false.
Proof.
  intros H. destruct (Byte.eqb a b) eqn:E; [|reflexivity].
  apply Byte.byte_dec_bl in E. congruence.
Qed.

Lemma Forall_graphic (l : list byte) :
  forallb graphic l = true -> Forall (fun b => graphic b = true) l.
Proof. intros H. apply Forall_forall. apply forallb_forall. exact H. Qed.

(** ** Line terminators and Chomp *)

Lemma eol_bytes_pre (t : terminator) : eol_bytes t = eol_pre t ++ [LF].
Proof. destruct t; reflexivity. Qed.

Lemma eol_pre_no_LF (t : terminator) :
  Forall (fun b => b <> LF) (eol_pre t).
Proof. destruct t; repeat constructor. discriminate. Qed.

Lemma eol_pre_no_NUL (t : terminator) :
  Forall (fun b => b <> NUL) (eol_bytes t).
Proof. destruct t; repeat constructor; discriminate. Qed.

Lemma eol_length (t : terminator) :
  length (eol_bytes t) = S (length (eol_pre t)).
Proof. destruct t; reflexivity. Qed.

Lemma Chomp_loop_newline (l : list byte) (c : byte) :
  is_newline c = true ->
  Chomp_loop (length (l ++ [c])) (l ++ [c]) = Chomp_loop (length l) l.
Proof.
  intros Hc. rewrite length_app. simpl length. rewrite Nat.add_1_r.
  cbn [Chomp_loop].
  rewrite nth_error_app2, Nat.sub_diag by lia. cbn [nth_error].
  rewrite Hc, firstn_app, firstn_all, Nat.sub_diag. simpl.
  rewrite app_nil_r. reflexivity.
Qed.

Lemma Chomp_loop_stable (l : list byte) :
  Forall (fun b => is_newline b = false) l ->
  Chomp_loop (length l) l = l.
Proof.
  intros H. destruct l as [|b l] using rev_ind; [reflexivity|].
  apply Forall_app in H. destruct H as [_ Hb].
  inversion Hb as [|? ? Hb' _]; subst.
  rewrite length_app. simpl length. rewrite Nat.add_1_r.
  cbn [Chomp_loop].
  rewrite nth_error_app2, Nat.sub_diag by lia. cbn [nth_error].
  rewrite Hb'. reflexivity.
Qed.

(** [Chomp] gives back a line of visible characters without its
    terminator. *)
Lemma Chomp_line (t : terminator) (l : list byte) :
  Forall (fun b => graphic b = true) l ->
  Chomp (l ++ eol_bytes t) = l.
Proof.
  intros Hl. unfold Chomp, strlen.
  assert (Hn : Forall (fun b => is_newline b = false) l).
  { eapply Forall_impl; [|exact Hl]. intros b Hb.
    apply (graphic_facts b Hb). }
  rewrite cstr_no_NUL.
  - destruct t; cbn [eol_bytes].
    + rewrite Chomp_loop_newline by reflexivity.
      apply Chomp_loop_stable. exact Hn.
    + change (l ++ [CR; LF]) with (l ++ [CR] ++ [LF]). rewrite app_assoc.
      rewrite Chomp_loop_newline by reflexivity.
      rewrite Chomp_loop_newline by reflexivity.
      apply Chomp_loop_stable. exact Hn.
  - apply Forall_app. split; [|apply eol_pre_no_NUL].
    eapply Forall_impl; [|exact Hl]. intros b Hb.
    apply (graphic_facts b Hb).
Qed.

(** ** Headers *)

Lemma header_ok_parts (t : terminator) (r : record) :
  header_ok t r = true ->
  rname r <> [] /\ Forall (fun b => graphic b = true) (rname r) /\
  desc_ok (rdesc r) = true /\ (length (render_header t r) <= 1023)%nat.
Proof.
  unfold header_ok. rewrite !andb_true_iff.
  intros [[[H1 H2] H3] H4]. repeat split.
  - destruct (rname r); [discriminate | congruence].
  - apply Forall_graphic. exact H2.
  - exact H3.
  - apply Nat.leb_le. exact H4.
Qed.

Lemma desc_ok_textual (desc : list byte) :
  desc_ok desc = true -> Forall (fun b => Format.textual b = true) desc.
Proof.
  destruct desc as [|b desc]; [constructor|].
  unfold desc_ok. rewrite andb_true_iff. intros [_ H].
  apply Forall_forall. apply forallb_forall. exact H.
Qed.

(** After the name comes a blank: the first character of the description
    or of the terminator. *)
Lemma after_name_blank (t : terminator) (desc : list byte) :
  desc_ok desc = true ->
  exists c post, desc ++ eol_bytes t = c :: post /\ is_blank c = true.
Proof.
  destruct desc as [|b desc]; intros H.
  - destruct t; simpl; eauto.
  - exists b, (desc ++ eol_bytes t). split; [reflexivity|].
    unfold desc_ok in H. apply andb_true_iff in H. destruct H as [H _].
    unfold is_blank. apply orb_true_iff in H. destruct H as [H | H];
      rewrite H; simpl; rewrite ?orb_true_r; reflexivity.
Qed.

Lemma header_text_no_LF (t : terminator) (r : record) :
  header_ok t r = true ->
  Forall (fun b => b <> LF) (GT :: rname r ++ rdesc r ++ eol_pre t) /\
  Forall (fun b => b <> NUL) (render_header t r).
Proof.
  intros H. destruct (header_ok_parts _ _ H) as (_ & Hn & Hd & _).
  apply desc_ok_textual in Hd. split.
  - constructor; [discriminate|]. rewrite !Forall_app. repeat split.
    + eapply Forall_impl; [|exact Hn]. intros b Hb.
      apply (graphic_facts b Hb).
    + eapply Forall_impl; [|exact Hd]. intros b Hb.
      apply (textual_facts b Hb).
    + apply eol_pre_no_LF.
  - unfold render_header. constructor; [discriminate|].
    rewrite !Forall_app. repeat split.
    + eapply Forall_impl; [|exact Hn]. intros b Hb.
      apply (graphic_facts b Hb).
    + eapply Forall_impl; [|exact Hd]. intros b Hb.
      apply (textual_facts b Hb).
    + apply eol_pre_no_NUL.
Qed.

Lemma render_header_split (t : terminator) (r : record) :
  render_header t r = (GT :: rname r ++ rdesc r ++ eol_pre t) ++ [LF].
Proof.
  unfold render_header. rewrite eol_bytes_pre. simpl.
  rewrite <- !app_assoc. reflexivity.
Qed.

(** [GetNextHeader] at the start of a well-formed header line reads the
    line whole. *)
Lemma GetNextHeader_header (t : terminator) (r : record) (d : FastaPrivate)
    (rest : list byte) :
  IsOpen d = true -> eofflag (Stream d) = false ->
  remaining (Stream d) = render_header t r ++ rest ->
  header_ok t r = true ->
  GetNextHeader d
  = (Some (render_header t r),
     set_Stream d (mkFILE (content (Stream d))
                          (fpos (Stream d) + length (render_header t r))
                          false)).
Proof.
  intros Hopen Heof Hrem Hok.
  destruct (header_text_no_LF _ _ Hok) as [HLF HNUL].
  destruct (header_ok_parts _ _ Hok) as (_ & _ & _ & Hlen).
  unfold GetNextHeader, feof. rewrite Hopen, Heof. cbn [negb orb].
  rewrite render_header_split in Hrem, Hlen. rewrite <- app_assoc in Hrem.
  rewrite (fgets_line _ _ _ Hrem HLF)
    by (rewrite length_app in Hlen; simpl in Hlen; simpl; lia).
  rewrite Heof, <- render_header_split.
  cbn [render_header hd]. rewrite byte_eqb_refl. cbn [negb].
  rewrite cstr_no_NUL by exact HNUL. reflexivity.
Qed.

Lemma name_stop_run (name : list byte) :
  forall (pre post : list byte) (c : byte) (fuel : nat),
    Forall (fun b => is_blank b = false) name ->
    is_blank c = true -> (length name < fuel)%nat ->
    name_stop fuel (pre ++ name ++ c :: post)
              (length (pre ++ name ++ c :: post)) (length pre)
    = (length pre + length name)%nat.
Proof.
  induction name as [|b name IH]; intros pre post c fuel Hn Hc Hf.
  - destruct fuel; [simpl in Hf; lia|]. cbn [name_stop app].
    unfold char_at. rewrite app_nth2, Nat.sub_diag by lia. cbn [nth].
    rewrite Hc. simpl. lia.
  - destruct fuel; [simpl in Hf; lia|]. cbn [name_stop].
    inversion Hn as [|? ? Hb Hn']; subst.
    unfold char_at at 1. rewrite app_nth2, Nat.sub_diag by lia.
    cbn [app nth]. rewrite Hb. cbn [negb].
    replace (S (length pre) =? length (pre ++ b :: name ++ c :: post))%nat
      with false
      by (symmetry; apply Nat.eqb_neq; rewrite !length_app; simpl;
          rewrite length_app; simpl; lia).
    replace (pre ++ b :: name ++ c :: post)
      with ((pre ++ [b]) ++ name ++ c :: post)
      by (rewrite <- app_assoc; reflexivity).
    replace (S (length pre)) with (length (pre ++ [b]))
      by (rewrite length_app; simpl; lia).
    rewrite IH by (try assumption; simpl in Hf; lia).
    rewrite length_app. simpl. lia.
Qed.

(** The name parsed from a well-formed header line is the record's
    name. *)
Lemma GetNameFromHeader_header (t : terminator) (r : record) :
  header_ok t r = true ->
  GetNameFromHeader (render_header t r) = Some (rname r).
Proof.
  intros Hok. destruct (header_ok_parts _ _ Hok) as (Hne & Hn & Hd & _).
  destruct (after_name_blank t _ Hd) as (c & post & Epost & Hc).
  unfold GetNameFromHeader, render_header. cbn [skipn].
  rewrite Epost.
  set (s := rname r ++ c :: post).
  assert (Hnb : Forall (fun b => is_blank b = false) (rname r)).
  { eapply Forall_impl; [|exact Hn]. intros b Hb.
    apply (graphic_facts b Hb). }
  destruct (rname r) as [|n0 name] eqn:En; [congruence|].
  assert (Estart : name_start (S (length s)) s (length s) 0 = 0%nat).
  { cbn [name_start]. unfold char_at, s. cbn [app nth].
    inversion Hnb; subst. rewrite H1. reflexivity. }
  rewrite Estart.
  replace (0 <? length s)%nat with true
    by (symmetry; apply Nat.ltb_lt; unfold s; simpl; lia).
  pose proof (name_stop_run (n0 :: name) [] post c (S (length s)) Hnb Hc)
    as Hstop.
  change ([] ++ (n0 :: name) ++ c :: post) with s in Hstop.
  change (length (@nil byte)) with 0%nat in Hstop.
  rewrite Hstop by (unfold s; rewrite length_app; simpl; lia).
  cbn [Nat.add length Nat.eqb skipn]. rewrite Nat.sub_0_r.
  unfold s. change (S (length name)) with (length (n0 :: name)).
  rewrite firstn_app, firstn_all, Nat.sub_diag. cbn [firstn].
  rewrite app_nil_r, cstr_no_NUL; [reflexivity|].
  rewrite <- En in Hn |- *. eapply Forall_impl; [|exact Hn].
  intros b Hb. apply (graphic_facts b Hb).
Qed.

(** ** Sequence lines *)

Lemma line_ok_parts (l : list byte) :
  line_ok l = true ->
  Forall (fun b => graphic b = true) l /\ Forall (fun b => b <> GT) l.
Proof.
  unfold line_ok. rewrite forallb_forall. intros H.
  split; apply Forall_forall; intros b Hb; specialize (H b Hb);
    unfold seqchar in H; apply andb_true_iff in H; destruct H as [H1 H2].
  - exact H1.
  - intros ->. discriminate.
Qed.

Lemma line_ok_app (l1 l2 : list byte) :
  line_ok (l1 ++ l2) = true -> line_ok l1 = true /\ line_ok l2 = true.
Proof. unfold line_ok. rewrite forallb_app. apply andb_true_iff. Qed.

(** The first byte of a sequence line with its terminator is neither
    '>' nor 0xff. *)
Lemma line_first_byte (t : terminator) (l rest : list byte) :
  line_ok l = true ->
  exists b tl, (l ++ eol_bytes t) ++ rest = b :: tl /\ b <> GT /\ b <> xff.
Proof.
  intros H. destruct (line_ok_parts _ H) as (Hg & Hgt).
  destruct l as [|b l].
  - destruct t; simpl; eexists; eexists; repeat split; discriminate.
  - exists b, ((l ++ eol_bytes t) ++ rest). repeat split.
    + inversion Hgt; assumption.
    + inversion Hg; subst. apply (graphic_facts b). assumption.
Qed.

Lemma graphic_no_LF (l : list byte) :
  Forall (fun b => graphic b = true) l -> Forall (fun b => b <> LF) l.
Proof.
  intros H. eapply Forall_impl; [|exact H]. intros b Hb.
  apply (graphic_facts b Hb).
Qed.

Lemma fgets_bytes_full (c more : list byte) :
  Forall (fun b => b <> LF) c ->
  fgets_bytes (length c) (c ++ more) = (c, false).
Proof.
  induction 1 as [|b c Hb Hc IH]; [reflexivity|].
  cbn [length app fgets_bytes]. rewrite (byte_eqb_neq _ _ Hb), IH.
  reflexivity.
Qed.

(** [fgets] on a line longer than the buffer reads 1023 bytes of it. *)
Lemma fgets_chunk (f : FILE) (c more : list byte) :
  remaining f = c ++ more ->
  Forall (fun b => b <> LF) c -> length c = 1023%nat ->
  fgets 1024 f
  = (Some c, mkFILE (content f) (fpos f + length c) (eofflag f)).
Proof.
  intros H Hc Hlen. unfold fgets. rewrite H.
  change (1024 - 1)%nat with 1023%nat. rewrite <- Hlen.
  rewrite (fgets_bytes_full c more Hc), orb_false_r.
  destruct c; [discriminate | reflexivity].
Qed.

Lemma Chomp_graphic (c : list byte) :
  Forall (fun b => graphic b = true) c -> Chomp c = c.
Proof.
  intros H. unfold Chomp, strlen. rewrite cstr_no_NUL.
  - apply Chomp_loop_stable. eapply Forall_impl; [|exact H].
    intros b Hb. apply (graphic_facts b Hb).
  - eapply Forall_impl; [|exact H]. intros b Hb.
    apply (graphic_facts b Hb).
Qed.

Lemma Chomp_carriage_return (l : list byte) :
  Forall (fun b => graphic b = true) l -> Chomp (l ++ [CR]) = l.
Proof.
  intros H. unfold Chomp, strlen. rewrite cstr_no_NUL.
  - rewrite Chomp_loop_newline by reflexivity.
    apply Chomp_loop_stable. eapply Forall_impl; [|exact H].
    intros b Hb. apply (graphic_facts b Hb).
  - apply Forall_app. split; [|repeat constructor; discriminate].
    eapply Forall_impl; [|exact H]. intros b Hb.
    apply (graphic_facts b Hb).
Qed.

Lemma sequence_from_done (f : FILE) (acc : list byte) (count : Z) :
  count <= Z.of_nat (length acc) ->
  sequence_from f acc count = (true, acc, f).
Proof.
  intros H. unfold sequence_from. cbn [GetNextSequence_loop].
  replace (Z.of_nat (length acc) <? count) with false
    by (symmetry; apply Z.ltb_ge; exact H).
  reflexivity.
Qed.

(** At the end of the lines the loop stops without consuming anything. *)
Lemma sequence_from_end (f : FILE) (acc : list byte) (count : Z) :
  body_end (remaining f) ->
  Z.of_nat (length acc) < count ->
  sequence_from f acc count
  = (true, acc, mkFILE (content f) (fpos f) (is_nil (remaining f))).
Proof.
  intros Hend Hc. unfold sequence_from. cbn [GetNextSequence_loop].
  replace (Z.of_nat (length acc) <? count) with true
    by (symmetry; apply Z.ltb_lt; exact Hc).
  destruct Hend as [E | [tl E]].
  - destruct (peek_nil f E) as [E1 E2]. rewrite E1, E2, E. reflexivity.
  - assert (Hff : GT <> xff) by discriminate.
    destruct (peek_cons f GT tl E Hff) as [E1 E2].
    rewrite E1, E2, E. reflexivity.
Qed.

(** One iteration that reads a buffer. *)
Lemma sequence_from_step (f f3 : FILE) (acc buffer : list byte) (count : Z)
    (b : byte) (tl : list byte) :
  Z.of_nat (length acc) < count ->
  remaining f = b :: tl -> b <> GT -> b <> xff ->
  fgets 1024 (mkFILE (content f) (fpos f) false) = (Some buffer, f3) ->
  sequence_from f acc count = sequence_from f3 (acc ++ Chomp buffer) count.
Proof.
  intros Hc Hrem HGT Hff Hg. unfold sequence_from at 1.
  cbn [GetNextSequence_loop]. unfold sequence_from.
  replace (Z.of_nat (length acc) <? count) with true
    by (symmetry; apply Z.ltb_lt; exact Hc).
  destruct (peek_cons f b tl Hrem Hff) as [E1 E2].
  rewrite E1, E2, char_of_int_b2z.
  rewrite (byte_eqb_neq _ _ HGT). cbn [feof eofflag orb]. rewrite Hg.
  pose proof (fgets_some_remaining _ _ _ _ Hg) as Hlt.
  change (remaining (mkFILE (content f) (fpos f) false))
    with (remaining f) in Hlt.
  apply GetNextSequence_loop_fuel; lia.
Qed.

Lemma render_lines_cons (t : terminator) (l : list byte)
    (ls : list (list byte)) :
  render_lines t (l :: ls) = (l ++ eol_bytes t) ++ render_lines t ls.
Proof. reflexivity. Qed.

Lemma render_lines_length (t : terminator) (ls : list (list byte)) :
  (length ls + length (concat ls) <= length (render_lines t ls))%nat.
Proof.
  induction ls as [|l ls IH]; [simpl; lia|].
  rewrite render_lines_cons. cbn [concat length].
  rewrite !length_app, eol_length. lia.
Qed.

(** Reading a line: either the limit is reached within the line, or the
    whole line is appended and the loop goes on after its terminator. *)
Lemma sequence_from_line (t : terminator) (n : nat) :
  forall (l : list byte) (f : FILE) (acc : list byte) (count : Z)
         (rest : list byte),
    (length l <= n)%nat -> line_ok l = true ->
    remaining f = (l ++ eol_bytes t) ++ rest ->
    (exists p q f',
       l = p ++ q /\
       sequence_from f acc count = (true, acc ++ p, f') /\
       count <= Z.of_nat (length (acc ++ p)))
    \/ sequence_from f acc count
       = sequence_from
           (mkFILE (content f) (fpos f + length (l ++ eol_bytes t)) false)
           (acc ++ l) count.
Proof.
  induction n as [|n IH]; intros l f acc count rest Hn Hok Hrem;
    (destruct (Z_lt_le_dec (Z.of_nat (length acc)) count) as [Hc | Hc];
     [|left; exists [], l, f; rewrite (app_nil_r acc);
       split; [reflexivity|]; split;
       [apply sequence_from_done; exact Hc | exact Hc]]);
    destruct (line_first_byte t l rest Hok) as (b & tl & Eb & HGT & Hff);
    destruct (line_ok_parts _ Hok) as (Hg & _);
    assert (Hrem' : remaining f = b :: tl) by congruence;
    (assert (Hfit : (length l + length (eol_bytes t) <= 1023)%nat ->
               sequence_from f acc count
               = sequence_from
                   (mkFILE (content f)
                      (fpos f + length (l ++ eol_bytes t)) false)
                   (acc ++ l) count);
     [ intros Hfit;
       assert (Hr2 : remaining (mkFILE (content f) (fpos f) false)
                     = (l ++ eol_pre t) ++ LF :: rest)
         by (unfold remaining in *; cbn [content fpos]; rewrite Hrem;
             rewrite eol_bytes_pre, <- !app_assoc; reflexivity);
       rewrite (sequence_from_step f _ acc _ count b tl Hc Hrem' HGT Hff
                  (fgets_line _ _ _ Hr2
                     ltac:(apply Forall_app; split;
                           [apply graphic_no_LF; exact Hg
                           | apply eol_pre_no_LF])
                     ltac:(rewrite length_app; rewrite eol_length in Hfit;
                           lia)));
       cbn [content fpos eofflag];
       rewrite <- app_assoc, <- eol_bytes_pre, (Chomp_line t l Hg);
       reflexivity
     |]).
  - (* an empty line always fits *)
    right. apply Hfit. destruct l; [|simpl in Hn; lia].
    destruct t; simpl; lia.
  - destruct (le_lt_dec (length l + length (eol_bytes t)) 1023) as [Hs | Hs];
      [right; apply Hfit; exact Hs|].
    destruct (le_lt_dec 1023 (length l)) as [Hbig | Hsmall].
    + (* the buffer is filled with characters of the line *)
      set (c := firstn 1023 l). set (l' := skipn 1023 l).
      assert (El : l = c ++ l') by (symmetry; apply firstn_skipn).
      assert (Hclen : length c = 1023%nat)
        by (unfold c; rewrite length_firstn; lia).
      rewrite El in Hok. destruct (line_ok_app _ _ Hok) as [Hokc Hokl'].
      destruct (line_ok_parts _ Hokc) as (Hgc & _).
      assert (Hr2 : remaining (mkFILE (content f) (fpos f) false)
                    = c ++ (l' ++ eol_bytes t) ++ rest).
      { unfold remaining in *. cbn [content fpos]. rewrite Hrem.
        rewrite El at 1. rewrite <- !app_assoc. reflexivity. }
      rewrite (sequence_from_step f _ acc _ count b tl Hc Hrem' HGT Hff
                 (fgets_chunk _ _ _ Hr2 (graphic_no_LF _ Hgc) Hclen)).
      cbn [content fpos eofflag]. rewrite (Chomp_graphic c Hgc).
      destruct (IH l' (mkFILE (content f) (fpos f + length c) false)
                   (acc ++ c) count rest)
        as [(p & q & f' & Ep & E & Hp) | E].
      * unfold l'. rewrite length_skipn. lia.
      * exact Hokl'.
      * destruct f as [bytes pos eo]. cbn [content fpos] in *.
        apply (remaining_advance bytes pos false false c). exact Hr2.
      * left. exists (c ++ p), q, f'. rewrite <- app_assoc in E, Hp.
        split; [rewrite El, Ep, app_assoc; reflexivity|].
        split; assumption.
      * right. rewrite E. cbn [content fpos].
        rewrite <- app_assoc, <- El.
        replace (fpos f + length c + length (l' ++ eol_bytes t))%nat
          with (fpos f + length (l ++ eol_bytes t))%nat; [reflexivity|].
        rewrite El at 1. rewrite !length_app. lia.
    + (* the buffer ends between a carriage return and its line feed *)
      destruct t; cbn [eol_bytes length] in Hs; [lia|].
      assert (Hll : length l = 1022%nat) by lia.
      assert (Hr2 : remaining (mkFILE (content f) (fpos f) false)
                    = (l ++ [CR]) ++ LF :: rest).
      { unfold remaining in *. cbn [content fpos]. rewrite Hrem.
        cbn [eol_bytes]. rewrite <- !app_assoc. reflexivity. }
      rewrite (sequence_from_step f _ acc _ count b tl Hc Hrem' HGT Hff
                 (fgets_chunk _ _ _ Hr2
                    ltac:(apply Forall_app; split;
                          [apply graphic_no_LF; exact Hg
                          | repeat constructor; discriminate])
                    ltac:(rewrite length_app; simpl; lia))).
      cbn [content fpos eofflag]. rewrite (Chomp_carriage_return l Hg).
      set (f3 := mkFILE (content f) (fpos f + length (l ++ [CR])) false).
      assert (Hr3 : remaining f3 = LF :: rest).
      { unfold f3. destruct f as [bytes pos eo]. cbn [content fpos] in *.
        apply (remaining_advance bytes pos false false (l ++ [CR])).
        exact Hr2. }
      destruct (Z_lt_le_dec (Z.of_nat (length (acc ++ l))) count)
        as [Hc' | Hc'].
      * right.
        assert (Hr4 : remaining (mkFILE (content f3) (fpos f3) false)
                      = [] ++ LF :: rest) by exact Hr3.
        rewrite (sequence_from_step f3 _ (acc ++ l) _ count LF rest Hc' Hr3
                   ltac:(discriminate) ltac:(discriminate)
                   (fgets_line _ _ _ Hr4 (Forall_nil _)
                      ltac:(simpl; lia))).
        change (Chomp ([] ++ [LF])) with (@nil byte).
        rewrite app_nil_r. cbn [content fpos f3 eofflag eol_bytes].
        rewrite !length_app. cbn [length app].
        replace (fpos f + (length l + 1) + (0 + 1))%nat
          with (fpos f + (length l + 2))%nat by lia.
        reflexivity.
      * left. exists l, [], f3.
        split; [rewrite app_nil_r; reflexivity|]. split; [|exact Hc'].
        apply sequence_from_done. exact Hc'.
Qed.

(** Reading the lines of a record: the result is the accumulated
    sequence followed by a prefix of the de-wrapped sequence, which is
    whole unless the limit was reached; if it was not, the stream is at
    the end of the record. *)
Lemma sequence_from_lines (t : terminator) (ls : list (list byte)) :
  forall (f : FILE) (acc tail : list byte) (count : Z),
    forallb line_ok ls = true ->
    remaining f = render_lines t ls ++ tail ->
    body_end tail ->
    exists p q f',
      concat ls = p ++ q /\
      sequence_from f acc count = (true, acc ++ p, f') /\
      (count <= Z.of_nat (length (acc ++ p))
       \/ (q = [] /\
           f' = mkFILE (content f) (fpos f + length (render_lines t ls))
                       (is_nil tail))).
Proof.
  induction ls as [|l ls IH]; intros f acc tail count Hok Hrem Hend.
  - cbn [render_lines map concat app] in Hrem.
    destruct (Z_lt_le_dec (Z.of_nat (length acc)) count) as [Hc | Hc].
    + exists [], [], (mkFILE (content f) (fpos f) (is_nil (remaining f))).
      rewrite (app_nil_r acc).
      split; [reflexivity|]. split.
      * apply sequence_from_end; [rewrite Hrem; exact Hend | exact Hc].
      * right. split; [reflexivity|].
        rewrite Hrem. cbn [render_lines map concat length].
        rewrite Nat.add_0_r. reflexivity.
    + exists [], [], f. rewrite (app_nil_r acc).
      split; [reflexivity|]. split; [|left; exact Hc].
      apply sequence_from_done. exact Hc.
  - cbn [forallb] in Hok. apply andb_true_iff in Hok.
    destruct Hok as [Hl Hls].
    rewrite render_lines_cons, <- app_assoc in Hrem.
    destruct (sequence_from_line t (length l) l f acc count
                (render_lines t ls ++ tail) (le_n _) Hl Hrem)
      as [(p & q & f' & Ep & E & Hp) | E].
    + exists p, (q ++ concat ls), f'. cbn [concat].
      split; [rewrite Ep, app_assoc; reflexivity|].
      split; [exact E | left; exact Hp].
    + destruct (IH (mkFILE (content f) (fpos f + length (l ++ eol_bytes t))
                           false)
                   (acc ++ l) tail count Hls) as (p & q & f' & Ep & E' & Hp).
      * destruct f as [bytes pos eo]. cbn [content fpos] in *.
        apply (remaining_advance bytes pos eo false (l ++ eol_bytes t)).
        exact Hrem.
      * exact Hend.
      * exists (l ++ p), q, f'. cbn [concat].
        rewrite <- app_assoc in E', Hp.
        split; [rewrite Ep, app_assoc; reflexivity|].
        split; [rewrite E; exact E'|].
        destruct Hp as [Hp | [Hq Hf]]; [left; exact Hp|].
        right. split; [exact Hq|]. rewrite Hf. cbn [content fpos].
        rewrite render_lines_cons, (length_app (l ++ eol_bytes t)).
        rewrite Nat.add_assoc. reflexivity.
Qed.

(** ** Records *)

Lemma render_cons (t : terminator) (r : record) (rs : list record) :
  render t (r :: rs)
  = render_header t r ++ render_lines t (rlines r) ++ render t rs.
Proof.
  unfold render. cbn [map concat]. unfold render_record.
  rewrite <- app_assoc. reflexivity.
Qed.

Lemma render_body_end (t : terminator) (rs : list record) :
  body_end (render t rs).
Proof.
  destruct rs as [|r rs]; [left; reflexivity|].
  right. rewrite render_cons. unfold render_header. simpl. eauto.
Qed.

Lemma render_is_nil (t : terminator) (rs : list record) :
  is_nil (render t rs) = is_nil rs.
Proof. destruct rs; [reflexivity|]. rewrite render_cons. reflexivity. Qed.

Lemma render_length (t : terminator) (rs : list record) :
  (length rs <= length (render t rs))%nat.
Proof.
  induction rs as [|r rs IH]; [simpl; lia|].
  rewrite render_cons, !length_app. unfold render_header. simpl. lia.
Qed.

Lemma record_ok_parts (t : terminator) (r : record) :
  record_ok t r = true ->
  header_ok t r = true /\ forallb line_ok (rlines r) = true.
Proof. unfold record_ok. apply andb_true_iff. Qed.

(** [GetNextSequence] at the start of the lines of a record reads the
    de-wrapped sequence and stops at the end of the record. *)
Lemma GetNextSequence_lines (t : terminator) (ls : list (list byte))
    (d : FastaPrivate) (tail : list byte) :
  IsOpen d = true -> eofflag (Stream d) = false ->
  forallb line_ok ls = true ->
  remaining (Stream d) = render_lines t ls ++ tail ->
  body_end tail ->
  Z.of_nat (length (content (Stream d))) <= INT_MAX ->
  GetNextSequence SIZE_MAX d
  = (true, concat ls,
     set_Stream d (mkFILE (content (Stream d))
                          (fpos (Stream d) + length (render_lines t ls))
                          (is_nil tail))).
Proof.
  intros Hopen Heof Hok Hrem Hend Hsize.
  pose proof (render_lines_length t ls) as Hl.
  pose proof (remaining_length (Stream d)) as Hr.
  assert (Hrl : (length (render_lines t ls)
                 <= length (remaining (Stream d)))%nat).
  { rewrite Hrem, length_app. lia. }
  unfold GetNextSequence, feof. rewrite Hopen, Heof. cbn [negb orb].
  fold (sequence_from (Stream d) [] SIZE_MAX).
  destruct (sequence_from_lines t ls (Stream d) [] tail SIZE_MAX Hok Hrem
              Hend) as (p & q & f' & Ep & E & Hp).
  rewrite E. cbn [app] in *.
  destruct Hp as [Hp | [Hq Hf]].
  - apply (f_equal (@length byte)) in Ep. rewrite length_app in Ep.
    unfold SIZE_MAX, INT_MAX in *. lia.
  - subst q f'. rewrite app_nil_r in Ep. rewrite Ep. reflexivity.
Qed.

(** Header and sequence of the record at the read position. *)
Lemma read_record (t : terminator) (r : record) (rs : list record)
    (d : FastaPrivate) :
  IsOpen d = true -> eofflag (Stream d) = false ->
  remaining (Stream d) = render t (r :: rs) ->
  record_ok t r = true ->
  Z.of_nat (length (content (Stream d))) <= INT_MAX ->
  let d1 := set_Stream d (mkFILE (content (Stream d))
                            (fpos (Stream d) + length (render_header t r))
                            false) in
  let d2 := set_Stream d (mkFILE (content (Stream d))
                            (fpos (Stream d) + length (render_header t r)
                             + length (render_lines t (rlines r)))
                            (is_nil rs)) in
  GetNextHeader d = (Some (render_header t r), d1) /\
  GetNextSequence SIZE_MAX d1 = (true, rseq r, d2) /\
  remaining (Stream d2) = render t rs.
Proof.
  intros Hopen Heof Hrem Hok Hsize d1 d2.
  destruct (record_ok_parts _ _ Hok) as [Hh Hls].
  rewrite render_cons in Hrem.
  assert (Hrem1 : remaining (Stream d1)
                  = render_lines t (rlines r) ++ render t rs).
  { unfold d1. destruct d as [[bytes p e] ? ? ? ? ?].
    cbn [set_Stream Stream content fpos] in *.
    apply (remaining_advance bytes p e false _ _ Hrem). }
  split; [apply (GetNextHeader_header t r d _ Hopen Heof Hrem Hh)|].
  split.
  - rewrite (GetNextSequence_lines t (rlines r) d1 (render t rs)).
    + rewrite render_is_nil. unfold d1, d2.
      destruct d; reflexivity.
    + unfold d1. destruct d; exact Hopen.
    + unfold d1. destruct d; reflexivity.
    + exact Hls.
    + exact Hrem1.
    + apply render_body_end.
    + unfold d1. destruct d; exact Hsize.
  - unfold d2. destruct d as [[bytes p e] ? ? ? ? ?].
    cbn [set_Stream Stream content fpos] in *.
    rewrite <- Nat.add_assoc, <- length_app.
    apply (remaining_advance bytes p e _ _ _).
    rewrite Hrem, <- app_assoc. reflexivity.
Qed.

(** The loop of [CreateIndex] over the records of a well-formed file
    appends the entries of the records, in order. *)
Lemma CreateIndex_loop_records (t : terminator) (ll bl : Z)
    (rs : list record) :
  forall (fuel : nat) (d : FastaPrivate),
    IsOpen d = true ->
    (rs <> [] -> eofflag (Stream d) = false) ->
    remaining (Stream d) = render t rs ->
    forallb (record_ok t) rs = true ->
    Z.of_nat (length (content (Stream d))) <= INT_MAX ->
    (length rs < fuel)%nat ->
    exists f',
      CreateIndex_loop fuel ll bl d
      = (Success tt,
         mkFasta f' true (IndexStream d) (HasIndex d) (IsIndexOpen d)
                 (Index d ++ index_of t ll bl (fpos (Stream d)) rs)) /\
      content f' = content (Stream d).
Proof.
  induction rs as [|r rs IH]; intros fuel d Hopen Heof Hrem Hok Hsize Hfuel.
  - destruct fuel; [simpl in Hfuel; lia|]. cbn [CreateIndex_loop index_of].
    rewrite app_nil_r. unfold GetNextHeader, feof. rewrite Hopen.
    cbn [negb orb].
    destruct (eofflag (Stream d)) eqn:E.
    + exists (Stream d). destruct d; simpl in *; subst.
      split; reflexivity.
    + unfold fgets. rewrite Hrem. cbn [render map concat fgets_bytes].
      destruct d as [f ? ? ? ? ?]; simpl in *; subst.
      exists (mkFILE (content f) (fpos f) (eofflag f || true)).
      split; reflexivity.
  - destruct fuel; [simpl in Hfuel; lia|]. cbn [CreateIndex_loop].
    cbn [forallb] in Hok. apply andb_true_iff in Hok.
    destruct Hok as [Hr Hrs].
    assert (Heof' : eofflag (Stream d) = false) by (apply Heof; discriminate).
    destruct (read_record t r rs d Hopen Heof' Hrem Hr Hsize)
      as (E1 & E2 & E3).
    rewrite E1.
    rewrite (GetNameFromHeader_header t r)
      by (apply (record_ok_parts _ _ Hr)).
    rewrite E2. cbn [negb].
    match goal with
    | |- context [CreateIndex_loop fuel ll bl ?d2] =>
        destruct (IH fuel d2) as (f' & E & Hc)
    end.
    + destruct d; exact Hopen.
    + intros Hne. destruct d; cbn. destruct rs; [congruence | reflexivity].
    + destruct d; exact E3.
    + exact Hrs.
    + destruct d; exact Hsize.
    + simpl in Hfuel. lia.
    + exists f'. split; [|destruct d; exact Hc].
      rewrite E. destruct d as [[bytes p e] ? ? ? ? ?].
      cbn [set_Index set_Stream Stream Index IndexStream HasIndex
           IsIndexOpen fpos content ftell64 index_of].
      rewrite <- app_assoc. cbn [app].
      rewrite to_int32_small; [reflexivity|].
      pose proof (render_lines_length t (rlines r)) as Hl.
      pose proof (remaining_length (mkFILE bytes p e)) as Hrl.
      cbn [Stream] in Hrem.
      rewrite Hrem, render_cons, !length_app in Hrl.
      cbn [content Stream] in *. unfold rseq, INT_MIN. lia.
Qed.

(** ** The line geometry *)

(** The measuring loop over the bytes [y] that precede the next line feed:
    it counts them all, and the visible ones among them. *)
Lemma first_line_loop_run (y : list byte) :
  forall (fuel : nat) (f : FILE) (bl ll : Z) (rest : list byte),
    remaining f = y ++ LF :: rest ->
    Forall (fun b => 0 <= schar b /\ b <> LF) y ->
    (length y < fuel)%nat ->
    exists f',
      first_line_loop fuel (char_of_int (fst (fgetc f))) (snd (fgetc f)) bl ll
      = (bl + Z.of_nat (length y),
         ll + Z.of_nat (length (filter (fun b => isgraph (schar b)) y)),
         f') /\
      content f' = content f.
Proof.
  induction y as [|b y IH]; intros fuel f bl ll rest Hrem Hy Hfuel.
  - rewrite (fgetc_cons f LF rest Hrem). cbn [fst snd].
    destruct fuel; [simpl in Hfuel; lia|].
    exists (mkFILE (content f) (S (fpos f)) (eofflag f)).
    split; [|reflexivity].
    simpl. rewrite !Z.add_0_r. reflexivity.
  - rewrite (fgetc_cons f b (y ++ LF :: rest) Hrem). cbn [fst snd].
    destruct fuel; [simpl in Hfuel; lia|].
    inversion Hy as [|? ? [Hb1 Hb2] Hy']; subst.
    cbn [first_line_loop]. rewrite char_of_int_b2z.
    replace (0 <=? schar b) with true by (symmetry; apply Z.leb_le; exact Hb1).
    rewrite (byte_eqb_neq _ _ Hb2). cbn [andb negb].
    set (f1 := mkFILE (content f) (S (fpos f)) (eofflag f)).
    assert (Hrem1 : remaining f1 = y ++ LF :: rest).
    { unfold f1, remaining in *. cbn [content fpos].
      apply (skipn_S_of_cons _ _ _ _ Hrem). }
    destruct (IH fuel f1 (bl + 1)
                (if isgraph (schar b) then ll + 1 else ll) rest Hrem1 Hy')
      as (f' & E & Hc); [simpl in Hfuel; lia|].
    exists f'. split; [|exact Hc].
    destruct (fgetc f1) as [c' f2] eqn:Ef. cbn [fst snd] in E.
    rewrite E. cbn [filter length].
    destruct (isgraph (schar b)); cbn [length]; f_equal; f_equal; lia.
Qed.

Lemma filter_graphic_line (t : terminator) (l : list byte) :
  Forall (fun b => graphic b = true) l ->
  length (filter (fun b => isgraph (schar b)) (l ++ eol_pre t)) = length l.
Proof.
  intros H. rewrite filter_app, length_app.
  replace (length (filter _ (eol_pre t))) with 0%nat
    by (destruct t; reflexivity).
  rewrite Nat.add_0_r. f_equal.
  induction H as [|b l Hb Hl IH]; [reflexivity|].
  cbn [filter]. destruct (graphic_facts b Hb) as (_ & _ & _ & _ & _ & _ & _ & _ & Hg).
  rewrite Hg, IH. reflexivity.
Qed.

Lemma line_bytes_measurable (t : terminator) (l : list byte) :
  Forall (fun b => graphic b = true) l ->
  Forall (fun b => 0 <= schar b /\ b <> LF) (l ++ eol_pre t).
Proof.
  intros H. apply Forall_app. split.
  - eapply Forall_impl; [|exact H]. intros b Hb.
    destruct (graphic_facts b Hb) as (_ & H1 & _ & _ & _ & _ & _ & H2 & _).
    split; assumption.
  - destruct t; repeat constructor; try discriminate.
Qed.

(** ** CreateIndex on a well-formed file *)

Lemma well_formed_parts (t : terminator) (rs : list record) :
  well_formed t rs = true ->
  forallb (record_ok t) rs = true /\
  (exists r rs' l ls, rs = r :: rs' /\ rlines r = l :: ls) /\
  Z.of_nat (length (render t rs)) <= INT_MAX.
Proof.
  unfold well_formed. rewrite !andb_true_iff. intros [[H1 H2] H3].
  split; [exact H1|]. split; [|apply Z.leb_le; exact H3].
  destruct rs as [|r rs']; [discriminate|].
  destruct (rlines r) as [|l ls] eqn:E; [discriminate|].
  exists r, rs', l, ls. split; [reflexivity | exact E].
Qed.

(** The scan of a well-formed file succeeds with the table of the format:
    one entry per record, in file order, all with the geometry of the
    first sequence line. *)
Lemma CreateIndex_scan_well_formed (t : terminator) (rs : list record)
    (d : FastaPrivate) :
  well_formed t rs = true ->
  IsOpen d = true -> content (Stream d) = render t rs ->
  exists f',
    CreateIndex_scan d
    = (Success tt,
       mkFasta f' true (IndexStream d) (HasIndex d) (IsIndexOpen d)
               (index_table t rs)) /\
    content f' = render t rs.
Proof.
  intros Hwf Hopen Hcontent.
  destruct (well_formed_parts _ _ Hwf)
    as (Hrs & (r & rs' & l & ls & Ers & El) & Hsize).
  destruct d as [[bytes p e] isopen ixs hasix ixopen ix].
  cbn [IsOpen Stream content] in *. subst isopen bytes.
  unfold CreateIndex_scan, Rewind, fseek64. cbn [IsOpen negb Stream].
  change (0 <? 0) with false. cbv iota.
  cbn [set_Stream set_Index Stream IsOpen IndexStream HasIndex IsIndexOpen
       Index content Z.to_nat negb].
  (* the first header *)
  assert (Hr : record_ok t r = true).
  { rewrite Ers in Hrs. cbn [forallb] in Hrs.
    apply andb_true_iff in Hrs. apply Hrs. }
  destruct (record_ok_parts _ _ Hr) as [Hh Hls].
  destruct (header_text_no_LF _ _ Hh) as [HLF _].
  destruct (header_ok_parts _ _ Hh) as (_ & _ & _ & Hlen).
  set (f0 := mkFILE (render t rs) 0 false).
  assert (Hrem0 : remaining f0
                  = (GT :: rname r ++ rdesc r ++ eol_pre t)
                    ++ LF :: render_lines t (rlines r) ++ render t rs').
  { unfold f0, remaining. cbn [content fpos skipn].
    rewrite Ers, render_cons, render_header_split, <- app_assoc.
    reflexivity. }
  rewrite (fgets_line f0 _ _ Hrem0 HLF)
    by (rewrite render_header_split, length_app in Hlen; simpl in Hlen;
        simpl; lia).
  rewrite <- render_header_split.
  cbn [feof eofflag f0 Stream fpos content Nat.add].
  replace (hd NUL (render_header t r)) with GT by reflexivity.
  rewrite byte_eqb_refl. cbn [negb].
  (* the first line of sequence *)
  set (f1 := mkFILE (render t rs) (length (render_header t r)) false).
  assert (Hrem1 : remaining f1
                  = (l ++ eol_pre t) ++ LF :: render_lines t ls ++ render t rs').
  { unfold f1.
    change (length (render_header t r))
      with (0 + length (render_header t r))%nat.
    apply (remaining_advance (render t rs) 0 false false (render_header t r)).
    unfold remaining. cbn [content fpos skipn].
    rewrite Ers, render_cons, El, render_lines_cons, eol_bytes_pre.
    rewrite <- !app_assoc. reflexivity. }
  assert (Hl : line_ok l = true).
  { rewrite El in Hls. cbn [forallb] in Hls.
    apply andb_true_iff in Hls. apply Hls. }
  destruct (line_ok_parts _ Hl) as (Hg & _).
  assert (Hfuel : (length (l ++ eol_pre t)
                   < S (length (remaining (snd (fgetc f1)))))%nat).
  { destruct (l ++ eol_pre t) as [|b y] eqn:Ey.
    - simpl. lia.
    - rewrite (fgetc_cons f1 b _ Hrem1). cbn [snd].
      unfold remaining. cbn [content fpos].
      unfold remaining in Hrem1.
      rewrite (skipn_S_of_cons _ _ _ _ Hrem1), length_app. simpl. lia. }
  destruct (first_line_loop_run (l ++ eol_pre t)
              (S (length (remaining (snd (fgetc f1))))) f1 0 0 _
              Hrem1 (line_bytes_measurable t l Hg) Hfuel)
    as (f2 & Em & Hc2).
  destruct (fgetc f1) as [c f1'] eqn:Efg. cbn [fst snd] in Em, Hfuel.
  rewrite Em. rewrite (filter_graphic_line t l Hg).
  assert (Hbl : in_int32 (0 + Z.of_nat (length (l ++ eol_pre t)) + 1) = true).
  { apply in_int32_spec.
    pose proof (remaining_length f1) as Hrl.
    rewrite Hrem1 in Hrl. rewrite !length_app in Hrl.
    cbn [content f1] in Hrl. cbn [length] in Hrl.
    unfold INT_MIN. rewrite length_app. lia. }
  rewrite Hbl. cbn [negb].
  cbn [Z.to_nat Stream content set_Stream IsOpen IndexStream HasIndex
       IsIndexOpen Index].
  rewrite Hc2. cbn [content f1].
  (* the loop over the records *)
  match goal with
  | |- context [CreateIndex_loop ?fuel ?ll ?bl ?d] =>
      destruct (CreateIndex_loop_records t ll bl rs fuel d)
        as (f' & E & Hc)
  end.
  - reflexivity.
  - reflexivity.
  - reflexivity.
  - exact Hrs.
  - exact Hsize.
  - pose proof (render_length t rs). lia.
  - exists f'. split; [|exact Hc].
    cbn [set_Stream set_Index Stream IsOpen IndexStream HasIndex IsIndexOpen
         Index fpos content app] in E |- *.
    rewrite E.
    unfold index_table, line_length, byte_length, first_line.
    rewrite Ers, El. cbn [hd].
    rewrite eol_length, length_app.
    replace (0 + Z.of_nat (length l)) with (Z.of_nat (length l)) by lia.
    replace (0 + Z.of_nat (length l + length (eol_pre t)) + 1)
      with (Z.of_nat (length l + S (length (eol_pre t)))) by lia.
    reflexivity.
Qed.

Lemma index_of_length (t : terminator) (ll bl : Z) (rs : list record) :
  forall off, length (index_of t ll bl off rs) = length rs.
Proof.
  induction rs as [|r rs IH]; intros off; [reflexivity|].
  cbn [index_of length]. rewrite IH. reflexivity.
Qed.

Lemma index_of_names (t : terminator) (ll bl : Z) (rs : list record) :
  forall off, map Name (index_of t ll bl off rs) = map rname rs.
Proof.
  induction rs as [|r rs IH]; intros off; [reflexivity|].
  cbn [index_of map Name]. rewrite IH. reflexivity.
Qed.

(** The entry of the [i]-th record: its name, the length of its de-wrapped
    sequence, and the offset at which its lines start in the file. *)
Lemma index_of_nth (t : terminator) (ll bl : Z) (rs : list record) :
  forall (i off : nat) (r : record) (pre : list byte),
    nth_error rs i = Some r -> length pre = off ->
    exists o : nat,
      nth_error (index_of t ll bl off rs) i
      = Some (mkData (rname r) (Z.of_nat (length (rseq r))) (Z.of_nat o)
                     ll bl) /\
      skipn o (pre ++ render t rs)
      = render_lines t (rlines r) ++ render t (skipn (S i) rs).
Proof.
  induction rs as [|r0 rs IH]; intros i off r pre Hi Hpre.
  - destruct i; discriminate.
  - destruct i as [|i].
    + injection Hi as <-. exists (off + length (render_header t r0))%nat.
      split; [reflexivity|].
      rewrite render_cons, app_assoc, <- Hpre, <- length_app.
      rewrite skipn_app, skipn_all, Nat.sub_diag. reflexivity.
    + cbn [nth_error] in Hi. cbn [index_of nth_error].
      destruct (IH i (off + length (render_header t r0)
                      + length (render_lines t (rlines r0)))%nat r
                  (pre ++ render_header t r0 ++ render_lines t (rlines r0))
                  Hi) as (o & E1 & E2).
      * rewrite !length_app. lia.
      * exists o. split; [exact E1|].
        rewrite render_cons. rewrite <- !app_assoc in E2. exact E2.
Qed.

(** C1. On an open data file in the format, with no index file open,
    [CreateIndex] with an empty index file name builds the table in
    memory, one entry per record, and writes nothing; but it returns
    [false] at [WriteIndexData], before [HasIndex] is set: the session is
    not marked indexed. The test that skips [fopen] for an empty name
    shows the empty name is meant to be served. *)
Theorem CreateIndex_empty_name_fails (t : terminator) (rs : list record)
    (fs : filesystem) (d : FastaPrivate) :
  well_formed t rs = true ->
  IsOpen d = true -> content (Stream d) = render t rs ->
  IsIndexOpen d = false ->
  exists d',
    CreateIndex "" fs d = (Failure CouldNotWriteIndex, fs, d') /\
    Index d' = index_table t rs /\
    length (Index d') = length rs /\
    map Name (Index d') = map rname rs /\
    HasIndex d' = HasIndex d.
Proof.
  intros Hwf Hopen Hcontent Hix.
  destruct (CreateIndex_scan_well_formed t rs d Hwf Hopen Hcontent)
    as (f' & E & _).
  unfold CreateIndex. rewrite E. cbn [String.eqb negb].
  unfold WriteIndexData. cbn [IsIndexOpen]. rewrite Hix. cbn [negb].
  eexists. split; [reflexivity|]. cbn [Index HasIndex].
  unfold index_table. rewrite index_of_length, index_of_names.
  repeat split.
Qed.

Lemma CreateIndex_empty_name_fails_witness :
  exists d',
    CreateIndex "" (Samples.one_file "ref.fa" Samples.two_records)
                (Format.session Samples.two_records)
    = (Failure CouldNotWriteIndex,
       Samples.one_file "ref.fa" Samples.two_records, d') /\
    length (Index d') = 2%nat /\ HasIndex d' = false.
Proof.
  destruct (CreateIndex_empty_name_fails LineFeed Samples.two_records_format
              (Samples.one_file "ref.fa" Samples.two_records)
              (Format.session Samples.two_records))
    as (d' & E & _ & Hn & _ & Hh);
    [reflexivity | reflexivity | reflexivity | reflexivity |].
  exists d'. split; [exact E|]. split; [exact Hn | exact Hh].
Defined.

(** ** The session after a successful CreateIndex *)

Lemma fs_append_files (fs : filesystem) (path : string) (old new : list byte) :
  files fs path = Some old ->
  files (fs_append fs path new) path = Some (old ++ new) /\
  (forall p, p <> path -> files (fs_append fs path new) p = files fs p) /\
  writable (fs_append fs path new) = writable fs.
Proof.
  intros H. unfold fs_append. rewrite H. unfold fs_store. cbn [files writable].
  rewrite String.eqb_refl. repeat split.
  intros p Hp. apply String.eqb_neq in Hp. rewrite Hp. reflexivity.
Qed.

Lemma WriteIndexData_loop_write (path : string) (entries : list FastaIndexData) :
  forall (fs : filesystem) (success : bool) (old : list byte),
    files fs path = Some old ->
    exists fs',
      WriteIndexData_loop entries (IdxWrite path) success fs = (success, fs') /\
      files fs' path
      = Some (old ++ concat (map (fun e => cstr (index_line e)) entries)) /\
      (forall p, p <> path -> files fs' p = files fs p).
Proof.
  induction entries as [|e entries IH]; intros fs success old Hold.
  - exists fs. cbn. rewrite app_nil_r. repeat split. exact Hold.
  - cbn [WriteIndexData_loop fputs_index].
    destruct (fs_append_files fs path old (cstr (index_line e)) Hold)
      as (H1 & H2 & _).
    rewrite andb_true_r.
    destruct (IH (fs_append fs path (cstr (index_line e))) success
                 _ H1) as (fs' & E & H3 & H4).
    exists fs'. split; [exact E|]. split.
    + rewrite H3. cbn [map concat]. rewrite <- app_assoc. reflexivity.
    + intros p Hp. rewrite H4 by exact Hp. apply H2. exact Hp.
Qed.

(** A successful [CreateIndex] on a file in the format leaves the session
    indexed with the table of the format. *)
Lemma CreateIndex_success_indexed_on (t : terminator) (rs : list record)
    (path : string) (fs fs' : filesystem) (d0 d : FastaPrivate) :
  well_formed t rs = true ->
  IsOpen d0 = true -> content (Stream d0) = render t rs ->
  CreateIndex path fs d0 = (Success tt, fs', d) ->
  indexed_on t rs d.
Proof.
  intros Hwf Hopen Hcontent.
  destruct (CreateIndex_scan_well_formed t rs d0 Hwf Hopen Hcontent)
    as (f' & E & Hc).
  unfold CreateIndex. rewrite E.
  destruct (negb (path =? "")%string).
  - destruct (fopen_wb fs path) as [fs1|]; [|discriminate].
    destruct (WriteIndexData fs1 _) as [[|] fs2]; [|discriminate].
    intros H. injection H as _ <-. repeat split. exact Hc.
  - destruct (WriteIndexData fs _) as [[|] fs2]; [|discriminate].
    intros H. injection H as _ <-. repeat split. exact Hc.
Qed.

(** With an index file name that can be opened for writing,
    [CreateIndex] succeeds on a file in the format and writes one line per
    entry. *)
Lemma CreateIndex_well_formed (t : terminator) (rs : list record)
    (path : string) (fs : filesystem) (d0 : FastaPrivate) :
  well_formed t rs = true ->
  IsOpen d0 = true -> content (Stream d0) = render t rs ->
  path <> EmptyString -> writable fs path = true ->
  exists fs' d,
    CreateIndex path fs d0 = (Success tt, fs', d) /\
    files fs' path
    = Some (concat (map (fun e => cstr (index_line e)) (index_table t rs))) /\
    (forall p, p <> path -> files fs' p = files fs p).
Proof.
  intros Hwf Hopen Hcontent Hpath Hw.
  destruct (CreateIndex_scan_well_formed t rs d0 Hwf Hopen Hcontent)
    as (f' & E & Hc).
  unfold CreateIndex. rewrite E.
  apply String.eqb_neq in Hpath. rewrite Hpath. cbn [negb].
  unfold fopen_wb. rewrite Hw.
  unfold WriteIndexData. cbn [IsIndexOpen negb Index IndexStream].
  destruct (WriteIndexData_loop_write path (index_table t rs)
              (fs_store fs path []) true [])
    as (fs' & Ew & H1 & H2).
  { unfold fs_store. cbn [files]. rewrite String.eqb_refl. reflexivity. }
  rewrite Ew. eexists. eexists. split; [reflexivity|].
  split; [exact H1|].
  intros p Hp. rewrite H2 by exact Hp. unfold fs_store. cbn [files].
  apply String.eqb_neq in Hp. rewrite Hp. reflexivity.
Qed.


(** ** GetSequence on the indexed path *)







(** ** GetBase: the address translation on uniformly wrapped lines *)







Lemma record_seq_bound (t : terminator) (rs : list record) :
  forall (i : nat) (r : record),
    nth_error rs i = Some r ->
    (length (rseq r) <= length (render t rs))%nat.
Proof.
  induction rs as [|r0 rs IH]; intros i r Hr; [destruct i; discriminate|].
  rewrite render_cons, !length_app.
  destruct i as [|i].
  - injection Hr as <-.
    pose proof (render_lines_length t (rlines r0)). unfold rseq. lia.
  - cbn [nth_error] in Hr. specialize (IH i r Hr). lia.
Qed.

(** ** The sequential path *)

Lemma Rewind_open (d : FastaPrivate) :
  IsOpen d = true ->
  Rewind d = Some (set_Stream d (mkFILE (content (Stream d)) 0 false)).
Proof. intros H. unfold Rewind. rewrite H. reflexivity. Qed.

Lemma skip_entries_S (n : nat) (seq0 : list byte) (d : FastaPrivate) :
  skip_entries (S n) seq0 d
  = skip_entries n
      (snd (fst (GetNextSequence SIZE_MAX (snd (GetNextHeader d)))))
      (snd (GetNextSequence SIZE_MAX (snd (GetNextHeader d)))).
Proof.
  cbn [skip_entries]. destruct (GetNextHeader d) as [h d1]. cbn [snd].
  destruct (GetNextSequence SIZE_MAX d1) as [[ok s] d2]. reflexivity.
Qed.

(** Reading entries one after the other ends with the sequence of the
    last one read. *)
Lemma skip_entries_records (t : terminator) :
  forall (n : nat) (rs : list record) (d : FastaPrivate) (seq0 : list byte)
         (r : record),
    IsOpen d = true -> eofflag (Stream d) = false ->
    remaining (Stream d) = render t rs ->
    forallb (record_ok t) rs = true ->
    Z.of_nat (length (content (Stream d))) <= INT_MAX ->
    nth_error rs n = Some r ->
    exists d', skip_entries (S n) seq0 d = (rseq r, d').
Proof.
  induction n as [|n IH]; intros rs d seq0 r Hopen Heof Hrem Hok Hsize Hr;
    (destruct rs as [|r0 rs]; [discriminate|]);
    cbn [forallb] in Hok; apply andb_true_iff in Hok;
    destruct Hok as [Hr0 Hrs];
    destruct (read_record t r0 rs d Hopen Heof Hrem Hr0 Hsize)
      as (E1 & E2 & E3);
    rewrite skip_entries_S, E1; cbn [snd]; rewrite E2; cbn [fst snd].
  - injection Hr as <-. eexists. reflexivity.
  - cbn [nth_error] in Hr.
    match goal with
    | |- context [skip_entries (S n) _ ?d2] =>
        apply (IH rs d2 (rseq r0) r)
    end.
    + destruct d; exact Hopen.
    + destruct d; cbn [set_Stream Stream eofflag].
      destruct rs; [destruct n; discriminate | reflexivity].
    + exact E3.
    + exact Hrs.
    + destruct d; exact Hsize.
    + exact Hr.
Qed.

(** On a session without index over a file in the format, the sequential
    path of [GetBase] returns the character at [position] of the record's
    de-wrapped sequence. *)
Lemma GetBase_sequential (t : terminator) (rs : list record)
    (d : FastaPrivate) (refId position : Z) (r : record) (base : byte) :
  well_formed t rs = true ->
  IsOpen d = true -> HasIndex d = false -> content (Stream d) = render t rs ->
  0 <= refId -> nth_error rs (Z.to_nat refId) = Some r ->
  0 <= position ->
  nth_error (rseq r) (Z.to_nat position) = Some base ->
  fst (GetBase refId position d) = Success base.
Proof.
  intros Hwf Hopen Hidx Hcontent H0 Hr Hp0 Hbase.
  destruct (well_formed_parts _ _ Hwf) as (Hrs & _ & Hsize).
  unfold GetBase. rewrite Hopen, Hidx. cbn [negb andb].
  rewrite (Rewind_open d Hopen).
  set (d1 := set_Stream d (mkFILE (content (Stream d)) 0 false)).
  destruct (skip_entries_records t (Z.to_nat refId) rs d1 [] r)
    as (d' & E).
  - exact Hopen.
  - reflexivity.
  - exact Hcontent.
  - exact Hrs.
  - cbn [d1 set_Stream Stream content]. rewrite Hcontent. exact Hsize.
  - exact Hr.
  - unfold scan_to. rewrite skip_entries_S in E.
    destruct (GetNextHeader d1) as [h d2]. cbn [snd] in E.
    destruct (GetNextSequence SIZE_MAX d2) as [[ok s] d3].
    cbn [fst snd] in E.
    replace (refId <? 0) with false by (symmetry; apply Z.ltb_ge; lia).
    rewrite E.
    assert (Hlt : (Z.to_nat position < length (rseq r))%nat).
    { apply nth_error_Some. congruence. }
    assert (Hsz : Z.of_nat (length (rseq r)) <= INT_MAX).
    { pose proof (record_seq_bound t rs _ r Hr). lia. }
    rewrite to_size_t_small by (unfold SIZE_MAX; unfold INT_MAX in *; lia).
    replace (position <=? Z.of_nat (length (rseq r))) with true
      by (symmetry; apply Z.leb_le; lia).
    rewrite (at_in_range _ _ base) by
      (try assumption; unfold SIZE_MAX; unfold INT_MAX in *; lia).
    reflexivity.
Qed.




(** The scan of the sequential paths ends with the de-wrapped sequence of
    the record. *)
Lemma scan_to_record (t : terminator) (rs : list record) (d : FastaPrivate)
    (refId : Z) (r : record) :
  well_formed t rs = true ->
  IsOpen d = true -> content (Stream d) = render t rs ->
  0 <= refId -> nth_error rs (Z.to_nat refId) = Some r ->
  exists d',
    scan_to refId (set_Stream d (mkFILE (content (Stream d)) 0 false))
    = Some (rseq r, d').
Proof.
  intros Hwf Hopen Hcontent H0 Hr.
  destruct (well_formed_parts _ _ Hwf) as (Hrs & _ & Hsize).
  set (d1 := set_Stream d (mkFILE (content (Stream d)) 0 false)).
  destruct (skip_entries_records t (Z.to_nat refId) rs d1 [] r)
    as (d' & E).
  - exact Hopen.
  - reflexivity.
  - exact Hcontent.
  - exact Hrs.
  - cbn [d1 set_Stream Stream content]. rewrite Hcontent. exact Hsize.
  - exact Hr.
  - unfold scan_to. rewrite skip_entries_S in E.
    destruct (GetNextHeader d1) as [h d2]. cbn [snd] in E.
    destruct (GetNextSequence SIZE_MAX d2) as [[ok s] d3].
    cbn [fst snd] in E.
    replace (refId <? 0) with false by (symmetry; apply Z.ltb_ge; lia).
    rewrite E. exists d'. reflexivity.
Qed.

(** What the sequential paths do with the sequence retrieved for the
    record. *)
Lemma sequential_paths (t : terminator) (rs : list record)
    (d : FastaPrivate) (refId : Z) (r : record) :
  well_formed t rs = true ->
  IsOpen d = true -> HasIndex d = false -> content (Stream d) = render t rs ->
  0 <= refId -> nth_error rs (Z.to_nat refId) = Some r ->
  Z.of_nat (length (rseq r)) < INT_MAX /\
  exists d',
    (forall position,
       GetBase refId position d
       = (if to_size_t position <=? Z.of_nat (length (rseq r)) then
            match at_ (rseq r) position with
            | Some base => Success base
            | None => ThrowsOutOfRange
            end
          else Failure NoSequence, d')) /\
    (forall start stop,
       GetSequence refId start stop d
       = (if to_size_t stop <=? Z.of_nat (length (rseq r)) then
            if negb (in_int32 (stop - start) && in_int32 (stop - start + 1))
            then Undefined
            else match substr (rseq r) start (stop - start + 1) with
                 | Some sequence => Success sequence
                 | None => ThrowsOutOfRange
                 end
          else Failure NoSequence, d')).
Proof.
  intros Hwf Hopen Hidx Hcontent H0 Hr.
  destruct (scan_to_record t rs d refId r Hwf Hopen Hcontent H0 Hr)
    as (d' & E).
  destruct (well_formed_parts _ _ Hwf) as (_ & _ & Hsize).
  split.
  - enough (length (rseq r) < length (render t rs))%nat by lia.
    remember (Z.to_nat refId) as i eqn:Ei. clear - Hr.
    revert i Hr. induction rs as [|r1 rs IH]; intros i Hr;
      [destruct i; discriminate|].
    rewrite render_cons, !length_app. unfold render_header.
    cbn [length]. destruct i as [|i].
    + injection Hr as <-.
      pose proof (render_lines_length t (rlines r1)). unfold rseq. lia.
    + cbn [nth_error] in Hr. specialize (IH i Hr). lia.
  - exists d'. split.
    + intros position. unfold GetBase. rewrite Hopen, Hidx. cbn [negb andb].
      rewrite (Rewind_open d Hopen), E.
      destruct (to_size_t position <=? _); [|reflexivity].
      destruct (at_ _ _); reflexivity.
    + intros start stop. unfold GetSequence. rewrite Hopen, Hidx.
      cbn [negb andb]. rewrite (Rewind_open d Hopen), E.
      destruct (to_size_t stop <=? _); [|reflexivity].
      destruct (negb _); [reflexivity|].
      destruct (substr _ _ _); reflexivity.
Qed.

(** C8, as amended. On a session without index over a data file in the
    format, for a valid record id whose retrieved sequence has [n]
    characters, [GetBase] and [GetSequence] return [false] (the not-found
    failure) for every position, or stop, above [n]; a stop equal to [n]
    passes the test [fullSequence.length () >= stop], and [GetSequence]
    then returns the characters from [start] to the end. *)
Theorem sequential_above_length (t : terminator) (rs : list record)
    (d : FastaPrivate) (refId : Z) (r : record) :
  well_formed t rs = true ->
  IsOpen d = true -> HasIndex d = false -> content (Stream d) = render t rs ->
  0 <= refId -> nth_error rs (Z.to_nat refId) = Some r ->
  (forall position start,
     Z.of_nat (length (rseq r)) < position <= INT_MAX ->
     fst (GetBase refId position d) = Failure NoSequence /\
     fst (GetSequence refId start position d) = Failure NoSequence) /\
  kind_of NoSequence = NotFoundError /\
  (forall start,
     0 <= start <= Z.of_nat (length (rseq r)) ->
     fst (GetSequence refId start (Z.of_nat (length (rseq r))) d)
     = Success (skipn (Z.to_nat start) (rseq r))).
Proof.
  intros Hwf Hopen Hidx Hcontent H0 Hr.
  destruct (sequential_paths t rs d refId r Hwf Hopen Hidx Hcontent H0 Hr)
    as (Hn & d' & EB & ES).
  repeat split.
  - rewrite EB.
    rewrite to_size_t_small by (unfold SIZE_MAX; unfold INT_MAX in *; lia).
    replace (position <=? _) with false by (symmetry; apply Z.leb_gt; lia).
    reflexivity.
  - rewrite ES.
    rewrite to_size_t_small by (unfold SIZE_MAX; unfold INT_MAX in *; lia).
    replace (position <=? _) with false by (symmetry; apply Z.leb_gt; lia).
    reflexivity.
  - intros start Hs. rewrite ES.
    rewrite to_size_t_small by (unfold SIZE_MAX; unfold INT_MAX in *; lia).
    rewrite Z.leb_refl. cbn [fst].
    replace (in_int32 (Z.of_nat (length (rseq r)) - start)
             && in_int32 (Z.of_nat (length (rseq r)) - start + 1)) with true
      by (symmetry; apply andb_true_iff; rewrite !in_int32_spec;
          unfold INT_MIN; unfold INT_MAX in *; lia).
    cbn [negb]. unfold substr.
    rewrite !to_size_t_small by (unfold SIZE_MAX; unfold INT_MAX in *; lia).
    replace (Z.of_nat (length (rseq r)) <? start) with false
      by (symmetry; apply Z.ltb_ge; lia).
    rewrite Z.min_r by lia. f_equal.
    apply firstn_all2. rewrite length_skipn. lia.
Qed.

Lemma sequential_above_length_witness :
  fst (GetBase 0 3 (Samples.opened Samples.short)) = Failure NoSequence /\
  fst (GetSequence 0 0 3 (Samples.opened Samples.short))
  = Failure NoSequence /\
  fst (GetSequence 0 1 2 (Samples.opened Samples.short))
  = Success (Samples.bytes "C").
Proof.
  destruct (sequential_above_length LineFeed Samples.short_format
              (Samples.opened Samples.short) 0
              (Format.mkRecord (Samples.bytes "a") [] [Samples.bytes "AC"]))
    as (Habove & _ & Hseq);
    [reflexivity | reflexivity | reflexivity | reflexivity | lia
    | reflexivity |].
  split; [|split].
  - apply (Habove 3 0). vm_compute. split; congruence.
  - apply (Habove 3 0). vm_compute. split; congruence.
  - apply (Hseq 1). simpl. lia.
Defined.


(** C8, as stated, fails at the boundary: on ">a\nAC\n" without index,
    position 2 is not below the length 2 of the sequence, yet
    [GetSequence (0, 0, 2)] returns "AC" and [GetBase (0, 2)] ends with
    [std::out_of_range] thrown by [sequence.at]; neither returns
    [false]. *)
Lemma sequential_boundary_no_error :
  fst (GetLength 0 (snd (CreateIndex "ref.fai"
                           (Samples.one_file "ref.fa" Samples.short)
                           (Samples.opened Samples.short)))) = Success 2 /\
  fst (GetSequence 0 0 2 (Samples.opened Samples.short))
  = Success (Samples.bytes "AC") /\
  fst (GetBase 0 2 (Samples.opened Samples.short)) = ThrowsOutOfRange /\
  (forall err,
     fst (GetSequence 0 0 2 (Samples.opened Samples.short)) <> Failure err /\
     fst (GetBase 0 2 (Samples.opened Samples.short)) <> Failure err).
Proof.
  repeat split; try reflexivity; vm_compute; discriminate.
Qed.

(** ** Invariants of the index builder on any file *)

Lemma cstr_length (buffer : list byte) :
  (length (cstr buffer) <= length buffer)%nat.
Proof.
  induction buffer as [|b t IH]; [simpl; lia|].
  simpl. destruct (Byte.eqb b NUL); simpl; lia.
Qed.

Lemma Chomp_loop_length (n : nat) :
  forall s, (length (Chomp_loop n s) <= length s)%nat.
Proof.
  induction n as [|n IH]; intros s; [simpl; lia|].
  cbn [Chomp_loop]. destruct (nth_error s n); [|lia].
  destruct (is_newline b); [|lia].
  specialize (IH (firstn n s)). rewrite length_firstn in IH. lia.
Qed.

Lemma Chomp_length (buffer : list byte) :
  (length (Chomp buffer) <= length buffer)%nat.
Proof.
  unfold Chomp. pose proof (Chomp_loop_length (strlen buffer) (cstr buffer)).
  pose proof (cstr_length buffer). lia.
Qed.

(** The sequence read is no longer than what was consumed, and the
    stream only moves forward. *)
Lemma GetNextSequence_loop_bounds (fuel : nat) :
  forall (f : FILE) (acc : list byte) (count : Z),
    let '(ok, s, f') := GetNextSequence_loop fuel f acc count in
    content f' = content f /\ (fpos f <= fpos f')%nat /\
    (length s + fpos f <= length acc + fpos f')%nat /\
    (fpos f' <= Nat.max (fpos f) (length (content f)))%nat.
Proof.
  induction fuel as [|fuel IH]; intros f acc count.
  - cbn [GetNextSequence_loop].
    destruct (Z.of_nat (length acc) <? count); repeat split; lia.
  - cbn [GetNextSequence_loop].
    destruct (Z.of_nat (length acc) <? count); [|repeat split; lia].
    pose proof (peek_general f) as Hp. cbv zeta in Hp.
    destruct (fgetc f) as [c f1]. cbn [fst snd] in Hp.
    set (f2 := ungetc (schar (char_of_int c)) f1) in *.
    destruct Hp as (Hc2 & Hp2 & Hmax).
    destruct (Byte.eqb (char_of_int c) GT || feof f2).
    + repeat split; try assumption; lia.
    + destruct (fgets 1024 f2) as [[buffer|] f3] eqn:Eg.
      * destruct (fgets_some _ _ _ _ Eg) as (Hc3 & Hp3 & Hl3).
        specialize (IH f3 (acc ++ Chomp buffer) count).
        destruct (GetNextSequence_loop fuel f3 (acc ++ Chomp buffer) count)
          as [[ok s] f'].
        destruct IH as (Hc & Hp & Hs & Hm).
        pose proof (Chomp_length buffer).
        rewrite length_app in Hs. rewrite remaining_len in Hl3.
        rewrite Hc3, Hc2 in *.
        repeat split; try congruence; lia.
      * destruct (fgets_none _ _ _ Eg) as (Hc3 & Hp3).
        repeat split; try congruence; lia.
Qed.

Lemma GetNextHeader_general (d d1 : FastaPrivate) (h : option (list byte)) :
  GetNextHeader d = (h, d1) ->
  exists f1,
    d1 = set_Stream d f1 /\ content f1 = content (Stream d) /\
    (h <> None ->
     (fpos (Stream d) < fpos f1 <= length (content (Stream d)))%nat).
Proof.
  unfold GetNextHeader.
  destruct (negb (IsOpen d) || feof (Stream d)).
  - intros H. injection H as <- <-. exists (Stream d).
    split; [destruct d; reflexivity|]. split; [reflexivity | congruence].
  - destruct (fgets 1024 (Stream d)) as [[buffer|] f] eqn:E.
    + destruct (fgets_some _ _ _ _ E) as (Hc & Hp & Hl).
      rewrite remaining_len in Hl.
      destruct (negb _); intros H; injection H as <- <-;
        exists f; repeat split; try assumption; lia.
    + destruct (fgets_none _ _ _ E) as (Hc & Hp).
      intros H. injection H as <- <-. exists f.
      repeat split; try assumption; congruence.
Qed.

Lemma GetNextSequence_general (count : Z) (d d2 : FastaPrivate)
    (ok : bool) (s : list byte) :
  GetNextSequence count d = (ok, s, d2) ->
  exists f2,
    d2 = set_Stream d f2 /\ content f2 = content (Stream d) /\
    (fpos (Stream d) <= fpos f2)%nat /\
    (length s + fpos (Stream d) <= fpos f2)%nat /\
    (fpos f2 <= Nat.max (fpos (Stream d)) (length (content (Stream d))))%nat.
Proof.
  unfold GetNextSequence.
  destruct (negb (IsOpen d) || feof (Stream d)).
  - intros H. injection H as <- <- <-. exists (Stream d).
    split; [destruct d; reflexivity|]. simpl. repeat split; lia.
  - pose proof (GetNextSequence_loop_bounds
                  (S (length (remaining (Stream d)))) (Stream d) [] count)
      as Hb.
    destruct (GetNextSequence_loop _ _ _ _) as [[ok' s'] f'].
    intros H. injection H as <- <- <-. exists f'.
    destruct Hb as (Hc & Hp & Hs & Hm). simpl in Hs.
    repeat split; try assumption.
Qed.

Lemma set_Stream_twice (d : FastaPrivate) (f g : FILE) :
  set_Stream (set_Stream d f) g = set_Stream d g.
Proof. destruct d; reflexivity. Qed.


Lemma first_line_loop_invariant (fuel : nat) :
  forall (c : byte) (f : FILE) (bl ll : Z),
    0 <= ll <= bl ->
    let '(bl', ll', f') := first_line_loop fuel c f bl ll in
    0 <= ll' <= bl' /\ content f' = content f.
Proof.
  induction fuel as [|fuel IH]; intros c f bl ll H.
  - cbn. split; [exact H | reflexivity].
  - cbn [first_line_loop].
    destruct ((0 <=? schar c) && negb (Byte.eqb c LF));
      [|split; [exact H | reflexivity]].
    destruct (fgetc f) as [c' f1] eqn:Ef.
    assert (Hc : content f1 = content f).
    { unfold fgetc in Ef. destruct (nth_error _ _);
        injection Ef as <- <-; reflexivity. }
    specialize (IH (char_of_int c') f1 (bl + 1)
                   (if isgraph (schar c) then ll + 1 else ll)).
    destruct (first_line_loop fuel (char_of_int c') f1 (bl + 1) _)
      as [[bl' ll'] f'].
    rewrite <- Hc. apply IH. destruct (isgraph (schar c)); lia.
Qed.


Lemma CreateIndex_success_scan (path : string) (fs fs' : filesystem)
    (d d' : FastaPrivate) :
  CreateIndex path fs d = (Success tt, fs', d') ->
  exists d1, CreateIndex_scan d = (Success tt, d1) /\ Index d' = Index d1.
Proof.
  unfold CreateIndex.
  destruct (CreateIndex_scan d) as [[[]| | | |] d1]; try discriminate.
  intros H. exists d1. split; [reflexivity|].
  destruct (negb (path =? "")%string).
  - destruct (fopen_wb fs path) as [fs1|]; [|discriminate].
    destruct (WriteIndexData fs1 _) as [[|] fs2]; [|discriminate].
    injection H as _ <-. reflexivity.
  - destruct (WriteIndexData fs d1) as [[|] fs2]; [|discriminate].
    injection H as _ <-. reflexivity.
Qed.






(** ** The index file: printing and parsing *)

Lemma digit_char_facts (d : Z) :
  0 <= d <= 9 ->
  isdigit (digit_char d) = true /\ digit_value (digit_char d) = d.
Proof.
  intros H.
  assert (C : d = 0 \/ d = 1 \/ d = 2 \/ d = 3 \/ d = 4 \/ d = 5 \/ d = 6
              \/ d = 7 \/ d = 8 \/ d = 9) by lia.
  repeat (destruct C as [-> | C]; [split; reflexivity|]).
  subst. split; reflexivity.
Qed.

Lemma isdigit_facts (b : byte) :
  isdigit b = true ->
  isspace b = false /\ b <> MINUS /\ b <> PLUS /\ b <> LF /\ b <> NUL.
Proof.
  destruct b; intros H; try discriminate H;
    repeat split; try reflexivity; intro; discriminate.
Qed.

Lemma digits_value_snoc (ds : list byte) (d : byte) :
  digits_value (ds ++ [d]) = 10 * digits_value ds + digit_value d.
Proof. unfold digits_value. rewrite fold_left_app. reflexivity. Qed.

(** The digits printed for [n] are digits, and read back as [n]. *)
Lemma dec_digits_spec (fuel : nat) :
  forall (n : Z) (acc : list byte),
    (0 < fuel)%nat -> 0 <= n < 10 ^ Z.of_nat fuel ->
    exists ds,
      dec_digits fuel n acc = ds ++ acc /\ ds <> [] /\
      Forall (fun b => isdigit b = true) ds /\ digits_value ds = n.
Proof.
  induction fuel as [|fuel IH]; intros n acc Hfuel Hn.
  - lia.
  - cbn [dec_digits].
    pose proof (Z.mod_pos_bound n 10 ltac:(lia)) as Hm.
    destruct (digit_char_facts (n mod 10) ltac:(lia)) as [Hd Hv].
    destruct (Z.ltb_spec n 10) as [Hlt | Hge].
    + exists [digit_char (n mod 10)]. repeat split.
      * discriminate.
      * constructor; [exact Hd | constructor].
      * unfold digits_value. cbn [fold_left]. rewrite Hv.
        rewrite Z.mod_small; lia.
    + destruct (IH (n / 10) (digit_char (n mod 10) :: acc))
        as (ds & E & Hne & Hds & Hval).
      { destruct fuel; [simpl in Hn|]; lia. }
      { rewrite Nat2Z.inj_succ, Z.pow_succ_r in Hn by lia.
        split; [apply Z.div_pos; lia|].
        apply Z.div_lt_upper_bound; lia. }
      exists (ds ++ [digit_char (n mod 10)]). repeat split.
      * rewrite E, <- app_assoc. reflexivity.
      * destruct ds; discriminate.
      * apply Forall_app. split; [exact Hds|].
        constructor; [exact Hd | constructor].
      * rewrite digits_value_snoc, Hval, Hv.
        pose proof (Z.div_mod n 10 ltac:(lia)). lia.
Qed.

Lemma span_run (p : byte -> bool) (ds : list byte) (c : byte)
    (rest : list byte) :
  Forall (fun b => p b = true) ds -> p c = false ->
  span p (ds ++ c :: rest) = (ds, c :: rest).
Proof.
  intros Hds Hc. induction Hds as [|b ds Hb Hds IH].
  - cbn. rewrite Hc. reflexivity.
  - cbn [app span]. rewrite Hb, IH. reflexivity.
Qed.

(** What [print_int] prints: an optional '-' and the digits of the
    absolute value. *)
Lemma print_int_shape (z : Z) :
  - 10 ^ 20 < z < 10 ^ 20 ->
  exists ds,
    print_int z = (if z <? 0 then [MINUS] else []) ++ ds /\ ds <> [] /\
    Forall (fun b => isdigit b = true) ds /\ digits_value ds = Z.abs z.
Proof.
  intros Hz. unfold print_int.
  destruct (Z.ltb_spec z 0) as [Hneg | Hpos].
  - destruct (dec_digits_spec 20 (- z) []) as (ds & E & Hne & Hds & Hv).
    { lia. }
    { change (Z.of_nat 20) with 20. lia. }
    exists ds. rewrite E, app_nil_r. repeat split; try assumption. lia.
  - destruct (dec_digits_spec 20 z []) as (ds & E & Hne & Hds & Hv).
    { lia. }
    { change (Z.of_nat 20) with 20. lia. }
    exists ds. rewrite E, app_nil_r. repeat split; try assumption. lia.
Qed.

Lemma print_int_text (z : Z) :
  - 10 ^ 20 < z < 10 ^ 20 ->
  Forall (fun b => b <> LF /\ b <> NUL) (print_int z).
Proof.
  intros Hz. destruct (print_int_shape z Hz) as (ds & -> & _ & Hds & _).
  apply Forall_app. split.
  - destruct (z <? 0); repeat constructor; discriminate.
  - eapply Forall_impl; [|exact Hds]. intros b Hb.
    destruct (isdigit_facts b Hb) as (_ & _ & _ & H1 & H2). split; assumption.
Qed.

(** Reading back a printed number that a non-digit follows. *)
Lemma get_int_print (lo hi z : Z) (c : byte) (rest : list byte) :
  lo <= z <= hi -> - 10 ^ 20 < z < 10 ^ 20 -> isdigit c = false ->
  get_int lo hi (mkSS (TAB :: print_int z ++ c :: rest) false false)
  = (Some z, mkSS (c :: rest) false false).
Proof.
  intros Hr Hz Hc.
  destruct (print_int_shape z Hz) as (ds & E & Hne & Hds & Hv).
  destruct ds as [|d0 ds']; [congruence|].
  assert (Hd0 : isdigit d0 = true) by (inversion Hds; assumption).
  destruct (isdigit_facts d0 Hd0) as (Hsp & Hmi & Hpl & _ & _).
  unfold get_int, sentry, good. cbn [failbit eofbit sbuf negb andb].
  rewrite E.
  destruct (Z.ltb_spec z 0) as [Hneg | Hpos]; cbn [app span].
  - change (isspace TAB) with true. change (isspace MINUS) with false.
    cbn [snd is_nil sbuf failbit eofbit].
    rewrite byte_eqb_refl.
    change (d0 :: ds' ++ c :: rest) with ((d0 :: ds') ++ c :: rest).
    rewrite (span_run isdigit (d0 :: ds') c rest Hds Hc).
    cbn [is_nil orb]. rewrite Hv.
    replace (- Z.abs z <? lo) with false by (symmetry; apply Z.ltb_ge; lia).
    replace (hi <? - Z.abs z) with false by (symmetry; apply Z.ltb_ge; lia).
    f_equal. f_equal. lia.
  - change (isspace TAB) with true. rewrite Hsp.
    cbn [snd is_nil sbuf failbit eofbit].
    rewrite (byte_eqb_neq _ _ Hmi), (byte_eqb_neq _ _ Hpl).
    change (d0 :: ds' ++ c :: rest) with ((d0 :: ds') ++ c :: rest).
    rewrite (span_run isdigit (d0 :: ds') c rest Hds Hc).
    cbn [is_nil orb]. rewrite Hv.
    replace (Z.abs z <? lo) with false by (symmetry; apply Z.ltb_ge; lia).
    replace (hi <? Z.abs z) with false by (symmetry; apply Z.ltb_ge; lia).
    f_equal. f_equal. lia.
Qed.

Lemma get_string_name (name rest : list byte) :
  name <> [] -> Forall (fun b => graphic b = true) name ->
  get_string (mkSS (name ++ TAB :: rest) false false)
  = (Some name, mkSS (TAB :: rest) false false).
Proof.
  intros Hne Hg.
  assert (Hns : Forall (fun b => negb (isspace b) = true) name).
  { eapply Forall_impl; [|exact Hg]. intros b Hb.
    destruct (graphic_facts b Hb) as (_ & _ & _ & _ & _ & _ & Hs & _).
    rewrite Hs. reflexivity. }
  destruct name as [|b name]; [congruence|].
  assert (Hb : isspace b = false).
  { inversion Hns as [|? ? H _]; subst. destruct (isspace b);
      [discriminate | reflexivity]. }
  unfold get_string, sentry, good. cbn [failbit eofbit sbuf negb andb].
  cbn [app span]. rewrite Hb. cbn [snd is_nil sbuf failbit eofbit].
  change (b :: name ++ TAB :: rest) with ((b :: name) ++ TAB :: rest).
  rewrite (span_run (fun b => negb (isspace b)) (b :: name) TAB rest Hns)
    by reflexivity.
  reflexivity.
Qed.

Lemma portable_ranges (e : FastaIndexData) :
  portable e ->
  - 10 ^ 20 < Length e < 10 ^ 20 /\ - 10 ^ 20 < Offset e < 10 ^ 20 /\
  - 10 ^ 20 < LineLength e < 10 ^ 20 /\ - 10 ^ 20 < ByteLength e < 10 ^ 20.
Proof.
  intros (_ & _ & H1 & H2 & H3 & H4 & _).
  unfold INT_MIN, INT_MAX, INT64_MIN, INT64_MAX in *. lia.
Qed.

(** The five extractions give back the entry a line was printed from. *)
Lemma parse_index_line_print (e : FastaIndexData) :
  portable e ->
  parse_index_line (mkSS (index_line e) false false)
  = (Some e, mkSS [LF] false false).
Proof.
  intros Hp. destruct (portable_ranges e Hp) as (R1 & R2 & R3 & R4).
  destruct Hp as (Hne & Hg & H1 & H2 & H3 & H4 & _).
  unfold parse_index_line, index_line, get_int32, get_int64.
  rewrite (get_string_name _ _ Hne Hg).
  rewrite (get_int_print _ _ (Length e) TAB) by (try assumption; reflexivity).
  rewrite (get_int_print _ _ (Offset e) TAB) by (try assumption; reflexivity).
  rewrite (get_int_print _ _ (LineLength e) TAB)
    by (try assumption; reflexivity).
  rewrite (get_int_print _ _ (ByteLength e) LF)
    by (try assumption; reflexivity).
  destruct e; reflexivity.
Qed.

Lemma index_line_text (e : FastaIndexData) :
  portable e ->
  exists x,
    index_line e = x ++ [LF] /\
    Forall (fun b => b <> LF) x /\ Forall (fun b => b <> NUL) (index_line e) /\
    exists b tl, x = b :: tl /\ b <> xff /\ b <> LF.
Proof.
  intros Hp. destruct (portable_ranges e Hp) as (R1 & R2 & R3 & R4).
  destruct Hp as (Hne & Hg & _).
  assert (Htext : Forall (fun b => b <> LF /\ b <> NUL)
                    (Name e ++ TAB :: print_int (Length e)
                       ++ TAB :: print_int (Offset e)
                       ++ TAB :: print_int (LineLength e)
                       ++ TAB :: print_int (ByteLength e))).
  { repeat (apply Forall_app; split);
      repeat (apply Forall_cons; [split; discriminate|]);
      try (apply print_int_text; assumption).
    - eapply Forall_impl; [|exact Hg]. intros b Hb.
      destruct (graphic_facts b Hb) as (Ha & Hb' & _). split; assumption.
    - apply Forall_app. split; [apply print_int_text; assumption|].
      repeat (apply Forall_cons; [split; discriminate|]).
      apply Forall_app. split; [apply print_int_text; assumption|].
      repeat (apply Forall_cons; [split; discriminate|]).
      apply Forall_app. split; [apply print_int_text; assumption|].
      repeat (apply Forall_cons; [split; discriminate|]).
      apply print_int_text; assumption. }
  eexists. split.
  - unfold index_line.
    repeat (rewrite ?app_comm_cons, ?app_assoc). reflexivity.
  - repeat (rewrite <- ?app_comm_cons, <- ?app_assoc).
    split; [|split].
    + eapply Forall_impl; [|exact Htext]. intros b [H _]. exact H.
    + unfold index_line.
      replace (Name e ++ TAB :: print_int (Length e)
                 ++ TAB :: print_int (Offset e)
                 ++ TAB :: print_int (LineLength e)
                 ++ TAB :: print_int (ByteLength e) ++ [LF])
        with ((Name e ++ TAB :: print_int (Length e)
                 ++ TAB :: print_int (Offset e)
                 ++ TAB :: print_int (LineLength e)
                 ++ TAB :: print_int (ByteLength e)) ++ [LF])
        by (repeat (rewrite <- ?app_comm_cons, <- ?app_assoc); reflexivity).
      apply Forall_app. split.
      * eapply Forall_impl; [|exact Htext]. intros b [_ H]. exact H.
      * repeat constructor. discriminate.
    + destruct (Name e) as [|b tl] eqn:En; [congruence|].
      exists b. eexists. split; [reflexivity|].
      assert (Hb : graphic b = true) by (inversion Hg; assumption).
      destruct (graphic_facts b Hb) as (_ & Hb1 & _ & Hb2 & _).
      split; assumption.
Qed.

(** ** Loading what was written *)

Lemma index_lines_length (es : list FastaIndexData) :
  (length es <= length (concat (map index_line es)))%nat.
Proof.
  induction es as [|e es IH]; [simpl; lia|].
  cbn [map concat]. rewrite length_app. unfold index_line at 1.
  rewrite !length_app. cbn [length]. rewrite !length_app. cbn [length].
  rewrite !length_app. cbn [length]. rewrite !length_app. cbn [length].
  lia.
Qed.






(** ** Termination: the loops are given enough iterations *)

Lemma first_line_loop_eof (fuel : nat) (f : FILE) (bl ll : Z) :
  first_line_loop fuel (char_of_int EOF) f bl ll = (bl, ll, f).
Proof. destruct fuel; reflexivity. Qed.

Lemma first_line_loop_fuel (fuel1 : nat) :
  forall (fuel2 : nat) (c : byte) (f : FILE) (bl ll : Z),
    (length (remaining f) < fuel1)%nat ->
    (length (remaining f) < fuel2)%nat ->
    first_line_loop fuel1 c f bl ll = first_line_loop fuel2 c f bl ll.
Proof.
  induction fuel1 as [|fuel1 IH]; intros fuel2 c f bl ll H1 H2; [lia|].
  destruct fuel2 as [|fuel2]; [lia|].
  cbn [first_line_loop].
  destruct ((0 <=? schar c) && negb (Byte.eqb c LF)); [|reflexivity].
  destruct (remaining f) as [|b rest] eqn:Er.
  - rewrite (fgetc_nil f Er), !first_line_loop_eof. reflexivity.
  - rewrite (fgetc_cons f b rest Er).
    apply IH; unfold remaining in *; cbn [content fpos];
      rewrite (skipn_S_of_cons _ _ _ _ Er); simpl in *; lia.
Qed.





(** ** The sample files *)

(** [Open] with a data file alone gives the session of the format. *)
Lemma Open_data_only (filename : string) (fs : filesystem)
    (data : list byte) :
  files fs filename = Some data ->
  Open filename "" fs FastaPrivate_ctor = (Success tt, Format.session data).
Proof. intros H. unfold Open, fopen_rb. rewrite H. reflexivity. Qed.

(** The scenario of the specification: two records, seq1 of 60 characters
    wrapped at 10 and seq2 of 5 characters. *)
Example scenario_two_records :
  Samples.two_records = render LineFeed Samples.two_records_format /\
  fst (GetLength 0 Samples.indexed_two) = Success 60 /\
  fst (GetLength 1 Samples.indexed_two) = Success 5 /\
  nth_error (rseq Samples.seq1) 15 = Some "T"%byte /\
  fst (GetBase 0 15 Samples.indexed_two) = Success "T"%byte /\
  fst (GetSequence 1 0 4 Samples.indexed_two) = Success (rseq Samples.seq2).
Proof. repeat split; reflexivity. Qed.

(** With "\r\n" terminators a line takes two bytes more than its
    characters, and both paths of [GetBase] still agree. *)
Example scenario_crlf :
  Samples.crlf = render CrLf Samples.crlf_format /\
  well_formed CrLf Samples.crlf_format = true /\
  uniform Samples.crlf_format = true /\
  Index (snd (CreateIndex "ref.fai"
                (Samples.one_file "ref.fa" Samples.crlf)
                (Samples.opened Samples.crlf)))
  = [mkData (Samples.bytes "s") 6 4 4 6] /\
  fst (GetBase 0 5 (snd (CreateIndex "ref.fai"
                           (Samples.one_file "ref.fa" Samples.crlf)
                           (Samples.opened Samples.crlf))))
  = Success "C"%byte /\
  fst (GetBase 0 5 (Samples.opened Samples.crlf)) = Success "C"%byte.
Proof. repeat split; reflexivity. Qed.

(** Lines longer than the buffer of the reader are read in pieces and
    put together again. *)
Example scenario_unwrapped :
  well_formed CrLf Samples.unwrapped_format = true /\
  Index Samples.indexed_unwrapped
  = [mkData (Samples.bytes "s") 2523 4 1501 1503] /\
  fst (GetSequence 0 0 2522 Samples.indexed_unwrapped)
  = Success (repeat "A"%byte 1500 ++ Samples.bytes "C"
             ++ repeat "G"%byte 1021 ++ Samples.bytes "T") /\
  fst (GetSequence 0 1499 1501 Samples.indexed_unwrapped)
  = Success (Samples.bytes "ACG") /\
  fst (GetBase 0 1500 (Samples.opened Samples.unwrapped)) = Success "C"%byte.
Proof. repeat split; vm_compute; reflexivity. Qed.

(** A file that does not start with the record-start marker: the build
    fails on the header test and the table is empty. *)
Example scenario_no_marker :
  fst (fst (CreateIndex "ref.fai"
              (Samples.one_file "ref.fa" Samples.no_marker)
              (Samples.opened Samples.no_marker)))
  = Failure ExpectedHeader /\
  kind_of ExpectedHeader = FormatError /\
  Index (snd (CreateIndex "ref.fai"
                (Samples.one_file "ref.fa" Samples.no_marker)
                (Samples.opened Samples.no_marker))) = [].
Proof. repeat split; reflexivity. Qed.

(** [GetLength] before any index is built or loaded. *)
Example scenario_no_index :
  GetLength 0 (Samples.opened Samples.two_records)
  = (Failure NoIndex, Samples.opened Samples.two_records) /\
  kind_of NoIndex = NotIndexedError.
Proof. split; reflexivity. Qed.

(** * Further properties of the code *)

(** ** Chomp *)

Lemma Chomp_loop_spec (n : nat) :
  forall s : list byte,
    length s = n ->
    exists tail,
      s = Chomp_loop n s ++ tail /\
      Forall (fun b => is_newline b = true) tail /\
      (forall s' b, Chomp_loop n s = s' ++ [b] -> is_newline b = false).
Proof.
  induction n as [|n IH]; intros s Hlen.
  - destruct s; [|discriminate]. exists []. cbn. repeat split.
    + constructor.
    + intros s' b H. destruct s'; discriminate.
  - destruct s as [|c s0 _] using rev_ind; [discriminate|].
    rewrite length_app in Hlen. cbn [length] in Hlen.
    assert (Hn : length s0 = n) by lia.
    cbn [Chomp_loop].
    rewrite nth_error_app2, <- Hn, Nat.sub_diag by lia. cbn [nth_error].
    destruct (is_newline c) eqn:Ec.
    + rewrite firstn_app, firstn_all, Nat.sub_diag. cbn [firstn].
      rewrite app_nil_r. rewrite Hn.
      destruct (IH s0 Hn) as (tail & E & Ht & Hlast).
      exists (tail ++ [c]). split; [|split].
      * rewrite app_assoc, <- E. reflexivity.
      * apply Forall_app. split; [exact Ht|]. repeat constructor. exact Ec.
      * exact Hlast.
    + exists []. rewrite app_nil_r. split; [reflexivity|].
      split; [constructor|].
      intros s' b H. apply app_inj_tail in H. destruct H as [_ <-].
      exact Ec.
Qed.

(** X1. [Chomp] removes from the C string in the buffer its whole run of
    trailing line feeds and carriage returns, and nothing else: what is
    left is a prefix that does not end with either. *)
Theorem Chomp_trailing_newlines (buffer : list byte) :
  exists tail,
    cstr buffer = Chomp buffer ++ tail /\
    Forall (fun b => b = LF \/ b = CR) tail /\
    (forall s b, Chomp buffer = s ++ [b] -> b <> LF /\ b <> CR).
Proof.
  unfold Chomp, strlen.
  destruct (Chomp_loop_spec (length (cstr buffer)) (cstr buffer) eq_refl)
    as (tail & E & Ht & Hlast).
  exists tail. split; [exact E|]. split.
  - eapply Forall_impl; [|exact Ht]. intros b Hb.
    unfold is_newline in Hb. apply orb_true_iff in Hb.
    destruct Hb as [Hb | Hb]; apply Byte.byte_dec_bl in Hb; auto.
  - intros s b H. specialize (Hlast s b H). unfold is_newline in Hlast.
    apply orb_false_iff in Hlast. destruct Hlast as [H1 H2].
    split; intros ->; discriminate.
Qed.

(** ** GetNameFromHeader *)

Lemma split_while (p : byte -> bool) (s : list byte) :
  exists a r,
    s = a ++ r /\ Forall (fun b => p b = true) a /\
    (r = [] \/ exists b r', r = b :: r' /\ p b = false).
Proof.
  induction s as [|b s (a & r & E & Ha & Hr)].
  - exists [], []. repeat split; [constructor | left; reflexivity].
  - destruct (p b) eqn:Eb.
    + exists (b :: a), r. rewrite E. repeat split.
      * constructor; assumption.
      * exact Hr.
    + exists [], (b :: s). repeat split; [constructor|].
      right. exists b, s. split; [reflexivity | exact Eb].
Qed.

(** The first loop stops after the white space at the front. *)
Lemma name_start_run (ws : list byte) :
  forall (pre rest : list byte) (fuel : nat),
    Forall (fun b => is_blank b = true) ws ->
    (rest = [] \/ exists b r, rest = b :: r /\ is_blank b = false) ->
    (length ws < fuel)%nat ->
    name_start fuel (pre ++ ws ++ rest) (length (pre ++ ws ++ rest))
               (length pre)
    = (length pre + length ws)%nat.
Proof.
  induction ws as [|w ws IH]; intros pre rest fuel Hws Hrest Hf.
  - destruct fuel; [simpl in Hf; lia|]. cbn [name_start app].
    unfold char_at.
    destruct Hrest as [-> | (b & r & -> & Hb)].
    + rewrite app_nil_r, nth_overflow by lia.
      change (is_blank NUL) with false. cbv iota. simpl. lia.
    + rewrite app_nth2, Nat.sub_diag by lia. cbn [nth]. rewrite Hb.
      simpl. lia.
  - destruct fuel; [simpl in Hf; lia|]. cbn [name_start].
    inversion Hws as [|? ? Hw Hws']; subst.
    unfold char_at at 1. rewrite app_nth2, Nat.sub_diag by lia.
    cbn [app nth]. rewrite Hw.
    destruct (S (length pre) =? length (pre ++ w :: ws ++ rest))%nat eqn:En.
    + apply Nat.eqb_eq in En. rewrite !length_app in En. cbn [length] in En.
      rewrite length_app in En. cbn [length]. lia.
    + replace (pre ++ w :: ws ++ rest) with ((pre ++ [w]) ++ ws ++ rest)
        by (rewrite <- app_assoc; reflexivity).
      replace (S (length pre)) with (length (pre ++ [w]))
        by (rewrite length_app; simpl; lia).
      rewrite IH by (try assumption; simpl in Hf; lia).
      rewrite length_app. simpl. lia.
Qed.

(** The second loop stops after the characters of the name, at white
    space or at the end of the string. *)
Lemma name_stop_segment (seg : list byte) :
  forall (pre rest : list byte) (fuel : nat),
    Forall (fun b => is_blank b = false) seg ->
    (rest = [] \/ exists b r, rest = b :: r /\ is_blank b = true) ->
    (length pre < length (pre ++ seg ++ rest))%nat ->
    (length seg < fuel)%nat ->
    name_stop fuel (pre ++ seg ++ rest) (length (pre ++ seg ++ rest))
              (length pre)
    = (length pre + length seg)%nat.
Proof.
  induction seg as [|c seg IH]; intros pre rest fuel Hseg Hrest Hlt Hf.
  - destruct Hrest as [-> | (b & r & -> & Hb)].
    + cbn [app] in Hlt. rewrite app_nil_r in Hlt. lia.
    + apply (name_stop_run [] pre r b fuel); [constructor | exact Hb | exact Hf].
  - destruct fuel; [simpl in Hf; lia|]. cbn [name_stop].
    inversion Hseg as [|? ? Hc Hseg']; subst.
    unfold char_at at 1. rewrite app_nth2, Nat.sub_diag by lia.
    cbn [app nth]. rewrite Hc. cbn [negb].
    destruct (S (length pre) =? length (pre ++ c :: seg ++ rest))%nat eqn:En.
    + apply Nat.eqb_eq in En. rewrite !length_app in En. cbn [length] in En.
      rewrite length_app in En. cbn [length]. lia.
    + apply Nat.eqb_neq in En.
      replace (pre ++ c :: seg ++ rest) with ((pre ++ [c]) ++ seg ++ rest)
        in * by (rewrite <- app_assoc; reflexivity).
      replace (S (length pre)) with (length (pre ++ [c])) in *
        by (rewrite length_app; simpl; lia).
      rewrite IH; try assumption.
      * rewrite length_app. simpl. lia.
      * rewrite !length_app in *. cbn [length] in *. lia.
      * simpl in Hf. lia.
Qed.

(** A string splits into the white space at its front, the run of other
    characters after it, and the rest, which starts with white space. *)
Lemma first_word_decomposition (s : list byte) :
  exists ws seg rest,
    s = ws ++ seg ++ rest /\
    Forall (fun b => is_blank b = true) ws /\
    Forall (fun b => is_blank b = false) seg /\
    (rest = [] \/ exists b r, rest = b :: r /\ is_blank b = true) /\
    (seg = [] -> rest = []).
Proof.
  destruct (split_while is_blank s) as (ws & r1 & E1 & Hws & Hr1).
  destruct (split_while (fun b => negb (is_blank b)) r1)
    as (seg & rest & E2 & Hseg & Hrest).
  assert (Hseg' : Forall (fun b => is_blank b = false) seg).
  { eapply Forall_impl; [|exact Hseg]. intros b Hb.
    apply negb_true_iff in Hb. exact Hb. }
  assert (Hrest' : rest = [] \/ exists b r, rest = b :: r /\ is_blank b = true).
  { destruct Hrest as [-> | (b & r & -> & Hb)]; [left; reflexivity|].
    right. exists b, r. split; [reflexivity|].
    apply negb_false_iff in Hb. exact Hb. }
  exists ws, seg, rest. rewrite E1, E2. repeat split; try assumption.
  intros ->. cbn [app] in E2. subst r1.
  destruct Hr1 as [H | (b & r & -> & Hb)]; [exact H|].
  destruct Hrest' as [H | (b' & r' & H & Hb')]; [exact H|].
  injection H as <- <-. congruence.
Qed.

(** What the two loops of [GetNameFromHeader] compute on a header split
    in this way. *)
Lemma GetNameFromHeader_decomposed (header ws seg rest : list byte) :
  skipn 1 header = ws ++ seg ++ rest ->
  Forall (fun b => is_blank b = true) ws ->
  Forall (fun b => is_blank b = false) seg ->
  (rest = [] \/ exists b r, rest = b :: r /\ is_blank b = true) ->
  (seg = [] -> rest = []) ->
  GetNameFromHeader header
  = match seg with [] => None | _ => Some (cstr seg) end.
Proof.
  intros Es Hws Hseg' Hrest' Hcanon.
  unfold GetNameFromHeader. rewrite Es.
  set (s := ws ++ seg ++ rest).
  assert (Hstart : name_start (S (length s)) s (length s) 0 = length ws).
  { apply (name_start_run ws [] (seg ++ rest)); [exact Hws | |].
    - destruct seg as [|c seg].
      + rewrite (Hcanon eq_refl). left. reflexivity.
      + right. exists c, (seg ++ rest). split; [reflexivity|].
        inversion Hseg'; assumption.
    - unfold s. rewrite length_app. lia. }
  rewrite Hstart.
  destruct seg as [|c seg].
  - unfold s. rewrite (Hcanon eq_refl). cbn [app]. rewrite app_nil_r.
    replace (length ws <? length ws)%nat with false
      by (symmetry; apply Nat.ltb_ge; lia).
    rewrite Nat.eqb_refl. reflexivity.
  - replace (length ws <? length s)%nat with true
      by (symmetry; apply Nat.ltb_lt; unfold s; rewrite !length_app;
          simpl; lia).
    assert (Hstop : name_stop (S (length s)) s (length s) (length ws)
                    = (length ws + length (c :: seg))%nat).
    { apply (name_stop_segment (c :: seg) ws rest); try assumption.
      - rewrite !length_app. simpl. lia.
      - unfold s. rewrite !length_app. lia. }
    rewrite Hstop.
    replace (length ws =? length ws + length (c :: seg))%nat with false
      by (symmetry; apply Nat.eqb_neq; simpl; lia).
    replace (length ws + length (c :: seg) - length ws)%nat
      with (length (c :: seg)) by lia.
    unfold s. rewrite skipn_app, skipn_all, Nat.sub_diag. cbn [skipn app].
    change (c :: seg ++ rest) with ((c :: seg) ++ rest).
    rewrite firstn_app, firstn_all, Nat.sub_diag. cbn [firstn].
    rewrite app_nil_r. reflexivity.
Qed.

(** X2. [GetNameFromHeader] drops the first character of the header and
    the white space (space, tab, line feed, carriage return) after it,
    and returns the characters up to the next white space or the end,
    read as a C string; it returns [false] exactly when nothing but
    white space follows the first character. *)
Theorem GetNameFromHeader_first_word (header : list byte) :
  exists ws seg rest,
    skipn 1 header = ws ++ seg ++ rest /\
    Forall (fun b => is_blank b = true) ws /\
    Forall (fun b => is_blank b = false) seg /\
    (rest = [] \/ exists b r, rest = b :: r /\ is_blank b = true) /\
    (seg = [] -> rest = []) /\
    GetNameFromHeader header
    = match seg with [] => None | _ => Some (cstr seg) end.
Proof.
  destruct (first_word_decomposition (skipn 1 header))
    as (ws & seg & rest & Es & Hws & Hseg & Hrest & Hcanon).
  exists ws, seg, rest. repeat split; try assumption.
  apply (GetNameFromHeader_decomposed header ws seg rest); assumption.
Qed.

(** ** GetNextSequence *)

Lemma Chomp_prefix (buffer : list byte) :
  exists tail,
    cstr buffer = Chomp buffer ++ tail /\
    (forall s b, Chomp buffer = s ++ [b] -> is_newline b = false).
Proof.
  unfold Chomp, strlen.
  destruct (Chomp_loop_spec (length (cstr buffer)) (cstr buffer) eq_refl)
    as (tail & E & _ & Hlast).
  exists tail. split; assumption.
Qed.

Lemma cstr_prefix (buffer : list byte) :
  exists t, buffer = cstr buffer ++ t.
Proof.
  induction buffer as [|b buffer (t & E)]; [exists []; reflexivity|].
  cbn [cstr]. destruct (Byte.eqb b NUL).
  - exists (b :: buffer). reflexivity.
  - exists t. cbn [app]. rewrite <- E. reflexivity.
Qed.

Lemma cstr_NUL_free (buffer : list byte) :
  Forall (fun b => b <> NUL) (cstr buffer).
Proof.
  induction buffer as [|b buffer IH]; [constructor|].
  cbn [cstr]. destruct (Byte.eqb b NUL) eqn:E; [constructor|].
  constructor; [|exact IH]. intros ->. discriminate.
Qed.

(** [fgets] stops at the first line feed: one is found only at the end
    of what it stores. *)
Lemma fgets_bytes_LF (k : nat) :
  forall (l a rest : list byte),
    fst (fgets_bytes k l) = a ++ LF :: rest -> rest = [].
Proof.
  induction k as [|k IH]; intros l a rest H.
  - destruct a; discriminate.
  - destruct l as [|b l]; [destruct a; discriminate|].
    cbn [fgets_bytes] in H. destruct (Byte.eqb b LF) eqn:Eb.
    + cbn [fst] in H. destruct a as [|a0 a]; [injection H as _ <-; reflexivity|].
      injection H as _ H. destruct a; discriminate.
    + specialize (IH l). destruct (fgets_bytes k l) as [r e].
      cbn [fst] in *. destruct a as [|a0 a].
      * injection H as -> _. discriminate.
      * injection H as _ H. apply (IH a rest H).
Qed.

Lemma fgets_buffer (n : nat) (f f' : FILE) (buffer : list byte) :
  fgets n f = (Some buffer, f') ->
  buffer = fst (fgets_bytes (n - 1) (remaining f)).
Proof.
  unfold fgets. destruct (fgets_bytes (n - 1) (remaining f)) as [l hit].
  destruct l; [discriminate|]. intros H. injection H as <- _. reflexivity.
Qed.

Lemma fgets_bytes_bound (k : nat) :
  forall l, (length (fst (fgets_bytes k l)) <= k)%nat.
Proof.
  induction k as [|k IH]; intros l; [simpl; lia|].
  destruct l as [|b l]; [simpl; lia|]. cbn [fgets_bytes].
  destruct (Byte.eqb b LF); [simpl; lia|].
  specialize (IH l). destruct (fgets_bytes k l) as [r e]. simpl in *. lia.
Qed.

(** What [Chomp] leaves of a buffer filled by [fgets]. *)
Lemma Chomp_fgets (n : nat) (f f' : FILE) (buffer : list byte) :
  fgets n f = (Some buffer, f') ->
  Forall (fun b => b <> LF /\ b <> NUL) (Chomp buffer) /\
  (length (Chomp buffer) <= n - 1)%nat.
Proof.
  intros Hg. pose proof (fgets_buffer _ _ _ _ Hg) as Hb.
  destruct (Chomp_prefix buffer) as (tail & E & Hlast).
  destruct (cstr_prefix buffer) as (t & Et).
  split.
  - apply Forall_forall. intros b Hin. split.
    + intros ->. apply in_split in Hin. destruct Hin as (a & r & Ea).
      assert (Hr : r ++ tail ++ t = []).
      { apply (fgets_bytes_LF (n - 1) (remaining f) a).
        rewrite <- Hb, Et, E, Ea, <- !app_assoc. reflexivity. }
      apply app_eq_nil in Hr. destruct Hr as [-> _].
      specialize (Hlast a LF Ea). discriminate.
    + pose proof (cstr_NUL_free buffer) as HN. rewrite E in HN.
      apply Forall_app in HN. destruct HN as [HN _].
      rewrite Forall_forall in HN. apply HN. exact Hin.
  - pose proof (Chomp_length buffer).
    pose proof (fgets_bytes_bound (n - 1) (remaining f)).
    rewrite <- Hb in *. lia.
Qed.

Lemma GetNextSequence_loop_text (fuel : nat) :
  forall (f : FILE) (acc : list byte) (count : Z),
    Forall (fun b => b <> LF /\ b <> NUL) acc ->
    let s := snd (fst (GetNextSequence_loop fuel f acc count)) in
    Forall (fun b => b <> LF /\ b <> NUL) s /\
    (count <= Z.of_nat (length acc) -> s = acc) /\
    Z.of_nat (length s) <= Z.max (Z.of_nat (length acc)) (count + 1022).
Proof.
  induction fuel as [|fuel IH]; intros f acc count Hacc.
  - cbn [GetNextSequence_loop].
    destruct (Z.of_nat (length acc) <? count); cbn [fst snd];
      repeat split; try assumption; lia.
  - cbn [GetNextSequence_loop].
    destruct (Z.of_nat (length acc) <? count) eqn:Ec;
      [|cbn [fst snd]; repeat split; try assumption; lia].
    apply Z.ltb_lt in Ec.
    destruct (fgetc f) as [c f1].
    destruct (Byte.eqb (char_of_int c) GT || feof _);
      [cbn [fst snd]; repeat split; try assumption; lia|].
    destruct (fgets 1024 _) as [[buffer|] f3] eqn:Eg;
      [|cbn [fst snd]; repeat split; try assumption; lia].
    destruct (Chomp_fgets _ _ _ _ Eg) as [Ht Hl].
    specialize (IH f3 (acc ++ Chomp buffer) count).
    cbv zeta in IH. destruct IH as (H1 & _ & H3).
    { apply Forall_app. split; assumption. }
    split; [exact H1|]. split; [lia|].
    rewrite length_app in H3. lia.
Qed.

(** X3. The sequence [GetNextSequence] hands back holds no line feed and
    no NUL, is empty for a count of zero, and is longer than the count
    asked for by less than one buffer (lines are read whole, 1023
    characters at most at a time). *)
Theorem GetNextSequence_text (count : Z) (d : FastaPrivate) :
  let sequence := snd (fst (GetNextSequence count d)) in
  Forall (fun b => b <> LF /\ b <> NUL) sequence /\
  (count <= 0 -> sequence = []) /\
  Z.of_nat (length sequence) <= Z.max 0 (count + 1022).
Proof.
  unfold GetNextSequence.
  destruct (negb (IsOpen d) || feof (Stream d)).
  - cbn [fst snd]. repeat split; [constructor | simpl; lia].
  - pose proof (GetNextSequence_loop_text
                  (S (length (remaining (Stream d)))) (Stream d) [] count
                  (Forall_nil _)) as H.
    cbv zeta in H.
    destruct (GetNextSequence_loop _ _ _ _) as [[ok s] f'].
    cbn [fst snd length] in *. exact H.
Qed.

(** ** GetSequence: both paths, up to the end of the sequence *)








(** ** GetBase on the indexed path, at the position after the last character *)






(** ** GetLength on the table of the file *)

Lemma GetLength_on_table (t : terminator) (rs : list record)
    (d : FastaPrivate) (refId : Z) (r : record) :
  well_formed t rs = true ->
  IsOpen d = true -> Index d = index_table t rs ->
  0 <= refId -> nth_error rs (Z.to_nat refId) = Some r ->
  GetLength refId d = (Success (Z.of_nat (length (rseq r))), d).
Proof.
  intros Hwf Hopen Hindex H0 Hr.
  destruct (well_formed_parts _ _ Hwf) as (_ & _ & Hsize).
  destruct (index_of_nth t (line_length rs) (byte_length t rs) rs
              (Z.to_nat refId) 0 r [] Hr eq_refl) as (o & E & _).
  fold (index_table t rs) in E. rewrite <- Hindex in E.
  assert (Hlt : (Z.to_nat refId < length rs)%nat)
    by (apply nth_error_Some; congruence).
  pose proof (render_length t rs) as Hrl.
  assert (Hrange : 0 <= refId <= SIZE_MAX)
    by (unfold SIZE_MAX; unfold INT_MAX in *; lia).
  rewrite GetLength_with_table.
  - rewrite (at_in_range _ _ _ Hrange E). reflexivity.
  - exact Hopen.
  - right. intros Hnil. rewrite Hnil in E.
    destruct (Z.to_nat refId); discriminate.
Qed.

(** X6. After a successful [CreateIndex] over a data file in the format,
    wrapped in any way, [GetLength] returns for every record the number of
    characters of its de-wrapped sequence, and leaves the session as it
    was. *)
Theorem GetLength_sequence_length (t : terminator) (rs : list record)
    (path : string) (fs fs' : filesystem) (d0 d : FastaPrivate)
    (refId : Z) (r : record) :
  well_formed t rs = true ->
  IsOpen d0 = true -> content (Stream d0) = render t rs ->
  CreateIndex path fs d0 = (Success tt, fs', d) ->
  0 <= refId -> nth_error rs (Z.to_nat refId) = Some r ->
  GetLength refId d = (Success (Z.of_nat (length (rseq r))), d).
Proof.
  intros Hwf Hopen0 Hcontent0 Hci H0 Hr.
  destruct (CreateIndex_success_indexed_on _ _ _ _ _ _ _
              Hwf Hopen0 Hcontent0 Hci) as (Hopen & _ & _ & Hindex).
  apply (GetLength_on_table t rs d refId r); assumption.
Qed.

Lemma GetLength_sequence_length_witness :
  GetLength 0 Samples.indexed_unwrapped
  = (Success (Z.of_nat (length (rseq (hd Samples.seq1
                                         Samples.unwrapped_format)))),
     Samples.indexed_unwrapped).
Proof.
  refine (GetLength_sequence_length CrLf Samples.unwrapped_format
            "ref.fai" (Samples.one_file "ref.fa" Samples.unwrapped)
            (snd (fst (CreateIndex "ref.fai"
                         (Samples.one_file "ref.fa" Samples.unwrapped)
                         (Samples.opened Samples.unwrapped))))
            (Samples.opened Samples.unwrapped) Samples.indexed_unwrapped
            0 (hd Samples.seq1 Samples.unwrapped_format) _ _ _ _ _ _).
  - vm_compute. reflexivity.
  - reflexivity.
  - reflexivity.
  - vm_compute. reflexivity.
  - lia.
  - reflexivity.
Defined.

(** ** CreateIndex when the index file cannot be written *)

(** X7. When the index file cannot be opened for writing, [CreateIndex]
    on a data file in the format returns [false] and creates nothing, but
    only after it has replaced the table in memory: [GetLength] then
    answers from that table, while [HasIndex] is left as it was, so that
    a session that was not indexed keeps reading sequentially. *)
Theorem CreateIndex_unwritable (t : terminator) (rs : list record)
    (path : string) (fs : filesystem) (d : FastaPrivate) :
  well_formed t rs = true ->
  IsOpen d = true -> content (Stream d) = render t rs ->
  path <> EmptyString -> writable fs path = false ->
  exists d',
    CreateIndex path fs d = (Failure CouldNotOpenIndex, fs, d') /\
    IsOpen d' = true /\ HasIndex d' = HasIndex d /\
    Index d' = index_table t rs /\
    (forall refId r,
       0 <= refId -> nth_error rs (Z.to_nat refId) = Some r ->
       GetLength refId d' = (Success (Z.of_nat (length (rseq r))), d')).
Proof.
  intros Hwf Hopen Hcontent Hpath Hw.
  destruct (CreateIndex_scan_well_formed t rs d Hwf Hopen Hcontent)
    as (f' & E & _).
  unfold CreateIndex. rewrite E.
  apply String.eqb_neq in Hpath. rewrite Hpath. cbn [negb].
  unfold fopen_wb. rewrite Hw.
  eexists. split; [reflexivity|]. cbn [IsOpen HasIndex Index].
  repeat split.
  intros refId r H0 Hr.
  apply (GetLength_on_table t rs _ refId r); try assumption; reflexivity.
Qed.

Lemma CreateIndex_unwritable_witness :
  exists d',
    CreateIndex "ref.fai" (Samples.read_only "ref.fa" Samples.two_records)
                (Samples.opened Samples.two_records)
    = (Failure CouldNotOpenIndex,
       Samples.read_only "ref.fa" Samples.two_records, d') /\
    IsOpen d' = true /\
    HasIndex d' = HasIndex (Samples.opened Samples.two_records) /\
    Index d' = index_table LineFeed Samples.two_records_format /\
    (forall refId r,
       0 <= refId ->
       nth_error Samples.two_records_format (Z.to_nat refId) = Some r ->
       GetLength refId d' = (Success (Z.of_nat (length (rseq r))), d')).
Proof.
  apply (CreateIndex_unwritable LineFeed Samples.two_records_format
           "ref.fai" (Samples.read_only "ref.fa" Samples.two_records)
           (Samples.opened Samples.two_records)).
  - reflexivity.
  - reflexivity.
  - reflexivity.
  - discriminate.
  - reflexivity.
Defined.

(** ** Close *)

(** X8. [Close] returns [true] and leaves a session on which [GetBase],
    [GetSequence], [GetLength] and [CreateIndex] all return [false]
    ("file not open") without changing anything; closing again changes
    nothing; the table is not cleared. *)
Theorem Close_closes (d : FastaPrivate) :
  fst (Close d) = true /\
  IsOpen (snd (Close d)) = false /\
  Index (snd (Close d)) = Index d /\
  Close (snd (Close d)) = (true, snd (Close d)) /\
  (forall refId position,
     GetBase refId position (snd (Close d))
     = (Failure FileNotOpen, snd (Close d))) /\
  (forall refId start stop,
     GetSequence refId start stop (snd (Close d))
     = (Failure FileNotOpen, snd (Close d))) /\
  (forall refId,
     GetLength refId (snd (Close d)) = (Failure FileNotOpen, snd (Close d))) /\
  (forall indexFilename fs,
     CreateIndex indexFilename fs (snd (Close d))
     = (Failure FileNotOpen, fs, snd (Close d))).
Proof.
  destruct d as [f isopen ixs hasix ixopen index].
  destruct isopen, hasix, ixopen; repeat split.
Qed.

(** X9. Neither [Close] nor [Open] clears the table. After [Close] and
    [Open] of any data file with no index file, the session holds the
    table it had before, [GetLength] answers from it, and the session is
    still marked indexed when the index file was not open at [Close],
    which is how a successful [CreateIndex] leaves it. *)
Theorem reopen_keeps_table (d : FastaPrivate) (filename : string)
    (fs : filesystem) (data : list byte) :
  files fs filename = Some data ->
  fst (Open filename "" fs (snd (Close d))) = Success tt /\
  IsOpen (snd (Open filename "" fs (snd (Close d)))) = true /\
  Stream (snd (Open filename "" fs (snd (Close d)))) = mkFILE data 0 false /\
  Index (snd (Open filename "" fs (snd (Close d)))) = Index d /\
  HasIndex (snd (Open filename "" fs (snd (Close d))))
  = HasIndex d && negb (IsIndexOpen d) /\
  (forall indexFilename fs0 fs1 d0,
     CreateIndex indexFilename fs0 d0 = (Success tt, fs1, d) ->
     HasIndex (snd (Open filename "" fs (snd (Close d)))) = true) /\
  (forall refId e,
     entry_at d refId e -> refId <= INT_MAX ->
     fst (GetLength refId (snd (Open filename "" fs (snd (Close d)))))
     = Success (Length e)).
Proof.
  intros Hdata. unfold Open, fopen_rb. rewrite Hdata.
  cbn [String.eqb negb fst snd IsOpen Stream Index HasIndex].
  assert (Hix : Index (snd (Close d)) = Index d)
    by (destruct d as [f [|] ixs [|] [|] index]; reflexivity).
  assert (Hhas : HasIndex (snd (Close d)) = HasIndex d && negb (IsIndexOpen d))
    by (destruct d as [f [|] ixs [|] [|] index]; reflexivity).
  repeat split; try assumption.
  - intros path fs0 fs1 d0 Hci. rewrite Hhas.
    unfold CreateIndex in Hci.
    destruct (CreateIndex_scan d0) as [[[]| | | |] d1]; try discriminate.
    destruct (negb (path =? "")%string).
    + destruct (fopen_wb fs0 path) as [fs2|]; [|discriminate].
      destruct (WriteIndexData fs2 _) as [[|] fs3]; [|discriminate].
      injection Hci as _ <-. reflexivity.
    + destruct (WriteIndexData fs0 d1) as [[|] fs3]; [|discriminate].
      injection Hci as _ <-. reflexivity.
  - intros refId e He Hmax.
    pose proof (entry_at_bound _ _ _ He) as Hb. destruct He as [H0 He].
    rewrite GetLength_with_table.
    + cbn [Index fst]. rewrite Hix.
      rewrite (at_in_range _ _ e); [reflexivity | | exact He].
      unfold SIZE_MAX; unfold INT_MAX in *; lia.
    + reflexivity.
    + right. cbn [Index]. rewrite Hix. intros Hnil. rewrite Hnil in He.
      destruct (Z.to_nat refId); discriminate.
Qed.

Lemma reopen_keeps_table_witness :
  HasIndex (snd (Open "other.fa" ""
                   (Samples.with_other Samples.two_records Samples.short)
                   (snd (Close Samples.indexed_two)))) = true /\
  Stream (snd (Open "other.fa" ""
                 (Samples.with_other Samples.two_records Samples.short)
                 (snd (Close Samples.indexed_two))))
  = mkFILE Samples.short 0 false /\
  fst (GetLength 0 (snd (Open "other.fa" ""
                           (Samples.with_other Samples.two_records
                              Samples.short)
                           (snd (Close Samples.indexed_two)))))
  = Success 60.
Proof.
  destruct (reopen_keeps_table Samples.indexed_two "other.fa"
              (Samples.with_other Samples.two_records Samples.short)
              Samples.short eq_refl)
    as (_ & _ & Hs & _ & _ & Hci & Hlen).
  split; [|split].
  - apply (Hci "ref.fai"%string
               (Samples.one_file "ref.fa" Samples.two_records)
               (snd (fst (CreateIndex "ref.fai"
                            (Samples.one_file "ref.fa" Samples.two_records)
                            (Samples.opened Samples.two_records))))
               (Samples.opened Samples.two_records)).
    vm_compute. reflexivity.
  - exact Hs.
  - apply (Hlen 0 (mkData (Samples.bytes "seq1") 60 12 10 11)).
    + split; [lia | reflexivity].
    + vm_compute. congruence.
Defined.

(** ** Open *)

(** X10. [Open] with the name of an index file that does not exist
    returns [false], but only after it has opened the data file: what is
    left is the session [Open] without index file gives, on which
    [GetBase] reads the file sequentially and [GetLength] returns [false]
    for want of an index. *)
Theorem Open_missing_index (t : terminator) (rs : list record)
    (filename indexFilename : string) (fs : filesystem)
    (refId position : Z) (r : record) (base : byte) :
  files fs filename = Some (render t rs) ->
  indexFilename <> EmptyString -> files fs indexFilename = None ->
  well_formed t rs = true ->
  0 <= refId -> nth_error rs (Z.to_nat refId) = Some r ->
  0 <= position -> nth_error (rseq r) (Z.to_nat position) = Some base ->
  Open filename indexFilename fs FastaPrivate_ctor
  = (Failure CouldNotOpenIndex, Format.session (render t rs)) /\
  Open filename "" fs FastaPrivate_ctor
  = (Success tt, Format.session (render t rs)) /\
  fst (GetBase refId position (Format.session (render t rs))) = Success base /\
  GetLength refId (Format.session (render t rs))
  = (Failure NoIndex, Format.session (render t rs)).
Proof.
  intros Hdata Hname Hindex Hwf H0 Hr Hp Hbase.
  split; [|split; [|split]].
  - unfold Open, fopen_rb. rewrite Hdata.
    apply String.eqb_neq in Hname. rewrite Hname, Hindex. reflexivity.
  - unfold Open, fopen_rb. rewrite Hdata. reflexivity.
  - apply (GetBase_sequential t rs _ refId position r base);
      try assumption; reflexivity.
  - reflexivity.
Qed.

Lemma Open_missing_index_witness :
  Open "ref.fa" "ref.fai" (Samples.one_file "ref.fa" Samples.two_records)
       FastaPrivate_ctor
  = (Failure CouldNotOpenIndex, Format.session Samples.two_records) /\
  fst (GetBase 1 4 (Format.session Samples.two_records)) = Success "N"%byte.
Proof.
  destruct (Open_missing_index LineFeed Samples.two_records_format
              "ref.fa" "ref.fai"
              (Samples.one_file "ref.fa" Samples.two_records)
              1 4 Samples.seq2 "N"%byte)
    as (H1 & _ & H3 & _).
  - reflexivity.
  - discriminate.
  - reflexivity.
  - reflexivity.
  - lia.
  - reflexivity.
  - lia.
  - reflexivity.
  - split; [exact H1 | exact H3].
Defined.

(** ** LoadIndexData: the end of the table *)

(** The reading loop stops at the end of the file or at the first empty
    line. *)
Lemma LoadIndexData_loop_until_blank (es : list FastaIndexData) :
  forall (fuel : nat) (f : FILE) (ss : sstream) (index : list FastaIndexData)
         (tail : list byte),
    Forall portable es ->
    remaining f = concat (map index_line es) ++ tail ->
    tail = [] \/ (exists junk, tail = LF :: junk) ->
    eofflag f = false -> failbit ss = false -> eofbit ss = false ->
    (length es < fuel)%nat ->
    exists f',
      LoadIndexData_loop fuel f ss index = (Success tt, index ++ es, f').
Proof.
  induction es as [|e es IH];
    intros fuel f ss index tail Hp Hrem Htail Heof Hfail Heofb Hfuel.
  - destruct fuel; [simpl in Hfuel; lia|]. cbn [LoadIndexData_loop].
    cbn [map concat app] in Hrem. rewrite app_nil_r.
    destruct Htail as [-> | (junk & ->)].
    + rewrite (fgetc_nil f Hrem).
      change (Byte.eqb (char_of_int EOF) LF) with false.
      cbn [feof eofflag orb]. eexists. reflexivity.
    + rewrite (fgetc_cons f LF junk Hrem), char_of_int_b2z.
      rewrite byte_eqb_refl. cbn [orb]. eexists. reflexivity.
  - destruct fuel; [simpl in Hfuel; lia|]. cbn [LoadIndexData_loop].
    inversion Hp as [|? ? He Hes]; subst.
    destruct (index_line_text e He)
      as (x & Ex & HxLF & HNUL & b & tl & Exb & Hbff & HbLF).
    cbn [map concat] in Hrem. rewrite <- app_assoc in Hrem.
    assert (Hrem' : remaining f
                    = b :: tl ++ LF :: concat (map index_line es) ++ tail).
    { rewrite Hrem, Ex, Exb, <- app_assoc. reflexivity. }
    destruct (peek_cons f b _ Hrem' Hbff) as [E1 E2].
    rewrite Heof, char_of_int_b2z in E2. rewrite Heof in E1.
    rewrite E1, char_of_int_b2z.
    rewrite (byte_eqb_neq _ _ HbLF). cbn [feof eofflag orb]. rewrite E2.
    assert (Hrem2 : remaining (mkFILE (content f) (fpos f) false)
                    = x ++ LF :: concat (map index_line es) ++ tail).
    { unfold remaining in *. cbn [content fpos]. rewrite Hrem, Ex.
      rewrite <- app_assoc. reflexivity. }
    pose proof He as (_ & _ & _ & _ & _ & _ & Hfit).
    rewrite (fgets_line _ _ _ Hrem2 HxLF)
      by (rewrite Ex, length_app in Hfit; simpl in Hfit; lia).
    rewrite <- Ex, (cstr_no_NUL _ HNUL).
    unfold ss_clear_str, ss_put, good. cbn [failbit eofbit sbuf].
    rewrite Hfail, Heofb. cbn [negb andb app].
    rewrite (parse_index_line_print e He).
    destruct (IH fuel
                (mkFILE (content f) (fpos f + length (index_line e)) false)
                (mkSS [LF] false false) (index ++ [e]) tail Hes)
      as (f' & E); try reflexivity; try assumption.
    + destruct f as [bytes p eo]. cbn [content fpos eofflag] in *.
      apply (remaining_advance bytes p eo false (index_line e)).
      exact Hrem.
    + simpl in Hfuel. lia.
    + exists f'. cbn [content fpos eofflag]. rewrite E, <- app_assoc.
      reflexivity.
Qed.

(** X11. [LoadIndexData] reads the index file up to its first empty line:
    when the lines before it are those of entries that the file format
    carries, [Open] succeeds, marks the session indexed and loads exactly
    those entries; whatever follows the empty line is ignored. An index
    file that starts with an empty line gives an indexed session with an
    empty table, on which [GetLength] throws for every record id. *)
Theorem Open_index_until_blank_line (data path : string) (fs : filesystem)
    (d : FastaPrivate) (es : list FastaIndexData) (junk : list byte) :
  files fs data <> None -> path <> EmptyString ->
  Forall portable es ->
  files fs path = Some (concat (map index_line es) ++ LF :: junk) ->
  exists d',
    Open data path fs d = (Success tt, d') /\
    Index d' = es /\ HasIndex d' = true /\ IsOpen d' = true /\
    (es = [] -> forall refId, fst (GetLength refId d') = ThrowsOutOfRange).
Proof.
  intros Hdata Hpath Hp Hfile. unfold Open, fopen_rb.
  destruct (files fs data) as [bytes|]; [|congruence].
  apply String.eqb_neq in Hpath. rewrite Hpath, Hfile. cbn [negb].
  unfold LoadIndexData. cbn [IsIndexOpen negb IndexStream].
  set (fi := mkFILE (concat (map index_line es) ++ LF :: junk) 0 false).
  destruct (LoadIndexData_loop_until_blank es (S (length (remaining fi)))
              fi ss_init [] (LF :: junk) Hp)
    as (f' & E); try reflexivity.
  - right. exists junk. reflexivity.
  - pose proof (index_lines_length es). unfold remaining, fi.
    cbn [content fpos skipn]. rewrite length_app. lia.
  - rewrite E. eexists. split; [reflexivity|]. cbn [Index HasIndex IsOpen app].
    repeat split.
    intros -> refId. rewrite GetLength_with_table by (try reflexivity; auto).
    cbn [Index app fst]. unfold at_. destruct (Z.to_nat _); reflexivity.
Qed.

Lemma Open_index_until_blank_line_witness :
  exists d',
    Open "ref.fa" "ref.fai"
         (Samples.two_files Samples.two_records Samples.index_with_blank_line)
         FastaPrivate_ctor
    = (Success tt, d') /\
    Index d' = [Samples.entry_seq2] /\ HasIndex d' = true.
Proof.
  destruct (Open_index_until_blank_line "ref.fa" "ref.fai"
              (Samples.two_files Samples.two_records
                 Samples.index_with_blank_line)
              FastaPrivate_ctor [Samples.entry_seq2]
              (Samples.bytes ("seq9" ++ Samples.tab ++ "7" ++ Samples.nl)))
    as (d' & E & Hi & Hh & _).
  - discriminate.
  - discriminate.
  - constructor; [|constructor]. unfold portable.
    split; [discriminate|]. split; [repeat constructor|].
    repeat split; try (vm_compute; congruence).
    apply Nat.leb_le. vm_compute. reflexivity.
  - reflexivity.
  - exists d'. repeat split; assumption.
Defined.

(** ** CreateIndex on data that does not start with a header *)

Lemma fgets_bytes_cons (k : nat) (b : byte) (l : list byte) :
  fgets_bytes (S k) (b :: l)
  = if Byte.eqb b LF then ([b], false)
    else let (r, e) := fgets_bytes k l in (b :: r, e).
Proof. reflexivity. Qed.

(** X12. On data that does not begin with '>', [CreateIndex] returns
    [false] before anything is indexed: "could not read from file" on an
    empty file, and otherwise "expected header", or nothing at all when
    the file ends within its first line. The table is left empty, no
    index file is created, and [HasIndex] is left as it was. *)
Theorem CreateIndex_needs_header (indexFilename : string) (fs : filesystem)
    (d : FastaPrivate) :
  IsOpen d = true -> hd_error (content (Stream d)) <> Some GT ->
  exists e d',
    CreateIndex indexFilename fs d = (Failure e, fs, d') /\
    (content (Stream d) = [] -> e = CouldNotRead) /\
    (content (Stream d) <> [] -> e = ExpectedHeader \/ e = EofAfterHeader) /\
    Index d' = [] /\ HasIndex d' = HasIndex d /\ IsOpen d' = true.
Proof.
  intros Hopen Hhd.
  destruct d as [[bytes p eo] isopen ixs hasix ixopen index].
  cbn [IsOpen Stream content] in *. subst isopen.
  unfold CreateIndex, CreateIndex_scan, Rewind, fseek64.
  cbn [IsOpen negb Stream]. change (0 <? 0) with false. cbv iota.
  cbn [set_Stream set_Index Stream IsOpen IndexStream HasIndex IsIndexOpen
       Index content Z.to_nat negb].
  unfold fgets, remaining. cbn [content fpos skipn eofflag orb].
  change (1024 - 1)%nat with 1023%nat.
  destruct bytes as [|b rest].
  - cbn [fgets_bytes]. eexists. eexists. split; [reflexivity|].
    cbn [Index HasIndex IsOpen]. repeat split; congruence.
  - assert (Hb : Byte.eqb b GT = false).
    { apply byte_eqb_neq. intros ->. apply Hhd. reflexivity. }
    rewrite (fgets_bytes_cons 1022).
    destruct (Byte.eqb b LF).
    + cbn [feof eofflag hd]. rewrite Hb. cbn [negb].
      eexists. eexists. split; [reflexivity|].
      cbn [Index HasIndex IsOpen]. repeat split; try congruence.
      intros _. left. reflexivity.
    + destruct (fgets_bytes 1022 rest) as [line hit].
      cbn [feof eofflag hd]. destruct hit.
      * eexists. eexists. split; [reflexivity|].
        cbn [Index HasIndex IsOpen]. repeat split; try congruence.
        intros _. right. reflexivity.
      * rewrite Hb. cbn [negb].
        eexists. eexists. split; [reflexivity|].
        cbn [Index HasIndex IsOpen]. repeat split; try congruence.
        intros _. left. reflexivity.
Qed.

Lemma CreateIndex_needs_header_witness :
  exists e d',
    CreateIndex "ref.fai" (Samples.one_file "ref.fa" Samples.no_marker)
                (Samples.opened Samples.no_marker)
    = (Failure e, Samples.one_file "ref.fa" Samples.no_marker, d') /\
    Index d' = [].
Proof.
  destruct (CreateIndex_needs_header "ref.fai"
              (Samples.one_file "ref.fa" Samples.no_marker)
              (Samples.opened Samples.no_marker))
    as (e & d' & E & _ & _ & Hi & _).
  - reflexivity.
  - vm_compute. congruence.
  - exists e, d'. split; assumption.
Defined.

(** ** The sequential path at and beyond the end *)

(** X13. On a session without index over a data file in the format, the
    position equal to the length of the sequence passes the test
    [sequence.length () >= position] of [GetBase], and
    [sequence.at (position)] then throws [std::out_of_range]: the call
    returns neither a character nor [false]. *)
Theorem sequential_GetBase_at_length (t : terminator) (rs : list record)
    (d : FastaPrivate) (refId : Z) (r : record) :
  well_formed t rs = true ->
  IsOpen d = true -> HasIndex d = false -> content (Stream d) = render t rs ->
  0 <= refId -> nth_error rs (Z.to_nat refId) = Some r ->
  fst (GetBase refId (Z.of_nat (length (rseq r))) d) = ThrowsOutOfRange.
Proof.
  intros Hwf Hopen Hidx Hcontent H0 Hr.
  destruct (sequential_paths t rs d refId r Hwf Hopen Hidx Hcontent H0 Hr)
    as (Hn & d' & EB & _).
  rewrite EB.
  rewrite to_size_t_small by (unfold SIZE_MAX; unfold INT_MAX in *; lia).
  rewrite Z.leb_refl. cbn [fst].
  replace (at_ (rseq r) (Z.of_nat (length (rseq r)))) with (@None byte);
    [reflexivity|].
  symmetry. unfold at_. apply nth_error_None.
  rewrite to_size_t_small by (unfold SIZE_MAX; unfold INT_MAX in *; lia).
  lia.
Qed.

Lemma sequential_GetBase_at_length_witness :
  fst (GetBase 1 (Z.of_nat (length (rseq Samples.seq2)))
               (Samples.opened Samples.two_records))
  = ThrowsOutOfRange.
Proof.
  apply (sequential_GetBase_at_length LineFeed Samples.two_records_format
           (Samples.opened Samples.two_records) 1 Samples.seq2).
  - reflexivity.
  - reflexivity.
  - reflexivity.
  - reflexivity.
  - lia.
  - reflexivity.
Defined.

(** Once the stream is at the end of the file, reading an entry gives
    nothing and leaves the stream there. *)
Lemma entry_at_end (d : FastaPrivate) :
  IsOpen d = true -> remaining (Stream d) = [] ->
  exists d',
    snd (GetNextSequence SIZE_MAX (snd (GetNextHeader d))) = d' /\
    snd (fst (GetNextSequence SIZE_MAX (snd (GetNextHeader d)))) = [] /\
    IsOpen d' = true /\ remaining (Stream d') = [].
Proof.
  intros Hopen Hrem. eexists. split; [reflexivity|].
  destruct d as [[bytes p eo] isopen ixs hasix ixopen index].
  cbn [IsOpen Stream] in *. subst isopen.
  unfold GetNextHeader. cbn [IsOpen Stream negb feof eofflag orb].
  destruct eo.
  - cbn [snd]. unfold GetNextSequence.
    cbn [IsOpen Stream negb feof eofflag orb fst snd].
    repeat split. exact Hrem.
  - unfold fgets. rewrite Hrem. change (1024 - 1)%nat with (S 1022).
    cbn [fgets_bytes content fpos eofflag orb set_Stream snd].
    unfold GetNextSequence.
    cbn [IsOpen Stream negb feof eofflag orb fst snd set_Stream].
    repeat split. exact Hrem.
Qed.

Lemma skip_entries_at_end (n : nat) :
  forall (d : FastaPrivate) (seq0 : list byte),
    IsOpen d = true -> remaining (Stream d) = [] ->
    fst (skip_entries (S n) seq0 d) = [].
Proof.
  induction n as [|n IH]; intros d seq0 Hopen Hrem;
    destruct (entry_at_end d Hopen Hrem) as (d' & Ed & Es & Hopen' & Hrem');
    rewrite skip_entries_S, Es, Ed.
  - reflexivity.
  - apply IH; assumption.
Qed.

(** Reading more entries than the file has records ends with an empty
    sequence. *)
Lemma skip_entries_beyond (t : terminator) :
  forall (rs : list record) (n : nat) (d : FastaPrivate) (seq0 : list byte),
    IsOpen d = true -> (rs <> [] -> eofflag (Stream d) = false) ->
    remaining (Stream d) = render t rs ->
    forallb (record_ok t) rs = true ->
    Z.of_nat (length (content (Stream d))) <= INT_MAX ->
    (length rs <= n)%nat ->
    fst (skip_entries (S n) seq0 d) = [].
Proof.
  induction rs as [|r0 rs IH]; intros n d seq0 Hopen Heof Hrem Hok Hsize Hn.
  - apply skip_entries_at_end; assumption.
  - destruct n as [|n]; [simpl in Hn; lia|].
    cbn [forallb] in Hok. apply andb_true_iff in Hok.
    destruct Hok as [Hr0 Hrs].
    destruct (read_record t r0 rs d Hopen (Heof ltac:(discriminate)) Hrem
                Hr0 Hsize) as (E1 & E2 & E3).
    rewrite skip_entries_S, E1. cbn [snd]. rewrite E2. cbn [fst snd].
    apply IH.
    + destruct d; exact Hopen.
    + intros Hne. destruct d; cbn [set_Stream Stream eofflag].
      destruct rs; [congruence | reflexivity].
    + exact E3.
    + exact Hrs.
    + destruct d; exact Hsize.
    + simpl in Hn. lia.
Qed.

(** X14. On a session without index over a data file in the format, a
    record id at or above the number of records is not reported: the scan
    ends with an empty sequence, so that [GetSequence] for [start = stop =
    0] returns [true] with an empty string and [GetBase] for position 0
    throws [std::out_of_range]; any other position or stop gives
    [false]. *)
Theorem sequential_beyond_last_record (t : terminator) (rs : list record)
    (d : FastaPrivate) (refId : Z) :
  well_formed t rs = true ->
  IsOpen d = true -> HasIndex d = false -> content (Stream d) = render t rs ->
  Z.of_nat (length rs) <= refId ->
  fst (GetSequence refId 0 0 d) = Success [] /\
  fst (GetBase refId 0 d) = ThrowsOutOfRange /\
  (forall position,
     INT_MIN <= position <= INT_MAX -> position <> 0 ->
     fst (GetBase refId position d) = Failure NoSequence) /\
  (forall start stop,
     INT_MIN <= stop <= INT_MAX -> stop <> 0 ->
     fst (GetSequence refId start stop d) = Failure NoSequence).
Proof.
  intros Hwf Hopen Hidx Hcontent Hid.
  destruct (well_formed_parts _ _ Hwf) as (Hrs & _ & Hsize).
  set (d1 := set_Stream d (mkFILE (content (Stream d)) 0 false)).
  assert (E : exists d', scan_to refId d1 = Some ([], d')).
  { pose proof (skip_entries_beyond t rs (Z.to_nat refId) d1 []) as H.
    rewrite skip_entries_S in H. unfold scan_to.
    destruct (GetNextHeader d1) as [h d2]. cbn [snd] in H.
    destruct (GetNextSequence SIZE_MAX d2) as [[ok s] d3].
    cbn [fst snd] in H.
    replace (refId <? 0) with false by (symmetry; apply Z.ltb_ge; lia).
    destruct (skip_entries (Z.to_nat refId) s d3) as [s' d'].
    cbn [fst] in H. rewrite H.
    - exists d'. reflexivity.
    - exact Hopen.
    - reflexivity.
    - exact Hcontent.
    - exact Hrs.
    - cbn [d1 set_Stream Stream content]. rewrite Hcontent. exact Hsize.
    - lia. }
  destruct E as (d' & E).
  assert (Hnz : forall z, INT_MIN <= z <= INT_MAX -> z <> 0 ->
                          (to_size_t z <=? Z.of_nat (@length byte [])) = false).
  { intros z Hz Hne. apply Z.leb_gt. cbn [length Z.of_nat].
    destruct (Z.ltb_spec z 0) as [Hneg | Hpos].
    - rewrite to_size_t_negative by (unfold INT_MIN in *; lia).
      unfold INT_MIN in *. lia.
    - rewrite to_size_t_small
        by (unfold SIZE_MAX; unfold INT_MAX in *; lia).
      lia. }
  unfold GetBase, GetSequence. rewrite Hopen, Hidx. cbn [negb andb].
  rewrite (Rewind_open d Hopen). fold d1. rewrite E.
  repeat split.
  - intros position Hp Hne. rewrite (Hnz position Hp Hne). reflexivity.
  - intros start stop Hs Hne. rewrite (Hnz stop Hs Hne). reflexivity.
Qed.

Lemma sequential_beyond_last_record_witness :
  fst (GetSequence 2 0 0 (Samples.opened Samples.two_records)) = Success [] /\
  fst (GetBase 2 0 (Samples.opened Samples.two_records)) = ThrowsOutOfRange.
Proof.
  destruct (sequential_beyond_last_record LineFeed
              Samples.two_records_format
              (Samples.opened Samples.two_records) 2)
    as (H1 & H2 & _).
  - reflexivity.
  - reflexivity.
  - reflexivity.
  - reflexivity.
  - simpl. lia.
  - split; assumption.
Defined.

(** ** Termination *)


(** ** The table built by CreateIndex, on any file *)

Lemma blank_facts (b : byte) :
  is_blank b = false <-> b <> SPACE /\ b <> TAB /\ b <> LF /\ b <> CR.
Proof. destruct b; cbv; intuition congruence. Qed.

(** A name taken from a header without NUL is not empty and holds no
    white space. *)
Lemma GetNameFromHeader_name (header name : list byte) :
  Forall (fun b => b <> NUL) header ->
  GetNameFromHeader header = Some name ->
  name <> [] /\ Forall (fun b => is_blank b = false /\ b <> NUL) name.
Proof.
  intros HN E.
  destruct (first_word_decomposition (skipn 1 header))
    as (ws & seg & rest & Es & Hws & Hseg & Hrest & Hcanon).
  pose proof (GetNameFromHeader_decomposed header ws seg rest Es Hws Hseg
                Hrest Hcanon) as En.
  rewrite E in En.
  assert (HNs : Forall (fun b => b <> NUL) seg).
  { assert (H : Forall (fun b => b <> NUL) (skipn 1 header)).
    { destruct header; [constructor|]. inversion HN; assumption. }
    rewrite Es in H. apply Forall_app in H. destruct H as [_ H].
    apply Forall_app in H. apply H. }
  destruct seg as [|c seg]; [discriminate|].
  rewrite (cstr_no_NUL _ HNs) in En. injection En as ->.
  split; [discriminate|].
  apply Forall_forall. intros b Hb. rewrite Forall_forall in Hseg, HNs.
  split; [apply Hseg | apply HNs]; exact Hb.
Qed.

Lemma GetNextHeader_text (d d1 : FastaPrivate) (header : list byte) :
  GetNextHeader d = (Some header, d1) ->
  Forall (fun b => b <> NUL) header.
Proof.
  unfold GetNextHeader.
  destruct (negb (IsOpen d) || feof (Stream d)); [discriminate|].
  destruct (fgets 1024 (Stream d)) as [[buffer|] f]; [|discriminate].
  destruct (negb _); [discriminate|].
  intros H. injection H as <- _. apply cstr_NUL_free.
Qed.

(** The entries the loop appends have names of visible extent, and lie
    one after the other inside the file. *)
Lemma CreateIndex_loop_layout (ll bl : Z) (fuel : nat) :
  forall (d d' : FastaPrivate),
    CreateIndex_loop fuel ll bl d = (Success tt, d') ->
    Z.of_nat (length (content (Stream d))) <= INT_MAX ->
    exists new,
      Index d' = Index d ++ new /\
      Forall (fun e =>
                Z.of_nat (fpos (Stream d)) < Offset e /\ 0 <= Length e /\
                Offset e + Length e
                <= Z.of_nat (length (content (Stream d)))) new /\
      StronglySorted (fun a b => Offset a + Length a < Offset b) new.
Proof.
  induction fuel as [|fuel IH]; intros d d' H Hsize; [discriminate|].
  cbn [CreateIndex_loop] in H.
  destruct (GetNextHeader d) as [[header|] d1] eqn:Eh.
  - destruct (GetNextHeader_general _ _ _ Eh) as (f1 & -> & Hc1 & Hp1).
    specialize (Hp1 ltac:(discriminate)).
    destruct (GetNameFromHeader header) as [name|]; [|discriminate].
    destruct (GetNextSequence SIZE_MAX (set_Stream d f1))
      as [[ok sequence] d2] eqn:Es.
    destruct (GetNextSequence_general _ _ _ _ _ Es)
      as (f2 & -> & Hc2 & Hp2 & Hs2 & Hm2).
    destruct ok; [|discriminate]. cbn [negb] in H.
    rewrite set_Stream_twice in H.
    apply IH in H.
    + destruct H as (new & Ei & Hall & Hsorted).
      destruct d as [f isopen ixs hasix ixopen index].
      cbn [set_Stream set_Index Stream Index fpos content] in *.
      unfold ftell64 in *.
      eexists. split; [rewrite Ei, <- app_assoc; reflexivity|].
      assert (Hlen : to_int32 (Z.of_nat (length sequence))
                     = Z.of_nat (length sequence)).
      { apply to_int32_small. unfold INT_MIN. rewrite Hc1 in Hm2. lia. }
      rewrite Hc2, Hc1 in Hall. rewrite Hc1 in Hm2.
      split.
      * constructor.
        -- cbn [Length Offset]. rewrite Hlen. lia.
        -- eapply Forall_impl; [|exact Hall].
           intros e (H1 & H2 & H3). repeat split; try assumption. lia.
      * constructor; [exact Hsorted|].
        eapply Forall_impl; [|exact Hall].
        intros e (H1 & _). cbn [Length Offset]. rewrite Hlen. lia.
    + destruct d; cbn [set_Stream set_Index Stream content] in *.
      rewrite Hc2, Hc1. exact Hsize.
  - injection H as <-.
    destruct (GetNextHeader_general _ _ _ Eh) as (f1 & -> & _).
    exists []. rewrite app_nil_r. destruct d; cbn.
    repeat split; constructor.
Qed.

Lemma CreateIndex_loop_names (ll bl : Z) (fuel : nat) :
  forall (d d' : FastaPrivate),
    CreateIndex_loop fuel ll bl d = (Success tt, d') ->
    exists new,
      Index d' = Index d ++ new /\
      Forall (fun e => Name e <> [] /\
                       Forall (fun b => is_blank b = false /\ b <> NUL)
                              (Name e)) new.
Proof.
  induction fuel as [|fuel IH]; intros d d' H; [discriminate|].
  cbn [CreateIndex_loop] in H.
  destruct (GetNextHeader d) as [[header|] d1] eqn:Eh.
  - pose proof (GetNextHeader_text _ _ _ Eh) as HN.
    destruct (GetNameFromHeader header) as [name|] eqn:En; [|discriminate].
    destruct (GetNameFromHeader_name _ _ HN En) as [Hne Hname].
    destruct (GetNextSequence SIZE_MAX d1) as [[ok sequence] d2] eqn:Es.
    destruct (GetNextSequence_general _ _ _ _ _ Es) as (f2 & -> & _).
    destruct ok; [|discriminate]. cbn [negb] in H.
    apply IH in H. destruct H as (new & Ei & Hall).
    destruct d1 as [f isopen ixs hasix ixopen index] eqn:Ed1.
    cbn [set_Stream set_Index Stream Index] in *.
    assert (Hindex : index = Index d).
    { destruct (GetNextHeader_general _ _ _ Eh) as (f1 & E1 & _).
      destruct d; cbn [set_Stream] in E1. injection E1 as _ _ _ _ _ <-.
      reflexivity. }
    subst index.
    eexists. split; [rewrite Ei, <- app_assoc; reflexivity|].
    constructor; [|exact Hall]. cbn [Name]. split; assumption.
  - injection H as <-.
    destruct (GetNextHeader_general _ _ _ Eh) as (f1 & -> & _).
    exists []. rewrite app_nil_r. destruct d; cbn.
    split; constructor.
Qed.

(** A successful scan is a successful run of the loop over the entries,
    from the start of a file whose first line begins with '>'. *)
Lemma CreateIndex_scan_loop (d d' : FastaPrivate) :
  CreateIndex_scan d = (Success tt, d') ->
  exists ll bl buffer f1,
    IsOpen d = true /\
    fgets 1024 (mkFILE (content (Stream d)) 0 false) = (Some buffer, f1) /\
    hd NUL buffer = GT /\
    CreateIndex_loop (S (length (content (Stream d)))) ll bl
      (mkFasta (mkFILE (content (Stream d)) 0 false) true (IndexStream d)
               (HasIndex d) (IsIndexOpen d) [])
    = (Success tt, d').
Proof.
  unfold CreateIndex_scan, Rewind, fseek64. intros H.
  destruct d as [f isopen ixs hasix ixopen index].
  cbn [set_Stream set_Index Stream IsOpen IndexStream HasIndex IsIndexOpen
       Index content] in *.
  destruct isopen; [|discriminate]. cbn [negb] in H.
  change (0 <? 0) with false in H. cbv iota in H.
  cbn [set_Stream set_Index Stream IsOpen IndexStream HasIndex IsIndexOpen
       Index content Z.to_nat] in H.
  destruct (fgets 1024 _) as [[buffer|] f1] eqn:Eg; [|discriminate].
  destruct (fgets_some _ _ _ _ Eg) as (Hc1 & _ & _).
  cbn [content] in Hc1.
  destruct (feof f1); [discriminate|].
  destruct (negb (Byte.eqb (hd NUL buffer) GT)) eqn:Egt; [discriminate|].
  apply negb_false_iff, Byte.byte_dec_bl in Egt.
  destruct (fgetc f1) as [c f2] eqn:Ef.
  assert (Hc2 : content f2 = content f1).
  { unfold fgetc in Ef. destruct (nth_error _ _);
      injection Ef as <- <-; reflexivity. }
  pose proof (first_line_loop_invariant (S (length (remaining f2)))
                (char_of_int c) f2 0 0 ltac:(lia)) as Hm.
  destruct (first_line_loop _ _ _ _ _) as [[bl ll] f3].
  destruct Hm as [_ Hc3].
  destruct (negb (in_int32 (bl + 1))); [discriminate|].
  cbn [set_Stream set_Index Stream IsOpen IndexStream HasIndex IsIndexOpen
       Index content negb] in H.
  rewrite Hc3, Hc2, Hc1 in H.
  exists ll, (bl + 1), buffer, f1. repeat split; assumption.
Qed.

(** The loop appends an entry when a header is there to be read. *)
Lemma CreateIndex_loop_first (ll bl : Z) (fuel : nat) (d d' : FastaPrivate)
    (buffer : list byte) (f1 : FILE) :
  IsOpen d = true -> eofflag (Stream d) = false ->
  fgets 1024 (Stream d) = (Some buffer, f1) -> hd NUL buffer = GT ->
  CreateIndex_loop fuel ll bl d = (Success tt, d') ->
  exists data new, Index d' = Index d ++ data :: new.
Proof.
  intros Hopen Heof Eg Hgt H.
  destruct fuel; [discriminate|]. cbn [CreateIndex_loop] in H.
  unfold GetNextHeader in H. unfold feof in H.
  rewrite Hopen, Heof, Eg, Hgt, byte_eqb_refl in H.
  cbn [negb orb] in H.
  destruct (GetNameFromHeader (cstr buffer)) as [name|]; [|discriminate].
  destruct (GetNextSequence SIZE_MAX _) as [[ok sequence] d2] eqn:Es.
  destruct (GetNextSequence_general _ _ _ _ _ Es) as (f2 & -> & _).
  destruct ok; [|discriminate]. cbn [negb] in H.
  apply CreateIndex_loop_names in H. destruct H as (new & Ei & _).
  destruct d; cbn [set_Stream set_Index Stream Index] in *.
  eexists. exists new. rewrite Ei, <- app_assoc. reflexivity.
Qed.

(** X16. The entries of a successful [CreateIndex] over any data file
    smaller than 2 GiB lie one after the other inside the file: the table
    is not empty, each entry starts after the first byte and ends, with
    its [Length] characters, within the file, and before the next entry
    starts. *)
Theorem CreateIndex_layout (indexFilename : string) (fs fs' : filesystem)
    (d d' : FastaPrivate) :
  CreateIndex indexFilename fs d = (Success tt, fs', d') ->
  Z.of_nat (length (content (Stream d))) <= INT_MAX ->
  Index d' <> [] /\
  Forall (fun e => 0 < Offset e /\ 0 <= Length e /\
                   Offset e + Length e
                   <= Z.of_nat (length (content (Stream d)))) (Index d') /\
  StronglySorted (fun a b => Offset a + Length a < Offset b) (Index d').
Proof.
  intros H Hsize.
  destruct (CreateIndex_success_scan _ _ _ _ _ H) as (d1 & Es & Ei).
  destruct (CreateIndex_scan_loop _ _ Es)
    as (ll & bl & buffer & f1 & Hopen & Eg & Hgt & El).
  rewrite Ei. split; [|].
  - match type of El with
    | CreateIndex_loop ?fuel _ _ ?dd = _ =>
        destruct (CreateIndex_loop_first ll bl fuel dd d1 buffer f1
                    eq_refl eq_refl Eg Hgt El) as (data & new & E)
    end.
    rewrite E. cbn [Index app]. discriminate.
  - destruct (CreateIndex_loop_layout _ _ _ _ _ El Hsize)
      as (new & E & Hall & Hsorted).
    cbn [Index app Stream content fpos] in *. rewrite E.
    split; [|exact Hsorted].
    eapply Forall_impl; [|exact Hall]. intros e He. cbn beta in He. lia.
Qed.

Lemma CreateIndex_layout_witness :
  Index Samples.indexed_uneven <> [] /\
  StronglySorted (fun a b => Offset a + Length a < Offset b)
                 (Index Samples.indexed_uneven).
Proof.
  destruct (CreateIndex_layout "ref.fai"
              (Samples.one_file "ref.fa" Samples.uneven)
              (snd (fst (CreateIndex "ref.fai"
                           (Samples.one_file "ref.fa" Samples.uneven)
                           (Samples.opened Samples.uneven))))
              (Samples.opened Samples.uneven) Samples.indexed_uneven)
    as (H1 & _ & H3).
  - vm_compute. reflexivity.
  - vm_compute. congruence.
  - split; assumption.
Defined.

(** X17. Every name in the table of a successful [CreateIndex], over any
    data file, is non-empty and holds no space, tab, line feed, carriage
    return or NUL. *)
Theorem CreateIndex_names (indexFilename : string) (fs fs' : filesystem)
    (d d' : FastaPrivate) :
  CreateIndex indexFilename fs d = (Success tt, fs', d') ->
  Forall (fun e =>
            Name e <> [] /\
            Forall (fun b => b <> SPACE /\ b <> TAB /\ b <> LF /\ b <> CR /\
                             b <> NUL) (Name e)) (Index d').
Proof.
  intros H.
  destruct (CreateIndex_success_scan _ _ _ _ _ H) as (d1 & Es & Ei).
  destruct (CreateIndex_scan_loop _ _ Es)
    as (ll & bl & buffer & f1 & _ & _ & _ & El).
  destruct (CreateIndex_loop_names _ _ _ _ _ El) as (new & E & Hall).
  rewrite Ei, E. cbn [Index app].
  eapply Forall_impl; [|exact Hall]. intros e [Hne Hn].
  split; [exact Hne|].
  eapply Forall_impl; [|exact Hn]. intros b [Hb HN].
  apply blank_facts in Hb. tauto.
Qed.

Lemma CreateIndex_names_witness :
  Forall (fun e =>
            Name e <> [] /\
            Forall (fun b => b <> SPACE /\ b <> TAB /\ b <> LF /\ b <> CR /\
                             b <> NUL) (Name e))
         (Index Samples.indexed_two).
Proof.
  apply (CreateIndex_names "ref.fai"
           (Samples.one_file "ref.fa" Samples.two_records)
           (snd (fst (CreateIndex "ref.fai"
                        (Samples.one_file "ref.fa" Samples.two_records)
                        (Samples.opened Samples.two_records))))
           (Samples.opened Samples.two_records) Samples.indexed_two).
  vm_compute. reflexivity.
Defined.

(** ** The index file written by CreateIndex *)

Lemma dec_digits_no_NUL (fuel : nat) :
  forall (n : Z) (acc : list byte),
    0 <= n -> Forall (fun b => b <> NUL) acc ->
    Forall (fun b => b <> NUL) (dec_digits fuel n acc).
Proof.
  induction fuel as [|fuel IH]; intros n acc Hn Hacc; [exact Hacc|].
  cbn [dec_digits].
  pose proof (Z.mod_pos_bound n 10 ltac:(lia)) as Hm.
  destruct (digit_char_facts (n mod 10) ltac:(lia)) as [Hd _].
  destruct (isdigit_facts _ Hd) as (_ & _ & _ & _ & HN).
  destruct (n <? 10).
  - constructor; assumption.
  - apply IH; [apply Z.div_pos; lia | constructor; assumption].
Qed.

Lemma print_int_no_NUL (z : Z) : Forall (fun b => b <> NUL) (print_int z).
Proof.
  unfold print_int. destruct (Z.ltb_spec z 0).
  - constructor; [discriminate|].
    apply dec_digits_no_NUL; [lia | constructor].
  - apply dec_digits_no_NUL; [lia | constructor].
Qed.

Lemma index_line_no_NUL (e : FastaIndexData) :
  Forall (fun b => b <> NUL) (Name e) ->
  cstr (index_line e) = index_line e.
Proof.
  intros HN. apply cstr_no_NUL. unfold index_line.
  apply Forall_app. split; [exact HN|].
  do 3 (apply Forall_cons; [discriminate|];
        apply Forall_app; split; [apply print_int_no_NUL|]).
  apply Forall_cons; [discriminate|].
  apply Forall_app. split; [apply print_int_no_NUL|].
  repeat constructor. discriminate.
Qed.

Lemma CreateIndex_loop_content (ll bl : Z) (fuel : nat) :
  forall d : FastaPrivate,
    content (Stream (snd (CreateIndex_loop fuel ll bl d)))
    = content (Stream d) /\
    IsOpen (snd (CreateIndex_loop fuel ll bl d)) = IsOpen d /\
    IndexStream (snd (CreateIndex_loop fuel ll bl d)) = IndexStream d /\
    HasIndex (snd (CreateIndex_loop fuel ll bl d)) = HasIndex d /\
    IsIndexOpen (snd (CreateIndex_loop fuel ll bl d)) = IsIndexOpen d.
Proof.
  induction fuel as [|fuel IH]; intros d; [repeat split|].
  cbn [CreateIndex_loop].
  destruct (GetNextHeader d) as [[header|] d1] eqn:Eh;
    destruct (GetNextHeader_general _ _ _ Eh) as (f1 & -> & Hc1 & _);
    [|destruct d; repeat split; exact Hc1].
  destruct (GetNameFromHeader header) as [name|];
    [|destruct d; repeat split; exact Hc1].
  destruct (GetNextSequence SIZE_MAX _) as [[ok sequence] d2] eqn:Es.
  destruct (GetNextSequence_general _ _ _ _ _ Es) as (f2 & -> & Hc2 & _).
  rewrite set_Stream_twice.
  destruct ok; cbn [negb snd].
  - match goal with
    | |- context [CreateIndex_loop fuel ll bl ?dd] =>
        destruct (IH dd) as (H1 & H2 & H3 & H4 & H5)
    end.
    rewrite H1, H2, H3, H4, H5.
    destruct d; cbn [set_Stream set_Index Stream content] in *.
    repeat split. congruence.
  - destruct d; cbn [set_Stream Stream content] in *.
    repeat split. congruence.
Qed.

(** What a successful [CreateIndex] writes: the C string of the line of
    each entry. *)
Lemma CreateIndex_written (indexFilename : string)
    (fs fs' : filesystem) (d d' : FastaPrivate) :
  indexFilename <> EmptyString ->
  CreateIndex indexFilename fs d = (Success tt, fs', d') ->
  files fs' indexFilename
  = Some (concat (map (fun e => cstr (index_line e)) (Index d'))) /\
  (forall p, p <> indexFilename -> files fs' p = files fs p) /\
  IsOpen d' = true /\ HasIndex d' = true /\ IsIndexOpen d' = false.
Proof.
  intros Hname H. unfold CreateIndex in H.
  destruct (CreateIndex_scan d) as [[[]| | | |] d1] eqn:Es; try discriminate.
  assert (Hopen1 : IsOpen d1 = true).
  { destruct (CreateIndex_scan_loop _ _ Es)
      as (ll & bl & buffer & f1 & _ & _ & _ & El).
    match type of El with
    | CreateIndex_loop ?fuel _ _ ?dd = _ =>
        destruct (CreateIndex_loop_content ll bl fuel dd) as (_ & Ho & _)
    end.
    rewrite El in Ho. exact Ho. }
  apply String.eqb_neq in Hname. rewrite Hname in H. cbn [negb] in H.
  unfold fopen_wb in H. destruct (writable fs indexFilename); [|discriminate].
  unfold WriteIndexData in H. cbn [IsIndexOpen negb Index IndexStream] in H.
  destruct (WriteIndexData_loop_write indexFilename (Index d1)
              (fs_store fs indexFilename []) true [])
    as (fs2 & Ew & H1 & H2).
  { unfold fs_store. cbn [files]. rewrite String.eqb_refl. reflexivity. }
  rewrite Ew in H. injection H as <- <-.
  cbn [Index IsOpen HasIndex IsIndexOpen] in *.
  repeat split; try assumption.
  intros p Hp. rewrite H2 by exact Hp. unfold fs_store. cbn [files].
  apply String.eqb_neq in Hp. rewrite Hp. reflexivity.
Qed.

(** X18. A successful [CreateIndex] with a non-empty index file name, over
    any data file, leaves in the index file exactly one line per entry of
    the table, in order, each made of the name, the length, the offset,
    the line length and the byte length separated by tabs and ended by a
    line feed; what the file held before is gone, no other file is
    touched, and the session is marked indexed with its index file
    closed. *)
Theorem CreateIndex_writes_table (indexFilename : string)
    (fs fs' : filesystem) (d d' : FastaPrivate) :
  indexFilename <> EmptyString ->
  CreateIndex indexFilename fs d = (Success tt, fs', d') ->
  files fs' indexFilename = Some (concat (map index_line (Index d'))) /\
  (forall p, p <> indexFilename -> files fs' p = files fs p) /\
  IsOpen d' = true /\ HasIndex d' = true /\ IsIndexOpen d' = false.
Proof.
  intros Hname H.
  destruct (CreateIndex_written _ _ _ _ _ Hname H)
    as (Hfile & Hothers & Hopen & Hhas & Hclosed).
  repeat split; try assumption.
  rewrite Hfile. f_equal. f_equal.
  apply map_ext_in. intros e He. apply index_line_no_NUL.
  destruct (CreateIndex_success_scan _ _ _ _ _ H) as (d1 & Es & Ei).
  destruct (CreateIndex_scan_loop _ _ Es)
    as (ll & bl & buffer & f1 & _ & _ & _ & El).
  destruct (CreateIndex_loop_names _ _ _ _ _ El) as (new & E & Hall).
  rewrite Ei, E in He. cbn [Index app] in He.
  rewrite Forall_forall in Hall. destruct (Hall e He) as [_ Hn].
  eapply Forall_impl; [|exact Hn]. intros b [_ HN]. exact HN.
Qed.

Lemma CreateIndex_writes_table_witness :
  files (snd (fst (CreateIndex "ref.fai"
                     (Samples.one_file "ref.fa" Samples.two_records)
                     (Samples.opened Samples.two_records)))) "ref.fai"
  = Some (concat (map index_line (Index Samples.indexed_two))) /\
  HasIndex Samples.indexed_two = true.
Proof.
  destruct (CreateIndex_writes_table "ref.fai"
              (Samples.one_file "ref.fa" Samples.two_records)
              (snd (fst (CreateIndex "ref.fai"
                           (Samples.one_file "ref.fa" Samples.two_records)
                           (Samples.opened Samples.two_records))))
              (Samples.opened Samples.two_records) Samples.indexed_two)
    as (H1 & _ & _ & H4 & _).
  - discriminate.
  - vm_compute. reflexivity.
  - split; assumption.
Defined.

(** ** Building the index again *)









(** ** GetSequence on the indexed path: the range test *)

(** X20. On an indexed session and for a valid record id, [GetSequence]
    rejects the ranges with [start < 0], [start > stop] or
    [stop > entry.length], with the out-of-range diagnostic and without
    touching the session; a range with [0 <= start <= stop <=
    entry.length], the boundary [stop = entry.length] included, is never
    rejected as out of range; it fails on the seek when the offset of the
    entry is negative. *)
Theorem GetSequence_indexed_validates (d : FastaPrivate)
    (refId start stop : Z) (e : FastaIndexData) :
  indexed d -> entry_at d refId e ->
  (start < 0 \/ stop < start \/ Length e < stop ->
     GetSequence refId start stop d = (Failure InvalidStartStop, d)) /\
  kind_of InvalidStartStop = OutOfRangeError /\
  (0 <= start <= stop -> stop <= Length e ->
     forall err, fst (GetSequence refId start stop d) = Failure err ->
                 kind_of err <> OutOfRangeError) /\
  (0 <= start <= stop -> stop <= Length e -> Offset e < 0 ->
     GetSequence refId start stop d = (Failure CouldNotSeek, d)).
Proof.
  intros (Hopen & Hidx & Hlen) He.
  pose proof (entry_at_bound _ _ _ He) as Hb. destruct He as [H0 He].
  assert (E : GetSequence refId start stop d
              = if (start <? 0) || (stop <? start) || (Length e <? stop)
                then (Failure InvalidStartStop, d)
                else
                  match fseek64 (Stream d) (Offset e) with
                  | None => (Failure CouldNotSeek, d)
                  | Some f =>
                      if negb (in_int32 (stop - start + 1)
                               && in_int32 (stop + 1))
                      then (Undefined, set_Stream d f)
                      else
                        match GetNextSequence (to_size_t (stop + 1))
                                (set_Stream d f) with
                        | (false, _, d') => (Failure CouldNotRetrieve, d')
                        | (true, fullSequence, d') =>
                            match substr fullSequence start
                                    (stop - start + 1) with
                            | Some sequence => (Success sequence, d')
                            | None => (ThrowsOutOfRange, d')
                            end
                        end
                  end).
  { unfold GetSequence. rewrite Hopen, Hidx. cbn [negb andb].
    destruct (Index d) as [|e0 ix] eqn:Eix; [simpl in Hb; lia|].
    cbn [is_nil negb].
    rewrite to_int32_small by (unfold INT_MIN; unfold INT_MAX in *; lia).
    replace (refId <? 0) with false by (symmetry; apply Z.ltb_ge; lia).
    replace (Z.of_nat (length (e0 :: ix)) <=? refId) with false
      by (symmetry; apply Z.leb_gt; lia).
    cbn [orb].
    rewrite (at_in_range _ _ e) by
      (try assumption; unfold SIZE_MAX; unfold INT_MAX in *; lia).
    reflexivity. }
  rewrite E. repeat split.
  - intros Hr.
    replace ((start <? 0) || (stop <? start) || (Length e <? stop)) with true;
      [reflexivity|].
    symmetry. rewrite !orb_true_iff, !Z.ltb_lt. tauto.
  - intros Hs Hstop err.
    replace ((start <? 0) || (stop <? start) || (Length e <? stop))
      with false
      by (symmetry; rewrite !orb_false_iff, !Z.ltb_ge; lia).
    destruct (fseek64 _ _) as [f|];
      [|cbn [fst]; intros H; injection H as <-; discriminate].
    destruct (negb _); [discriminate|].
    destruct (GetNextSequence _ _) as [[[|] s] d'].
    + destruct (substr _ _ _); discriminate.
    + cbn [fst]. intros H. injection H as <-. discriminate.
  - intros Hs Hstop Ho.
    replace ((start <? 0) || (stop <? start) || (Length e <? stop))
      with false
      by (symmetry; rewrite !orb_false_iff, !Z.ltb_ge; lia).
    unfold fseek64.
    replace (Offset e <? 0) with true by (symmetry; apply Z.ltb_lt; lia).
    reflexivity.
Qed.

Lemma GetSequence_indexed_validates_witness :
  GetSequence 1 2 6 Samples.indexed_two
  = (Failure InvalidStartStop, Samples.indexed_two).
Proof.
  refine (proj1 (GetSequence_indexed_validates Samples.indexed_two 1 2 6
                   (mkData (Samples.bytes "seq2") 5 84 10 11) _ _) _).
  - unfold indexed. repeat split; vm_compute; congruence.
  - unfold entry_at. split; [lia | reflexivity].
  - right. right. simpl. lia.
Defined.

(** ** A data file without its final line terminator *)

Lemma fgets_bytes_short (l : list byte) :
  forall k : nat,
    Forall (fun b => b <> LF) l -> (length l < k)%nat ->
    fgets_bytes k l = (l, true).
Proof.
  induction l as [|b l IH]; intros k Hl Hk;
    (destruct k; [simpl in Hk; lia|]); [reflexivity|].
  cbn [fgets_bytes]. inversion Hl as [|? ? Hb Hl']; subst.
  rewrite (byte_eqb_neq _ _ Hb), IH by (try assumption; simpl in Hk; lia).
  reflexivity.
Qed.

Lemma Forall_firstn_skipn {A} (P : A -> Prop) (n : nat) (l : list A) :
  Forall P l -> Forall P (firstn n l) /\ Forall P (skipn n l).
Proof.
  intros H. rewrite <- (firstn_skipn n l) in H.
  apply Forall_app in H. exact H.
Qed.

(** [fgets] on the last line of a file, when no line feed ends it. *)
Lemma fgets_tail (f : FILE) (l : list byte) :
  remaining f = l -> l <> [] -> Forall (fun b => b <> LF) l ->
  exists e,
    fgets 1024 f
    = (Some (firstn 1023 l),
       mkFILE (content f) (fpos f + length (firstn 1023 l)) e).
Proof.
  intros Hrem Hne Hl.
  destruct (le_lt_dec 1023 (length l)) as [Hbig | Hsmall].
  - exists (eofflag f).
    apply (fgets_chunk f (firstn 1023 l) (skipn 1023 l)).
    + rewrite firstn_skipn. exact Hrem.
    + apply (Forall_firstn_skipn _ 1023 l Hl).
    + rewrite length_firstn. lia.
  - rewrite firstn_all2 by lia. unfold fgets. rewrite Hrem.
    change (1024 - 1)%nat with 1023%nat.
    rewrite fgets_bytes_short by (try assumption; lia).
    destruct l; [congruence|]. eexists. reflexivity.
Qed.

(** Reading the last line of a file, when nothing ends it. *)
Lemma sequence_from_tail (n : nat) :
  forall (l : list byte) (f : FILE) (acc : list byte) (count : Z),
    (length l <= n)%nat -> line_ok l = true -> remaining f = l ->
    exists p q f',
      l = p ++ q /\
      sequence_from f acc count = (true, acc ++ p, f') /\
      (count <= Z.of_nat (length (acc ++ p))
       \/ (q = [] /\ remaining f' = [])).
Proof.
  induction n as [|n IH]; intros l f acc count Hn Hok Hrem;
    (destruct (Z_lt_le_dec (Z.of_nat (length acc)) count) as [Hc | Hc];
     [|exists [], l, f; rewrite (app_nil_r acc);
       split; [reflexivity|]; split;
       [apply sequence_from_done; exact Hc | left; exact Hc]]);
    (destruct l as [|b tl];
     [exists [], [], (mkFILE (content f) (fpos f) (is_nil (remaining f)));
      rewrite (app_nil_r acc); split; [reflexivity|]; split;
      [apply sequence_from_end; [left; exact Hrem | exact Hc]
      | right; split; [reflexivity | exact Hrem]]|]).
  - simpl in Hn. lia.
  - destruct (line_ok_parts _ Hok) as (Hg & Hgt).
    assert (HGT : b <> GT) by (inversion Hgt; assumption).
    assert (Hff : b <> xff).
    { inversion Hg; subst. apply (graphic_facts b). assumption. }
    set (l := b :: tl) in *.
    destruct (Forall_firstn_skipn _ 1023 l Hg) as [Hgc Hgs].
    destruct (fgets_tail (mkFILE (content f) (fpos f) false) l Hrem
                ltac:(discriminate) (graphic_no_LF _ Hg)) as (e & Eg).
    rewrite (sequence_from_step f _ acc _ count b tl Hc Hrem HGT Hff Eg).
    cbn [content fpos] in *. rewrite (Chomp_graphic _ Hgc).
    assert (Hoks : line_ok (skipn 1023 l) = true).
    { rewrite <- (firstn_skipn 1023 l) in Hok.
      apply (line_ok_app _ _ Hok). }
    destruct (IH (skipn 1023 l)
                 (mkFILE (content f) (fpos f + length (firstn 1023 l)) e)
                 (acc ++ firstn 1023 l) count)
      as (p & q & f' & Ep & E & Hp).
    + rewrite length_skipn. unfold l in *. simpl in Hn |- *. lia.
    + exact Hoks.
    + destruct f as [bytes pos eo]. cbn [content fpos] in *.
      apply (remaining_advance bytes pos eo e (firstn 1023 l)).
      rewrite firstn_skipn. exact Hrem.
    + exists (firstn 1023 l ++ p), q, f'. rewrite <- app_assoc in E, Hp.
      split; [rewrite <- app_assoc, <- Ep, firstn_skipn; reflexivity|].
      split; assumption.
Qed.

(** Reading the lines of the last record, the last of which nothing
    ends. *)
Lemma sequence_from_lines_open (t : terminator) (ls : list (list byte)) :
  forall (f : FILE) (acc l : list byte) (count : Z),
    forallb line_ok ls = true -> line_ok l = true ->
    remaining f = render_lines t ls ++ l ->
    exists p q f',
      concat ls ++ l = p ++ q /\
      sequence_from f acc count = (true, acc ++ p, f') /\
      (count <= Z.of_nat (length (acc ++ p))
       \/ (q = [] /\ remaining f' = [])).
Proof.
  induction ls as [|l0 ls IH]; intros f acc l count Hok Hl Hrem.
  - cbn [render_lines map concat app] in *.
    apply (sequence_from_tail (length l)); [lia | exact Hl | exact Hrem].
  - cbn [forallb] in Hok. apply andb_true_iff in Hok.
    destruct Hok as [Hl0 Hls].
    rewrite render_lines_cons, <- app_assoc in Hrem.
    destruct (sequence_from_line t (length l0) l0 f acc count
                (render_lines t ls ++ l) (le_n _) Hl0 Hrem)
      as [(p & q & f' & Ep & E & Hp) | E].
    + exists p, (q ++ concat ls ++ l), f'. cbn [concat].
      split; [rewrite Ep, <- !app_assoc; reflexivity|].
      split; [exact E | left; exact Hp].
    + destruct (IH (mkFILE (content f) (fpos f + length (l0 ++ eol_bytes t))
                           false)
                   (acc ++ l0) l count Hls Hl) as (p & q & f' & Ep & E' & Hp).
      * destruct f as [bytes pos eo]. cbn [content fpos] in *.
        apply (remaining_advance bytes pos eo false (l0 ++ eol_bytes t)).
        exact Hrem.
      * exists (l0 ++ p), q, f'. cbn [concat].
        rewrite <- app_assoc in E', Hp.
        split; [rewrite <- !app_assoc, <- Ep; reflexivity|].
        split; [rewrite E; exact E' | exact Hp].
Qed.

Lemma GetNextSequence_lines_open (t : terminator) (ls : list (list byte))
    (l : list byte) (d : FastaPrivate) :
  IsOpen d = true -> eofflag (Stream d) = false ->
  forallb line_ok ls = true -> line_ok l = true ->
  remaining (Stream d) = render_lines t ls ++ l ->
  Z.of_nat (length (content (Stream d))) <= INT_MAX ->
  exists f',
    GetNextSequence SIZE_MAX d = (true, concat ls ++ l, set_Stream d f') /\
    content f' = content (Stream d) /\ remaining f' = [].
Proof.
  intros Hopen Heof Hok Hl Hrem Hsize.
  pose proof (render_lines_length t ls) as Hll.
  pose proof (remaining_length (Stream d)) as Hr.
  rewrite Hrem, length_app in Hr.
  unfold GetNextSequence, feof. rewrite Hopen, Heof. cbn [negb orb].
  pose proof (GetNextSequence_loop_bounds
                (S (length (remaining (Stream d)))) (Stream d) [] SIZE_MAX)
    as Hb.
  fold (sequence_from (Stream d) [] SIZE_MAX) in Hb |- *.
  destruct (sequence_from_lines_open t ls (Stream d) [] l SIZE_MAX Hok Hl
              Hrem) as (p & q & f' & Ep & E & Hp).
  rewrite E in Hb |- *. cbn [app] in *. destruct Hb as (Hc & _).
  destruct Hp as [Hp | [Hq Hf]].
  - apply (f_equal (@length byte)) in Ep. rewrite !length_app in Ep.
    unfold SIZE_MAX, INT_MAX in *. lia.
  - subst q. rewrite app_nil_r in Ep. rewrite Ep.
    exists f'. repeat split; assumption.
Qed.

(** Header and sequence of a record that another header follows. *)
Lemma read_record_then (t : terminator) (r : record) (d : FastaPrivate)
    (tail : list byte) :
  IsOpen d = true -> eofflag (Stream d) = false ->
  remaining (Stream d)
  = render_header t r ++ render_lines t (rlines r) ++ tail ->
  (exists tl, tail = GT :: tl) ->
  record_ok t r = true ->
  Z.of_nat (length (content (Stream d))) <= INT_MAX ->
  let d1 := set_Stream d (mkFILE (content (Stream d))
                            (fpos (Stream d) + length (render_header t r))
                            false) in
  let d2 := set_Stream d (mkFILE (content (Stream d))
                            (fpos (Stream d) + length (render_header t r)
                             + length (render_lines t (rlines r)))
                            false) in
  GetNextHeader d = (Some (render_header t r), d1) /\
  GetNextSequence SIZE_MAX d1 = (true, rseq r, d2) /\
  remaining (Stream d2) = tail.
Proof.
  intros Hopen Heof Hrem Htail Hok Hsize d1 d2.
  destruct (record_ok_parts _ _ Hok) as [Hh Hls].
  assert (Hrem1 : remaining (Stream d1) = render_lines t (rlines r) ++ tail).
  { unfold d1. destruct d as [[bytes p e] ? ? ? ? ?].
    cbn [set_Stream Stream content fpos] in *.
    apply (remaining_advance bytes p e false _ _ Hrem). }
  split; [apply (GetNextHeader_header t r d _ Hopen Heof Hrem Hh)|].
  split.
  - rewrite (GetNextSequence_lines t (rlines r) d1 tail).
    + destruct Htail as (tl & ->). unfold d1, d2. destruct d; reflexivity.
    + unfold d1. destruct d; exact Hopen.
    + unfold d1. destruct d; reflexivity.
    + exact Hls.
    + exact Hrem1.
    + right. exact Htail.
    + unfold d1. destruct d; exact Hsize.
  - unfold d2. destruct d as [[bytes p e] ? ? ? ? ?].
    cbn [set_Stream Stream content fpos] in *.
    rewrite <- Nat.add_assoc, <- length_app.
    apply (remaining_advance bytes p e _ _ _).
    rewrite Hrem, <- app_assoc. reflexivity.
Qed.

(** The loop of [CreateIndex] over records that another header follows:
    it appends their entries and goes on from that header. *)
Lemma CreateIndex_loop_records_then (t : terminator) (ll bl : Z)
    (rs : list record) :
  forall (fuel : nat) (d : FastaPrivate) (tail : list byte),
    IsOpen d = true -> eofflag (Stream d) = false ->
    remaining (Stream d) = render t rs ++ tail ->
    (exists tl, tail = GT :: tl) ->
    forallb (record_ok t) rs = true ->
    Z.of_nat (length (content (Stream d))) <= INT_MAX ->
    CreateIndex_loop (length rs + fuel) ll bl d
    = CreateIndex_loop fuel ll bl
        (mkFasta (mkFILE (content (Stream d))
                         (fpos (Stream d) + length (render t rs)) false)
                 true (IndexStream d) (HasIndex d) (IsIndexOpen d)
                 (Index d ++ index_of t ll bl (fpos (Stream d)) rs)).
Proof.
  induction rs as [|r rs IH]; intros fuel d tail Hopen Heof Hrem Htail Hok
    Hsize.
  - destruct d as [[bytes p e] isopen ixs h io index].
    cbn [IsOpen Stream eofflag content fpos IndexStream HasIndex IsIndexOpen
         Index render map concat length index_of Nat.add] in *.
    subst. rewrite Nat.add_0_r, app_nil_r. reflexivity.
  - cbn [length Nat.add CreateIndex_loop].
    cbn [forallb] in Hok. apply andb_true_iff in Hok.
    destruct Hok as [Hr Hrs].
    rewrite render_cons, <- !app_assoc in Hrem.
    assert (Hnext : exists tl, render t rs ++ tail = GT :: tl).
    { destruct rs as [|r' rs']; [exact Htail|].
      rewrite render_cons. unfold render_header. cbn [app]. eauto. }
    destruct (read_record_then t r d _ Hopen Heof Hrem Hnext Hr Hsize)
      as (E1 & E2 & E3).
    rewrite E1.
    rewrite (GetNameFromHeader_header t r)
      by (apply (record_ok_parts _ _ Hr)).
    rewrite E2. cbn [negb].
    match goal with
    | |- CreateIndex_loop _ _ _ ?d2 = _ => rewrite (IH fuel d2 tail)
    end.
    + destruct d as [[bytes p e] isopen ixs h io index].
      cbn [set_Index set_Stream Stream Index IndexStream HasIndex
           IsIndexOpen fpos content ftell64 index_of].
      rewrite render_cons, !length_app, <- !app_assoc. cbn [app].
      rewrite to_int32_small.
      * rewrite !Nat.add_assoc. reflexivity.
      * pose proof (render_lines_length t (rlines r)) as Hl.
        pose proof (remaining_length (mkFILE bytes p e)) as Hrl.
        cbn [Stream] in Hrem.
        rewrite Hrem, !length_app in Hrl.
        cbn [content Stream] in *. unfold rseq, INT_MIN. lia.
    + destruct d; exact Hopen.
    + destruct d; reflexivity.
    + destruct d; exact E3.
    + exact Htail.
    + exact Hrs.
    + destruct d; exact Hsize.
Qed.

Lemma GetNextHeader_at_end (d : FastaPrivate) :
  IsOpen d = true -> remaining (Stream d) = [] ->
  exists f',
    GetNextHeader d = (None, set_Stream d f') /\
    content f' = content (Stream d).
Proof.
  intros Hopen Hrem. unfold GetNextHeader, feof. rewrite Hopen.
  cbn [negb orb]. destruct (eofflag (Stream d)).
  - exists (Stream d). split; [destruct d|]; reflexivity.
  - unfold fgets. rewrite Hrem. change (1024 - 1)%nat with (S 1022).
    cbn [fgets_bytes]. eexists. split; reflexivity.
Qed.

(** The loop of [CreateIndex] on the last record, when nothing ends its
    last line. *)
Lemma CreateIndex_loop_last (t : terminator) (ll bl : Z) (r : record)
    (ls : list (list byte)) (l : list byte) (fuel : nat) (d : FastaPrivate) :
  IsOpen d = true -> eofflag (Stream d) = false ->
  rlines r = ls ++ [l] -> record_ok t r = true ->
  remaining (Stream d) = render_header t r ++ render_lines t ls ++ l ->
  Z.of_nat (length (content (Stream d))) <= INT_MAX ->
  exists f',
    CreateIndex_loop (S (S fuel)) ll bl d
    = (Success tt,
       mkFasta f' true (IndexStream d) (HasIndex d) (IsIndexOpen d)
               (Index d
                ++ [mkData (rname r) (Z.of_nat (length (rseq r)))
                           (Z.of_nat (fpos (Stream d)
                                      + length (render_header t r)))
                           ll bl])) /\
    content f' = content (Stream d).
Proof.
  intros Hopen Heof Hlines Hok Hrem Hsize.
  destruct (record_ok_parts _ _ Hok) as [Hh Hls].
  rewrite Hlines, forallb_app in Hls. apply andb_true_iff in Hls.
  destruct Hls as [Hls Hl]. cbn [forallb] in Hl.
  rewrite andb_true_r in Hl.
  assert (Eseq : rseq r = concat ls ++ l).
  { unfold rseq. rewrite Hlines, concat_app. cbn [concat].
    rewrite app_nil_r. reflexivity. }
  cbn [CreateIndex_loop].
  rewrite (GetNextHeader_header t r d _ Hopen Heof Hrem Hh).
  rewrite (GetNameFromHeader_header t r Hh).
  set (d1 := set_Stream d _).
  destruct (GetNextSequence_lines_open t ls l d1) as (f2 & E2 & Hc2 & Hr2).
  - unfold d1. destruct d; exact Hopen.
  - unfold d1. destruct d; reflexivity.
  - exact Hls.
  - exact Hl.
  - unfold d1. destruct d as [[bytes p e] ? ? ? ? ?].
    cbn [set_Stream Stream content fpos] in *.
    apply (remaining_advance bytes p e false _ _ Hrem).
  - unfold d1. destruct d; exact Hsize.
  - rewrite E2. cbn [negb]. unfold d1. rewrite set_Stream_twice.
    match goal with
    | |- context [GetNextHeader ?d3] =>
        destruct (GetNextHeader_at_end d3) as (f3 & E3 & Hc3)
    end.
    + destruct d; exact Hopen.
    + destruct d; exact Hr2.
    + rewrite E3. exists f3. split.
      * destruct d as [[bytes p e] isopen ixs h io index].
        cbn [set_Index set_Stream Stream Index IndexStream HasIndex
             IsIndexOpen IsOpen fpos content ftell64] in *.
        subst isopen. rewrite <- Eseq.
        rewrite to_int32_small; [reflexivity|].
        pose proof (render_lines_length t ls) as Hll.
        pose proof (remaining_length (mkFILE bytes p e)) as Hrl.
        rewrite Hrem, !length_app in Hrl.
        rewrite Eseq, length_app.
        cbn [content] in *. unfold INT_MIN. lia.
      * unfold d1 in Hc2.
        destruct d; cbn [set_Index set_Stream Stream content] in *.
        congruence.
Qed.

Lemma index_of_app (t : terminator) (ll bl : Z) (rs : list record)
    (r : record) :
  forall off : nat,
    index_of t ll bl off (rs ++ [r])
    = index_of t ll bl off rs
      ++ [mkData (rname r) (Z.of_nat (length (rseq r)))
                 (Z.of_nat (off + length (render t rs)
                            + length (render_header t r)))
                 ll bl].
Proof.
  induction rs as [|r0 rs IH]; intros off.
  - cbn [app index_of render map concat length].
    rewrite Nat.add_0_r. reflexivity.
  - cbn [app index_of]. rewrite IH, render_cons, !length_app.
    rewrite !Nat.add_assoc. reflexivity.
Qed.

(** The scan of a file that starts with records in the format, up to the
    header that follows them; the first sequence line of the file is
    measured. *)
Lemma CreateIndex_scan_prefix (t : terminator) (rs0 : list record)
    (r0 : record) (l0 rest tail : list byte) (d : FastaPrivate) :
  IsOpen d = true ->
  content (Stream d) = render t rs0 ++ tail -> (exists tl, tail = GT :: tl) ->
  content (Stream d) = render_header t r0 ++ (l0 ++ eol_bytes t) ++ rest ->
  header_ok t r0 = true -> line_ok l0 = true ->
  forallb (record_ok t) rs0 = true ->
  Z.of_nat (length (content (Stream d))) <= INT_MAX ->
  CreateIndex_scan d
  = CreateIndex_loop (S (S (length (content (Stream d)) - length rs0 - 1)))
      (Z.of_nat (length l0)) (Z.of_nat (length l0 + length (eol_bytes t)))
      (mkFasta (mkFILE (content (Stream d)) (length (render t rs0)) false)
               true (IndexStream d) (HasIndex d) (IsIndexOpen d)
               (index_of t (Z.of_nat (length l0))
                         (Z.of_nat (length l0 + length (eol_bytes t))) 0
                         rs0)).
Proof.
  intros Hopen Hc1 Htail Hc2 Hh0 Hl0 Hrs0 Hsize.
  destruct d as [[bytes p e] isopen ixs hasix ixopen ix].
  cbn [IsOpen Stream content IndexStream HasIndex IsIndexOpen] in *.
  subst isopen.
  unfold CreateIndex_scan, Rewind, fseek64. cbn [IsOpen negb Stream].
  change (0 <? 0) with false. cbv iota.
  cbn [set_Stream set_Index Stream IsOpen IndexStream HasIndex IsIndexOpen
       Index content Z.to_nat negb].
  (* the first header *)
  destruct (header_text_no_LF _ _ Hh0) as [HLF _].
  destruct (header_ok_parts _ _ Hh0) as (_ & _ & _ & Hlen).
  set (f0 := mkFILE bytes 0 false).
  assert (Hrem0 : remaining f0
                  = (GT :: rname r0 ++ rdesc r0 ++ eol_pre t)
                    ++ LF :: (l0 ++ eol_bytes t) ++ rest).
  { unfold f0, remaining. cbn [content fpos skipn].
    rewrite Hc2, render_header_split, <- app_assoc. reflexivity. }
  rewrite (fgets_line f0 _ _ Hrem0 HLF)
    by (rewrite render_header_split, length_app in Hlen; simpl in Hlen;
        simpl; lia).
  rewrite <- render_header_split.
  cbn [feof eofflag f0 Stream fpos content Nat.add].
  replace (hd NUL (render_header t r0)) with GT by reflexivity.
  rewrite byte_eqb_refl. cbn [negb].
  (* the first line of sequence *)
  set (f1 := mkFILE bytes (length (render_header t r0)) false).
  assert (Hrem1 : remaining f1 = (l0 ++ eol_pre t) ++ LF :: rest).
  { unfold f1.
    change (length (render_header t r0))
      with (0 + length (render_header t r0))%nat.
    apply (remaining_advance bytes 0 false false (render_header t r0)).
    unfold remaining. cbn [content fpos skipn].
    rewrite Hc2, eol_bytes_pre, <- !app_assoc. reflexivity. }
  destruct (line_ok_parts _ Hl0) as (Hg & _).
  assert (Hfuel : (length (l0 ++ eol_pre t)
                   < S (length (remaining (snd (fgetc f1)))))%nat).
  { destruct (l0 ++ eol_pre t) as [|b y] eqn:Ey.
    - simpl. lia.
    - rewrite (fgetc_cons f1 b _ Hrem1). cbn [snd].
      unfold remaining. cbn [content fpos].
      unfold remaining in Hrem1.
      rewrite (skipn_S_of_cons _ _ _ _ Hrem1), length_app. simpl. lia. }
  destruct (first_line_loop_run (l0 ++ eol_pre t)
              (S (length (remaining (snd (fgetc f1))))) f1 0 0 _
              Hrem1 (line_bytes_measurable t l0 Hg) Hfuel)
    as (f2 & Em & Hcf2).
  destruct (fgetc f1) as [c f1'] eqn:Efg. cbn [fst snd] in Em, Hfuel.
  rewrite Em. rewrite (filter_graphic_line t l0 Hg).
  assert (Hbl : in_int32 (0 + Z.of_nat (length (l0 ++ eol_pre t)) + 1) = true).
  { apply in_int32_spec.
    pose proof (remaining_length f1) as Hrl.
    rewrite Hrem1 in Hrl. rewrite !length_app in Hrl.
    cbn [content f1] in Hrl. cbn [length] in Hrl.
    unfold INT_MIN. rewrite length_app. lia. }
  rewrite Hbl. cbn [negb].
  cbn [Z.to_nat Stream content set_Stream IsOpen IndexStream HasIndex
       IsIndexOpen Index].
  rewrite Hcf2. cbn [content f1].
  replace (0 + Z.of_nat (length l0)) with (Z.of_nat (length l0)) by lia.
  replace (0 + Z.of_nat (length (l0 ++ eol_pre t)) + 1)
    with (Z.of_nat (length l0 + length (eol_bytes t)))
    by (rewrite eol_length, length_app; lia).
  (* the loop over the records *)
  assert (Hlong : (length rs0 + 1 <= length bytes)%nat).
  { pose proof (render_length t rs0). destruct Htail as (tl & ->).
    rewrite Hc1, !length_app. cbn [length]. lia. }
  replace (S (length bytes))
    with (length rs0 + S (S (length bytes - length rs0 - 1)))%nat by lia.
  rewrite (CreateIndex_loop_records_then t _ _ rs0 _ _ tail);
    try reflexivity; try assumption.
Qed.

(** The scan of a file in the format that lacks its final line
    terminator; the first sequence line of the file is not its last
    line. *)
Lemma CreateIndex_scan_open (t : terminator) (rs0 : list record)
    (r r0 : record) (ls : list (list byte)) (l l0 rest : list byte)
    (d : FastaPrivate) :
  IsOpen d = true ->
  content (Stream d)
  = render t rs0 ++ render_header t r ++ render_lines t ls ++ l ->
  content (Stream d) = render_header t r0 ++ (l0 ++ eol_bytes t) ++ rest ->
  header_ok t r0 = true -> line_ok l0 = true ->
  forallb (record_ok t) rs0 = true -> record_ok t r = true ->
  rlines r = ls ++ [l] ->
  Z.of_nat (length (content (Stream d))) <= INT_MAX ->
  exists f',
    CreateIndex_scan d
    = (Success tt,
       mkFasta f' true (IndexStream d) (HasIndex d) (IsIndexOpen d)
               (index_of t (Z.of_nat (length l0))
                         (Z.of_nat (length l0 + length (eol_bytes t))) 0
                         (rs0 ++ [r]))) /\
    content f' = content (Stream d).
Proof.
  intros Hopen Hc1 Hc2 Hh0 Hl0 Hrs0 Hr Hlines Hsize.
  rewrite (CreateIndex_scan_prefix t rs0 r0 l0 rest _ d Hopen Hc1
             ltac:(unfold render_header; cbn [app]; eauto)
             Hc2 Hh0 Hl0 Hrs0 Hsize).
  match goal with
  | |- context [CreateIndex_loop (S (S ?fuel)) ?ll ?bl ?dd] =>
      destruct (CreateIndex_loop_last t ll bl r ls l fuel dd)
        as (f' & E & Hc); try reflexivity; try assumption
  end.
  - unfold remaining. cbn [Stream content fpos].
    rewrite Hc1 at 1. rewrite skipn_app, skipn_all, Nat.sub_diag.
    reflexivity.
  - exists f'. split; [|exact Hc]. rewrite E.
    cbn [Stream fpos IndexStream HasIndex IsIndexOpen Index].
    rewrite index_of_app. reflexivity.
Qed.

Lemma render_app (t : terminator) (rs1 rs2 : list record) :
  render t (rs1 ++ rs2) = render t rs1 ++ render t rs2.
Proof. unfold render. rewrite map_app, concat_app. reflexivity. Qed.

Lemma render_lines_app (t : terminator) (ls1 ls2 : list (list byte)) :
  render_lines t (ls1 ++ ls2) = render_lines t ls1 ++ render_lines t ls2.
Proof. unfold render_lines. rewrite map_app, concat_app. reflexivity. Qed.

(** X21. The line terminator at the end of the data file is optional.
    Over a file in the format from which the terminator of the last
    sequence line is missing (the file has at least two sequence lines),
    [CreateIndex] succeeds and builds the table it builds over the
    complete file, and [GetLength] returns the length of every
    de-wrapped sequence, that of the last record included. *)
Theorem CreateIndex_without_final_terminator (t : terminator)
    (rs0 : list record) (r : record) (ls : list (list byte)) (l : list byte)
    (indexFilename : string) (fs : filesystem) (d : FastaPrivate) :
  well_formed t (rs0 ++ [r]) = true ->
  rlines r = ls ++ [l] -> rs0 <> [] \/ ls <> [] ->
  IsOpen d = true ->
  content (Stream d) ++ eol_bytes t = render t (rs0 ++ [r]) ->
  indexFilename <> EmptyString -> writable fs indexFilename = true ->
  exists fs' d',
    CreateIndex indexFilename fs d = (Success tt, fs', d') /\
    Index d' = index_table t (rs0 ++ [r]) /\ HasIndex d' = true /\
    (forall refId r',
       0 <= refId -> nth_error (rs0 ++ [r]) (Z.to_nat refId) = Some r' ->
       GetLength refId d' = (Success (Z.of_nat (length (rseq r'))), d')).
Proof.
  intros Hwf Hlines Htwo Hopen Hcontent Hname Hw.
  destruct (well_formed_parts _ _ Hwf)
    as (Hrs & (r0 & rs' & l0 & ls0 & Ers & El) & Hsize).
  pose proof Hrs as Hrs'. rewrite forallb_app in Hrs'.
  apply andb_true_iff in Hrs'. destruct Hrs' as [Hrs0 Hr].
  cbn [forallb] in Hr. rewrite andb_true_r in Hr.
  (* the file, record by record *)
  assert (Hc1 : content (Stream d)
                = render t rs0 ++ render_header t r
                  ++ render_lines t ls ++ l).
  { apply (app_inv_tail (eol_bytes t)). rewrite Hcontent, render_app.
    unfold render at 2. cbn [map concat]. unfold render_record.
    rewrite Hlines, render_lines_app, render_lines_cons.
    cbn [render_lines map concat]. rewrite !app_nil_r, <- !app_assoc.
    reflexivity. }
  (* the file, from its first sequence line *)
  assert (Hc2 : exists rest,
             content (Stream d)
             = render_header t r0 ++ (l0 ++ eol_bytes t) ++ rest).
  { destruct rs0 as [|r1 rs1].
    - cbn [app] in Ers. injection Ers as <- <-.
      destruct ls as [|l1 ls1]; [destruct Htwo; congruence|].
      rewrite Hlines in El. cbn [app] in El. injection El as <- <-.
      exists (render_lines t ls1 ++ l). rewrite Hc1.
      cbn [render map concat app]. rewrite render_lines_cons, <- !app_assoc.
      reflexivity.
    - cbn [app] in Ers. injection Ers as <- <-.
      eexists. rewrite Hc1, render_cons, El, render_lines_cons.
      rewrite <- !app_assoc. reflexivity. }
  destruct Hc2 as (rest & Hc2).
  assert (Hr0 : record_ok t r0 = true).
  { rewrite Ers in Hrs. cbn [forallb] in Hrs.
    apply andb_true_iff in Hrs. apply Hrs. }
  destruct (record_ok_parts _ _ Hr0) as [Hh0 Hls0].
  assert (Hl0 : line_ok l0 = true).
  { rewrite El in Hls0. cbn [forallb] in Hls0.
    apply andb_true_iff in Hls0. apply Hls0. }
  assert (Hsize' : Z.of_nat (length (content (Stream d))) <= INT_MAX).
  { apply (f_equal (@length byte)) in Hcontent.
    rewrite length_app in Hcontent. lia. }
  destruct (CreateIndex_scan_open t rs0 r r0 ls l l0 rest d Hopen Hc1 Hc2
              Hh0 Hl0 Hrs0 Hr Hlines Hsize') as (f' & E & Hc).
  assert (Htable : index_of t (Z.of_nat (length l0))
                     (Z.of_nat (length l0 + length (eol_bytes t))) 0
                     (rs0 ++ [r])
                   = index_table t (rs0 ++ [r])).
  { unfold index_table, line_length, byte_length, first_line.
    rewrite Ers, El. reflexivity. }
  rewrite Htable in E.
  unfold CreateIndex. rewrite E.
  apply String.eqb_neq in Hname. rewrite Hname. cbn [negb].
  unfold fopen_wb. rewrite Hw.
  unfold WriteIndexData. cbn [IsIndexOpen negb Index IndexStream].
  destruct (WriteIndexData_loop_write indexFilename
              (index_table t (rs0 ++ [r]))
              (fs_store fs indexFilename []) true [])
    as (fs' & Ew & _).
  { unfold fs_store. cbn [files]. rewrite String.eqb_refl. reflexivity. }
  rewrite Ew. eexists. eexists. split; [reflexivity|].
  cbn [Index HasIndex]. repeat split.
  intros refId r' H0 Hr'.
  apply (GetLength_on_table t (rs0 ++ [r]) _ refId r');
    try assumption; reflexivity.
Qed.

Lemma CreateIndex_without_final_terminator_witness :
  exists fs' d',
    CreateIndex "ref.fai"
      (Samples.one_file "ref.fa" Samples.two_records_open)
      (Samples.opened Samples.two_records_open)
    = (Success tt, fs', d') /\
    Index d' = Index Samples.indexed_two.
Proof.
  destruct (CreateIndex_without_final_terminator LineFeed [Samples.seq1]
              Samples.seq2 [] (Samples.bytes "ACGTN") "ref.fai"
              (Samples.one_file "ref.fa" Samples.two_records_open)
              (Samples.opened Samples.two_records_open))
    as (fs' & d' & E & Hi & _).
  - reflexivity.
  - reflexivity.
  - left. discriminate.
  - reflexivity.
  - reflexivity.
  - discriminate.
  - reflexivity.
  - exists fs', d'. split; [exact E|]. rewrite Hi. reflexivity.
Defined.

(** ** A header at the end of the file *)

(** [GetNextHeader] on a last header line that nothing ends: the line is
    read, and the end of the file is noticed. *)
Lemma GetNextHeader_unterminated (t : terminator) (r : record)
    (d : FastaPrivate) :
  IsOpen d = true -> eofflag (Stream d) = false ->
  remaining (Stream d) = GT :: rname r ++ rdesc r ->
  header_ok t r = true ->
  GetNextHeader d
  = (Some (GT :: rname r ++ rdesc r),
     set_Stream d (mkFILE (content (Stream d))
                          (fpos (Stream d)
                           + length (GT :: rname r ++ rdesc r))
                          true)).
Proof.
  intros Hopen Heof Hrem Hok.
  destruct (header_text_no_LF _ _ Hok) as [HLF HNUL].
  destruct (header_ok_parts _ _ Hok) as (_ & _ & _ & Hlen).
  set (h := GT :: rname r ++ rdesc r) in *.
  assert (Eh : render_header t r = h ++ eol_bytes t).
  { unfold render_header, h. cbn [app]. rewrite <- app_assoc. reflexivity. }
  assert (HLF' : Forall (fun b => b <> LF) h).
  { replace (GT :: rname r ++ rdesc r ++ eol_pre t) with (h ++ eol_pre t)
      in HLF by (unfold h; cbn [app]; rewrite <- app_assoc; reflexivity).
    apply Forall_app in HLF. apply HLF. }
  assert (HNUL' : Forall (fun b => b <> NUL) h).
  { rewrite Eh in HNUL. apply Forall_app in HNUL. apply HNUL. }
  rewrite Eh, length_app in Hlen. pose proof (eol_length t) as Heol.
  unfold GetNextHeader, feof. rewrite Hopen, Heof. cbn [negb orb].
  unfold fgets. rewrite Hrem, Heof. change (1024 - 1)%nat with 1023%nat.
  rewrite fgets_bytes_short by (try assumption; lia).
  unfold h at 1. cbn [orb]. fold h.
  replace (hd NUL h) with GT by reflexivity.
  rewrite byte_eqb_refl. cbn [negb].
  rewrite (cstr_no_NUL _ HNUL'). reflexivity.
Qed.

Lemma GetNameFromHeader_some (t : terminator) (r : record)
    (post : list byte) :
  header_ok t r = true ->
  GetNameFromHeader (GT :: rname r ++ post) <> None.
Proof.
  intros Hok. destruct (header_ok_parts _ _ Hok) as (Hne & Hn & _).
  destruct (first_word_decomposition (skipn 1 (GT :: rname r ++ post)))
    as (ws & seg & rest & Es & Hws & Hseg & Hrest & Hcanon).
  rewrite (GetNameFromHeader_decomposed _ ws seg rest Es Hws Hseg Hrest
             Hcanon).
  destruct seg as [|c seg]; [|discriminate].
  rewrite (Hcanon eq_refl) in Es. cbn [skipn app] in Es.
  rewrite app_nil_r in Es.
  destruct (rname r) as [|b name]; [congruence|].
  inversion Hn as [|? ? Hb _]; subst.
  inversion Hws as [|? ? Hb' _]; subst.
  destruct (graphic_facts b Hb) as (_ & _ & _ & _ & Hblank & _).
  congruence.
Qed.

(** X22. A record without sequence at the end of the data file is indexed
    only if its header line is terminated. Over a file in the format whose
    last record has no sequence line, [CreateIndex] succeeds and gives
    that record the length 0; over the same file without the terminator of
    that last header line, it returns [false] ("could not read in next
    sequence"), because [GetNextSequence] refuses a stream whose
    end-of-file indicator the header read has set. *)
Theorem CreateIndex_unterminated_header (t : terminator)
    (rs0 : list record) (r : record) (indexFilename : string)
    (fs : filesystem) (d dfull : FastaPrivate) :
  well_formed t (rs0 ++ [r]) = true -> rlines r = [] ->
  IsOpen d = true ->
  content (Stream d) ++ eol_bytes t = render t (rs0 ++ [r]) ->
  IsOpen dfull = true -> content (Stream dfull) = render t (rs0 ++ [r]) ->
  indexFilename <> EmptyString -> writable fs indexFilename = true ->
  (exists d', CreateIndex indexFilename fs d
              = (Failure NoNextSequence, fs, d')) /\
  (exists fs' d',
     CreateIndex indexFilename fs dfull = (Success tt, fs', d') /\
     GetLength (Z.of_nat (length rs0)) d' = (Success 0, d')).
Proof.
  intros Hwf Hlines Hopen Hcontent Hopenf Hcontentf Hname Hw.
  split.
  - destruct (well_formed_parts _ _ Hwf)
      as (Hrs & (r0 & rs' & l0 & ls0 & Ers & El) & Hsize).
    pose proof Hrs as Hrs'. rewrite forallb_app in Hrs'.
    apply andb_true_iff in Hrs'. destruct Hrs' as [Hrs0 Hr].
    cbn [forallb] in Hr. rewrite andb_true_r in Hr.
    destruct (record_ok_parts _ _ Hr) as [Hh _].
    set (h := GT :: rname r ++ rdesc r).
    assert (Hc1 : content (Stream d) = render t rs0 ++ h).
    { apply (app_inv_tail (eol_bytes t)). rewrite Hcontent, render_app.
      unfold render at 2. cbn [map concat]. unfold render_record.
      rewrite Hlines. cbn [render_lines map concat].
      rewrite !app_nil_r, <- !app_assoc. unfold render_header, h.
      cbn [app]. rewrite <- !app_assoc. reflexivity. }
    assert (Hc2 : exists rest,
               content (Stream d)
               = render_header t r0 ++ (l0 ++ eol_bytes t) ++ rest).
    { destruct rs0 as [|r1 rs1].
      - cbn [app] in Ers. injection Ers as <- <-. congruence.
      - cbn [app] in Ers. injection Ers as <- <-.
        eexists. rewrite Hc1, render_cons, El, render_lines_cons.
        rewrite <- !app_assoc. reflexivity. }
    destruct Hc2 as (rest & Hc2).
    assert (Hr0 : record_ok t r0 = true).
    { rewrite Ers in Hrs. cbn [forallb] in Hrs.
      apply andb_true_iff in Hrs. apply Hrs. }
    destruct (record_ok_parts _ _ Hr0) as [Hh0 Hls0].
    assert (Hl0 : line_ok l0 = true).
    { rewrite El in Hls0. cbn [forallb] in Hls0.
      apply andb_true_iff in Hls0. apply Hls0. }
    assert (Hsize' : Z.of_nat (length (content (Stream d))) <= INT_MAX).
    { apply (f_equal (@length byte)) in Hcontent.
      rewrite length_app in Hcontent. lia. }
    unfold CreateIndex.
    rewrite (CreateIndex_scan_prefix t rs0 r0 l0 rest h d Hopen Hc1
               ltac:(unfold h; eauto) Hc2 Hh0 Hl0 Hrs0 Hsize').
    cbn [CreateIndex_loop].
    rewrite (GetNextHeader_unterminated t r).
    + pose proof (GetNameFromHeader_some t r (rdesc r) Hh) as Hsome.
      fold h in Hsome |- *.
      destruct (GetNameFromHeader h) as [name|]; [|congruence].
      unfold GetNextSequence.
      cbn [set_Stream Stream IsOpen negb feof eofflag orb].
      eexists. reflexivity.
    + reflexivity.
    + reflexivity.
    + unfold remaining. cbn [Stream content fpos].
      rewrite Hc1 at 1. rewrite skipn_app, skipn_all, Nat.sub_diag.
      reflexivity.
    + exact Hh.
  - destruct (CreateIndex_well_formed t (rs0 ++ [r]) indexFilename fs dfull
                Hwf Hopenf Hcontentf Hname Hw) as (fs' & d' & E & _).
    exists fs', d'. split; [exact E|].
    destruct (CreateIndex_success_indexed_on _ _ _ _ _ _ _
                Hwf Hopenf Hcontentf E) as (Hopen' & _ & _ & Hindex).
    replace 0 with (Z.of_nat (length (rseq r)))
      by (unfold rseq; rewrite Hlines; reflexivity).
    apply (GetLength_on_table t (rs0 ++ [r])); try assumption; [lia|].
    rewrite Nat2Z.id, nth_error_app2, Nat.sub_diag by lia. reflexivity.
Qed.

Lemma CreateIndex_unterminated_header_witness :
  (exists d',
     CreateIndex "ref.fai"
       (Samples.one_file "ref.fa" (removelast Samples.bare_last))
       (Samples.opened (removelast Samples.bare_last))
     = (Failure NoNextSequence,
        Samples.one_file "ref.fa" (removelast Samples.bare_last), d')) /\
  (exists fs' d',
     CreateIndex "ref.fai" (Samples.one_file "ref.fa"
                              (removelast Samples.bare_last))
       (Samples.opened Samples.bare_last)
     = (Success tt, fs', d') /\
     GetLength (Z.of_nat 1) d' = (Success 0, d')).
Proof.
  apply (CreateIndex_unterminated_header LineFeed
           [Format.mkRecord (Samples.bytes "a") [] [Samples.bytes "AC"]]
           (Format.mkRecord (Samples.bytes "b") [] []) "ref.fai"
           (Samples.one_file "ref.fa" (removelast Samples.bare_last))
           (Samples.opened (removelast Samples.bare_last))
           (Samples.opened Samples.bare_last)).
  - reflexivity.
  - reflexivity.
  - reflexivity.
  - reflexivity.
  - reflexivity.
  - reflexivity.
  - discriminate.
  - reflexivity.
Defined.
